(** * Blender2SkyCiv: the mesh-to-structural-model transformation

    A shallow embedding of [Blender2SkyCiv.py] and the properties of its
    core: topology extraction ([extract_mesh_data]), plates
    ([create_plates_from_mesh_data], [create_plates]) and area loads
    ([add_loads_to_plates], [determine_load_direction],
    [calculate_normal]).  The static blocks of the output (materials,
    settings, sections) and the writing of the JSON file are left out.

    Python values are modelled as follows.

    - [float] is IEEE binary64, here the primitive type [float]; the
      operations that raise in Python ([**] on overflow, [/] on a zero
      divisor, [math.sqrt] on a negative argument) return a [result].
      The two calls that go to the C library are parameters:
      [math.atan2] as a function, and [pow] by the error it makes, since
      libm's [pow] is not correctly rounded ([PyFloat.pow2]).
    - [dict] is an insertion-ordered association list with unique keys
      ([Dict]); [items()] follows that order.
    - [str] is [string], read as a sequence of code points below 256;
      [str(int)], [int(str)], [str.split] and [str.join] are written
      out.
    - An exception is a value of [exn]; a function that may raise returns
      [result].  The bare [except:] of [add_loads_to_plates] matches every
      constructor of [exn].
    - The host scene (the [bpy] data) is a record: a list of objects and
      the position of the active one.  An object records whether the
      operator [bpy.ops.object.mode_set] accepts it.  Mesh coordinates
      are the single-precision numbers that Blender stores, widened to
      binary64 ([single_precision_mesh]). *)

From Stdlib Require Import Reals Lra QArith.
From Stdlib Require Import List String Ascii Bool Arith ZArith Zpower Lia.
From Stdlib Require Import Decimal DecimalString DecimalNat FinFun.
From Stdlib Require Import Floats.
Import ListNotations.
Local Close Scope R_scope.
Local Close Scope Q_scope.

Set Implicit Arguments.

(** ** Exceptions *)

Inductive exn : Set :=
| ValueError
| ZeroDivisionError
| OverflowError
| IndexError
| KeyError
| AttributeError
| RuntimeError.

Inductive result (A : Type) : Type :=
| Ok (a : A)
| Raise (e : exn).

Arguments Ok {A} a.
Arguments Raise {A} e.

Definition bind {A B : Type} (c : result A) (k : A -> result B) : result B :=
  match c with
  | Ok a => k a
  | Raise e => Raise e
  end.

Notation "x <- c ;; k" := (bind c (fun x => k))
  (at level 61, c at next level, right associativity).

(** [[f(x) for x in l]]: the elements are evaluated left to right and the
    first exception ends the comprehension. *)
Fixpoint mapM {A B : Type} (f : A -> result B) (l : list A) : result (list B) :=
  match l with
  | [] => Ok []
  | x :: r => y <- f x ;; ys <- mapM f r ;; Ok (y :: ys)
  end.

(** ** Python numbers *)

Module PyFloat.
Local Open Scope float_scope.

(** libm's [pow(x, 2.0)] for a finite [x > 0].  The C library does not
    round [pow] correctly: its result is the float nearest to the exact
    square or a neighbour of that float.  Which of the three it is for
    an argument is the parameter [pow_error]: [Eq] for the nearest
    float, [Lt] for the float below it, [Gt] for the float above it.
    The neighbour is within a factor of two of the nearest float [r]: it
    is not taken across zero, nor from an overflow back to a finite
    number. *)
Definition libm_pow2 (pow_error : float -> comparison) (x : float) : float :=
  let r := x * x in
  let p := match pow_error x with
           | Eq => r
           | Lt => next_down r
           | Gt => next_up r
           end in
  if (r * 0.5 <=? p) && (p <=? r * 2) then p else r.

(** The float that CPython's [float_pow] computes for [x ** 2]: a NaN,
    an infinity, a zero and [+-1.0] are answered without libm (by [nan],
    [inf], [0.0] and [1.0], which is [x * x]); any other base goes to
    libm as its absolute value, the exponent being even. *)
Definition float_pow2 (pow_error : float -> comparison) (x : float) : float :=
  if is_nan x || is_infinity x || is_zero x || (abs x =? 1) then x * x
  else libm_pow2 pow_error (abs x).

(** [x ** 2] for a float [x]: [float_pow] raises [OverflowError] when the
    result of a finite base is infinite; an underflow to zero is not an
    error. *)
Definition overflows (pow_error : float -> comparison) (x : float) : bool :=
  is_finite x && is_infinity (float_pow2 pow_error x).

Definition pow2 (pow_error : float -> comparison) (x : float) : result float :=
  if overflows pow_error x then Raise OverflowError else Ok (float_pow2 pow_error x).

(** [math.sqrt]: "math domain error" on a negative argument. *)
Definition math_sqrt (x : float) : result float :=
  if x <? 0 then Raise ValueError else Ok (sqrt x).

(** [x / y]: "float division by zero" when [y == 0.0] (both zeros). *)
Definition truediv (x y : float) : result float :=
  if y =? 0 then Raise ZeroDivisionError else Ok (x / y).

(** [math.pi] *)
Definition math_pi : float := 0x1.921fb54442d18p+1.
End PyFloat.

(** A JSON number that the script writes either as an [int] literal or as
    a [float]. *)
Inductive pynum : Set :=
| PyInt (z : Z)
| PyFlt (f : float).

(** ** Python strings *)

Module PyStr.
Local Open Scope string_scope.

(** [str(n)] for a non-negative [int]. *)
Definition str (n : nat) : string := NilEmpty.string_of_uint (Nat.to_uint n).

Definition digits (s : string) : result nat :=
  match NilZero.uint_of_string s with
  | Some d => Ok (Nat.of_uint d)
  | None => Raise ValueError
  end.

(** [c.isspace()] for a code point below 256: the characters that
    [int] skips at both ends of its argument. *)
Definition isspace (c : ascii) : bool :=
  let n := nat_of_ascii c in
  (((9 <=? n) && (n <=? 13)) || ((28 <=? n) && (n <=? 32)) || (n =? 133) || (n =? 160))%nat.

(** The decimal digits: below 256 these are ["0"] to ["9"] only. *)
Definition isdecimal (c : ascii) : bool :=
  let n := nat_of_ascii c in ((48 <=? n) && (n <=? 57))%nat.

Fixpoint lstrip (s : string) : string :=
  match s with
  | EmptyString => EmptyString
  | String c r => if isspace c then lstrip r else s
  end.

Fixpoint rstrip (s : string) : string :=
  match s with
  | EmptyString => EmptyString
  | String c r =>
      match rstrip r with
      | EmptyString => if isspace c then EmptyString else String c EmptyString
      | r' => String c r'
      end
  end.

(** The digits of an integer literal, in which single underscores may
    stand between digits: the digits without the underscores, or [None]
    when the string is no such literal. *)
Fixpoint plain_digits (after_digit : bool) (s : string) : option string :=
  match s with
  | EmptyString => if after_digit then Some EmptyString else None
  | String c r =>
      if Ascii.eqb c "_" then (if after_digit then plain_digits false r else None)
      else if isdecimal c then option_map (String c) (plain_digits true r)
      else None
  end.

(** An optional sign before the digits: whether it is a minus, and the
    rest. *)
Definition sign_split (literal : string) : bool * string :=
  match literal with
  | String "-" r => (true, r)
  | String "+" r => (false, r)
  | _ => (false, literal)
  end.

(** [int(s)]: white space around the literal is skipped, a sign may
    lead, and the digits may be grouped by underscores; anything else is
    a [ValueError]. *)
Definition int (s : string) : result Z :=
  let '(negative, body) := sign_split (rstrip (lstrip s)) in
  match plain_digits false body with
  | Some d => n <- digits d ;; Ok (if negative then (- Z.of_nat n)%Z else Z.of_nat n)
  | None => Raise ValueError
  end.

(** [s.split(c)] for a one-character separator: never the empty list. *)
Fixpoint split (c : ascii) (s : string) : list string :=
  match s with
  | EmptyString => [EmptyString]
  | String a r =>
      if Ascii.eqb a c then EmptyString :: split c r
      else match split c r with
           | w :: ws => String a w :: ws
           | [] => [String a EmptyString]
           end
  end.

(** [sep.join(l)] *)
Fixpoint join (sep : string) (l : list string) : string :=
  match l with
  | [] => EmptyString
  | [w] => w
  | w :: r => w ++ sep ++ join sep r
  end.
End PyStr.

(** ** Python sequences *)

Module PySeq.
(** [l[i]] with Python's negative indices. *)
Definition getitem {A : Type} (l : list A) (i : Z) : result A :=
  let n := Z.of_nat (List.length l) in
  let j := if (i <? 0)%Z then (n + i)%Z else i in
  if (j <? 0)%Z then Raise IndexError
  else match nth_error l (Z.to_nat j) with
       | Some a => Ok a
       | None => Raise IndexError
       end.

(** [enumerate(l, start)] *)
Definition enumerate {A : Type} (start : nat) (l : list A) : list (nat * A) :=
  combine (seq start (List.length l)) l.
End PySeq.

(** ** Python dictionaries *)

Module Dict.
Section WithKey.
Variables (K V : Type) (eqb : K -> K -> bool).

Definition t := list (K * V).

Definition empty : t := [].

Fixpoint get (k : K) (d : t) : option V :=
  match d with
  | [] => None
  | (k', v) :: r => if eqb k k' then Some v else get k r
  end.

(** [d[k] = v]: an existing key keeps its position, a new key goes
    last. *)
Fixpoint set (k : K) (v : V) (d : t) : t :=
  match d with
  | [] => [(k, v)]
  | (k', v') :: r => if eqb k k' then (k', v) :: r else (k', v') :: set k v r
  end.

Definition len (d : t) : nat := List.length d.

Definition keys (d : t) : list K := map fst d.

Definition values (d : t) : list V := map snd d.

(** The invariant of a dictionary: no key occurs twice. *)
Fixpoint mem (k : K) (l : list K) : bool :=
  match l with
  | [] => false
  | k' :: r => eqb k k' || mem k r
  end.

Fixpoint unique (l : list K) : bool :=
  match l with
  | [] => true
  | k :: r => negb (mem k r) && unique r
  end.

Definition wf (d : t) : bool := unique (keys d).

(** [d[k]] *)
Definition getitem (k : K) (d : t) : result V :=
  match get k d with
  | Some v => Ok v
  | None => Raise KeyError
  end.
End WithKey.
End Dict.

(** ** The host's mesh data ([bpy.types]) *)

Module Vector.
(** [mathutils.Vector] of three components; also used for the Python
    lists of three floats that the script builds by comprehension over
    [range(3)]. *)
Record t : Set := make { x : float; y : float; z : float }.

(** [v[i]] for [i] in [range(3)] *)
Definition getitem (v : t) (i : nat) : float :=
  match i with
  | 0 => x v
  | 1 => y v
  | _ => z v
  end.

(** [[f(i) for i in range(3)]] *)
Definition init (f : nat -> float) : t := make (f 0) (f 1) (f 2).

Definition initM (f : nat -> result float) : result t :=
  a <- f 0 ;; b <- f 1 ;; c <- f 2 ;; Ok (make a b c).
End Vector.

Notation "v .[ i ]" := (Vector.getitem v i) (at level 1, left associativity, format "v .[ i ]").

Module MeshVertex.
Record t : Set := make { index : nat; co : Vector.t }.
End MeshVertex.

Module MeshEdge.
(** [edge.vertices] is a pair of vertex indices. *)
Record t : Set := make { vertices : nat * nat }.
End MeshEdge.

Module MeshPolygon.
Record t : Set := make { vertices : list nat }.
End MeshPolygon.

Module Mesh.
Record t : Set := make {
  vertices : list MeshVertex.t;
  edges : list MeshEdge.t;
  polygons : list MeshPolygon.t
}.
End Mesh.

(** [obj.data]: mesh data, or the data of another kind of object (camera,
    light, ...), which has none of the mesh attributes. *)
Inductive ID : Set :=
| MeshID (mesh : Mesh.t)
| OtherID.

Module Object.
(** [mode_set_poll]: whether [bpy.ops.object.mode_set.poll()] holds once
    the object is the active one; it does not for an object that is
    hidden or that belongs to a linked library. *)
Record t : Set := make { type : string; data : ID; mode_set_poll : bool }.
End Object.

(** [bpy.context]: the scene's objects and the active object, as a
    position in [objects]. *)
Module Scene.
Record t : Set := make { objects : list Object.t; active : option nat }.
End Scene.

(** ** The records of the output document *)

Module Node.
Record t : Set := make { x : float; y : float; z : float }.
End Node.

Module Support.
Record t : Set := make {
  type : string;
  direction_code : string;
  tx : Z; ty : Z; tz : Z;
  rx : Z; ry : Z; rz : Z;
  node : nat;
  restraint_code : string
}.
End Support.

Module Member.
Record t : Set := make {
  type : string;
  cable_length : option float;
  node_A : nat;
  node_B : nat;
  section_id : Z;
  rotation_angle : Z;
  fixity_A : string;
  fixity_B : string;
  offset_Ax : string; offset_Ay : string; offset_Az : string;
  offset_Bx : string; offset_By : string; offset_Bz : string;
  stiffness_A_Ry : Z; stiffness_A_Rz : Z;
  stiffness_B_Ry : Z; stiffness_B_Rz : Z;
  mirror : string;
  disable_non_linear_effects : string
}.
End Member.

Module PlateSpec.
(** The dictionary handed to [create_plates]; [None] is an absent key. *)
Record t : Set := make {
  nodes : option string;
  thickness : option float;
  material_id : option Z;
  rotZ : option Z;
  type : option string;
  diaphragm : option string;
  offset : option Z;
  state : option string;
  drilling_stiffness_factor : option Z;
  holes : option (list string);
  diaphragm_internal_nodes : option string;
  diaphragm_fixity : option string;
  membrane_thickness : option string;
  bending_thickness : option string;
  shear_thickness : option string;
  isMeshed : option bool
}.
End PlateSpec.

Module Plate.
Record t : Set := make {
  nodes : string;
  thickness : float;
  material_id : Z;
  rotZ : Z;
  type : string;
  diaphragm : string;
  offset : Z;
  state : string;
  drilling_stiffness_factor : Z;
  holes : list string;
  diaphragm_internal_nodes : option string;
  diaphragm_fixity : string;
  membrane_thickness : string;
  bending_thickness : string;
  shear_thickness : string;
  isMeshed : bool
}.
End Plate.

Module AreaLoad.
Record t : Set := make {
  type : string;
  nodes : string;
  members : Z;
  mag : pynum;
  direction : string;
  elevations : Z;
  mags : Z;
  column_direction : string;
  elevation_direction : string;
  loaded_members_axis : string;
  LG : string
}.
End AreaLoad.

Definition NodeDict := Dict.t nat Node.t.
Definition MemberDict := Dict.t nat Member.t.
Definition SupportDict := Dict.t nat Support.t.
Definition PlateDict := Dict.t string Plate.t.
Definition AreaLoadDict := Dict.t string AreaLoad.t.

(** ** The script's functions *)

Local Open Scope string_scope.
Local Open Scope float_scope.
Local Set Warnings "-inexact-float".

(** Lines 134-144 of [calculate_normal]: the cross product of the edge
    vectors [v2 - v1] and [v3 - v1]. *)
Definition cross_product (v1 v2 v3 : Vector.t) : Vector.t :=
  let vector1 := Vector.init (fun i => v2.[i] - v1.[i]) in
  let vector2 := Vector.init (fun i => v3.[i] - v1.[i]) in
  Vector.make
    (vector1.[1] * vector2.[2] - vector1.[2] * vector2.[1])
    (vector1.[2] * vector2.[0] - vector1.[0] * vector2.[2])
    (vector1.[0] * vector2.[1] - vector1.[1] * vector2.[0]).

Section Classifier.
(** The error of libm's [pow] ([PyFloat.libm_pow2]), and [math.atan2],
    which has no counterpart among the primitive float operations. *)
Variable pow_error : float -> comparison.
Variable math_atan2 : float -> float -> float.

(** [calculate_normal(vertices)], lines 121-150. *)
Definition calculate_normal (vertices : list Vector.t) : result Vector.t :=
  match vertices with
  | [v1; v2; v3] =>
      let normal := cross_product v1 v2 v3 in
      (* sum(n**2 for n in normal): from the int 0, added left to right
         (the plain float sum of CPython up to 3.11) *)
      a <- PyFloat.pow2 pow_error normal.[0] ;;
      b <- PyFloat.pow2 pow_error normal.[1] ;;
      c <- PyFloat.pow2 pow_error normal.[2] ;;
      norm_length <- PyFloat.math_sqrt (0 + a + b + c) ;;
      Vector.initM (fun i => PyFloat.truediv normal.[i] norm_length)
  | _ => Raise ValueError (* v1, v2, v3 = vertices *)
  end.

(** Lines 105-106 of [determine_load_direction]. *)
Definition normalized_normal (normal : Vector.t) : result Vector.t :=
  a <- PyFloat.pow2 pow_error normal.[0] ;;
  b <- PyFloat.pow2 pow_error normal.[1] ;;
  c <- PyFloat.pow2 pow_error normal.[2] ;;
  norm_length <- PyFloat.math_sqrt (a + b + c) ;;
  Vector.initM (fun i => PyFloat.truediv normal.[i] norm_length).

(** Line 109: the angle in the XY-plane, in degrees. *)
Definition angle (normalized_normal : Vector.t) : float :=
  math_atan2 normalized_normal.[1] normalized_normal.[0] * (180 / PyFloat.math_pi).

(** [determine_load_direction(normal)], lines 94-119. *)
Definition determine_load_direction (normal : Vector.t) : result string :=
  normalized_normal <- normalized_normal normal ;;
  let angle := angle normalized_normal in
  if (-45 <=? angle) && (angle <? 45) then Ok "X"
  else if (45 <=? angle) && (angle <? 135) then Ok "Z"
  else if (-135 <=? angle) && (angle <? -45) then Ok "Z"
  else Ok "X".

(** Line 60: the coordinates of the vertices a plate refers to. *)
Definition plate_vertices (mesh : Mesh.t) (nodes_indices : list string)
  : result (list Vector.t) :=
  mapM (fun idx =>
          k <- PyStr.int idx ;;
          vertex <- PySeq.getitem (Mesh.vertices mesh) (k - 1)%Z ;;
          Ok (MeshVertex.co vertex))
       nodes_indices.

(** Lines 64-77: the normal of the first three vertices, [False] (here
    [None]) on any exception, and the load it selects. *)
Definition plate_normal (vertices : list Vector.t) : option Vector.t :=
  match calculate_normal (firstn 3 vertices) with
  | Ok normal => Some normal
  | Raise _ => None
  end.

Definition plate_load (normal : option Vector.t) : result (pynum * string) :=
  match normal with
  | None => Ok (PyInt 100, "Z")
  | Some normal =>
      if 0.5 <? abs normal.[2] then Ok (PyFlt 0.15, "Y")
      else
        load_direction <- determine_load_direction normal ;;
        Ok (PyFlt 0.08, load_direction)
  end.

(** The body of the loop of [add_loads_to_plates], lines 57-91. *)
Definition area_load (mesh : Mesh.t) (plate_info : Plate.t) : result AreaLoad.t :=
  let nodes_indices := PyStr.split "," (Plate.nodes plate_info) in
  vertices <- plate_vertices mesh nodes_indices ;;
  load <- plate_load (plate_normal vertices) ;;
  let '(load_magnitude, load_direction) := load in
  Ok {| AreaLoad.type := "one_way";
        AreaLoad.nodes := Plate.nodes plate_info;
        AreaLoad.members := 0;
        AreaLoad.mag := load_magnitude;
        AreaLoad.direction := load_direction;
        AreaLoad.elevations := 0;
        AreaLoad.mags := 0;
        AreaLoad.column_direction := PyStr.join "," (firstn 2 nodes_indices);
        AreaLoad.elevation_direction := "";
        AreaLoad.loaded_members_axis := "all";
        AreaLoad.LG := "LG" |}.

Fixpoint add_loads_loop (mesh : Mesh.t) (items : list (string * Plate.t))
         (area_loads : AreaLoadDict) : result AreaLoadDict :=
  match items with
  | [] => Ok area_loads
  | (plate_id, plate_info) :: rest =>
      load <- area_load mesh plate_info ;;
      add_loads_loop mesh rest (Dict.set String.eqb plate_id load area_loads)
  end.

(** [add_loads_to_plates(plates, mesh)], lines 44-92. *)
Definition add_loads_to_plates (plates : PlateDict) (mesh : Mesh.t)
  : result AreaLoadDict :=
  add_loads_loop mesh plates (Dict.empty string AreaLoad.t).
End Classifier.

Local Close Scope float_scope.
Local Open Scope Z_scope.
Local Open Scope nat_scope.

(** [spec.get(key, default)] *)
Definition get_default {A : Type} (field : option A) (default : A) : A :=
  match field with
  | Some a => a
  | None => default
  end.

(** The dictionary built for one specification, lines 171-188. *)
Definition plate_of_spec (spec : PlateSpec.t) : Plate.t :=
  {| Plate.nodes := get_default (PlateSpec.nodes spec) "";
     Plate.thickness := get_default (PlateSpec.thickness spec) 0.39370078740157477%float;
     Plate.material_id := get_default (PlateSpec.material_id spec) 3%Z;
     Plate.rotZ := get_default (PlateSpec.rotZ spec) 0%Z;
     Plate.type := get_default (PlateSpec.type spec) "auto";
     Plate.diaphragm := get_default (PlateSpec.diaphragm spec) "no";
     Plate.offset := get_default (PlateSpec.offset spec) 0%Z;
     Plate.state := get_default (PlateSpec.state spec) "stress";
     Plate.drilling_stiffness_factor :=
       get_default (PlateSpec.drilling_stiffness_factor spec) 1%Z;
     Plate.holes := get_default (PlateSpec.holes spec) [];
     Plate.diaphragm_internal_nodes := PlateSpec.diaphragm_internal_nodes spec;
     Plate.diaphragm_fixity := get_default (PlateSpec.diaphragm_fixity spec) "auto";
     Plate.membrane_thickness := get_default (PlateSpec.membrane_thickness spec) "";
     Plate.bending_thickness := get_default (PlateSpec.bending_thickness spec) "";
     Plate.shear_thickness := get_default (PlateSpec.shear_thickness spec) "";
     Plate.isMeshed := get_default (PlateSpec.isMeshed spec) false |}.

Fixpoint create_plates_loop (items : list (nat * PlateSpec.t)) (plates : PlateDict)
  : PlateDict :=
  match items with
  | [] => plates
  | (i, spec) :: rest =>
      let plate_id := PyStr.str (i + 1) in
      create_plates_loop rest (Dict.set String.eqb plate_id (plate_of_spec spec) plates)
  end.

(** [create_plates(plate_specs)], lines 164-189. *)
Definition create_plates (plate_specs : list PlateSpec.t) : PlateDict :=
  create_plates_loop (PySeq.enumerate 0 plate_specs) (Dict.empty string Plate.t).

(** The dictionary appended for one polygon, lines 156-161. *)
Definition plate_spec_of_polygon (poly : MeshPolygon.t) : PlateSpec.t :=
  let nodes := map (fun i => PyStr.str (i + 1)) (MeshPolygon.vertices poly) in
  {| PlateSpec.nodes := Some (PyStr.join "," nodes);
     PlateSpec.thickness := Some 0.39370078740157477%float;
     PlateSpec.material_id := Some 3%Z;
     PlateSpec.rotZ := None;
     PlateSpec.type := None;
     PlateSpec.diaphragm := None;
     PlateSpec.offset := None;
     PlateSpec.state := None;
     PlateSpec.drilling_stiffness_factor := None;
     PlateSpec.holes := None;
     PlateSpec.diaphragm_internal_nodes := None;
     PlateSpec.diaphragm_fixity := None;
     PlateSpec.membrane_thickness := None;
     PlateSpec.bending_thickness := None;
     PlateSpec.shear_thickness := None;
     PlateSpec.isMeshed := None |}.

(** [create_plates_from_mesh_data(mesh)], lines 153-162. *)
Definition create_plates_from_mesh_data (mesh : Mesh.t) : PlateDict :=
  let plates_specs := map plate_spec_of_polygon (Mesh.polygons mesh) in
  create_plates plates_specs.

(** The support written for a ground node, lines 216-223. *)
Definition ground_support (node_id : nat) : Support.t :=
  {| Support.type := "node";
     Support.direction_code := "BBBBBB";
     Support.tx := 0%Z; Support.ty := 0%Z; Support.tz := 0%Z;
     Support.rx := 0%Z; Support.ry := 0%Z; Support.rz := 0%Z;
     Support.node := node_id;
     Support.restraint_code := "FFFFFF" |}.

(** The member written for an edge, lines 228-243. *)
Definition edge_member (node_A node_B : nat) : Member.t :=
  {| Member.type := "normal_continuous";
     Member.cable_length := None;
     Member.node_A := node_A;
     Member.node_B := node_B;
     Member.section_id := 1%Z;
     Member.rotation_angle := 0%Z;
     Member.fixity_A := "FFFFFF";
     Member.fixity_B := "FFFFFF";
     Member.offset_Ax := "0"; Member.offset_Ay := "0"; Member.offset_Az := "0";
     Member.offset_Bx := "0"; Member.offset_By := "0"; Member.offset_Bz := "0";
     Member.stiffness_A_Ry := 0%Z; Member.stiffness_A_Rz := 0%Z;
     Member.stiffness_B_Ry := 0%Z; Member.stiffness_B_Rz := 0%Z;
     Member.mirror := "no";
     Member.disable_non_linear_effects := "no" |}.

(** The state that the loops of [extract_mesh_data] update. *)
Record Extracted := {
  nodes : NodeDict;
  members : MemberDict;
  supports : SupportDict
}.

(** The loop over [mesh.vertices], lines 205-223. *)
Fixpoint map_vertices (vertices : list MeshVertex.t) (vertex_map : Dict.t nat nat)
         (nodes : NodeDict) (supports : SupportDict)
  : Dict.t nat nat * NodeDict * SupportDict :=
  match vertices with
  | [] => (vertex_map, nodes, supports)
  | vertex :: rest =>
      let co := MeshVertex.co vertex in
      let node_id := Dict.len nodes + 1 in
      let vertex_map := Dict.set Nat.eqb (MeshVertex.index vertex) node_id vertex_map in
      let nodes :=
        Dict.set Nat.eqb node_id
          {| Node.x := Vector.x co; Node.y := Vector.z co; Node.z := Vector.y co |}
          nodes in
      let supports :=
        if (Vector.z co =? 0)%float
        then Dict.set Nat.eqb node_id (ground_support node_id) supports
        else supports in
      map_vertices rest vertex_map nodes supports
  end.

(** The loop over [mesh.edges], lines 226-243; [vertex_map[...]] raises
    [KeyError] on an index that is not a key. *)
Fixpoint define_members (edges : list MeshEdge.t) (vertex_map : Dict.t nat nat)
         (members : MemberDict) : result MemberDict :=
  match edges with
  | [] => Ok members
  | edge :: rest =>
      let member_id := Dict.len members + 1 in
      node_A <- Dict.getitem Nat.eqb (fst (MeshEdge.vertices edge)) vertex_map ;;
      node_B <- Dict.getitem Nat.eqb (snd (MeshEdge.vertices edge)) vertex_map ;;
      define_members rest vertex_map
        (Dict.set Nat.eqb member_id (edge_member node_A node_B) members)
  end.

(** The loop over the scene's objects, lines 197-243; [i] is the position
    of the head of [objects] in the scene, [active] the active object.
    Line 200 makes the mesh object active, and line 201 calls the
    operator [bpy.ops.object.mode_set], which raises [RuntimeError] when
    its poll rejects the active object. *)
Fixpoint extract_objects (objects : list Object.t) (i : nat) (active : option nat)
         (acc : Extracted) : result (Extracted * option nat) :=
  match objects with
  | [] => Ok (acc, active)
  | obj :: rest =>
      if String.eqb (Object.type obj) "MESH" then
        let active := Some i in
        if Object.mode_set_poll obj then
          match Object.data obj with
          | MeshID mesh =>
              let '(vertex_map, nodes, supports) :=
                map_vertices (Mesh.vertices mesh) (Dict.empty nat nat)
                             (nodes acc) (supports acc) in
              members <- define_members (Mesh.edges mesh) vertex_map (members acc) ;;
              extract_objects rest (i + 1) active
                {| nodes := nodes; members := members; supports := supports |}
          | OtherID => Raise AttributeError
          end
        else Raise RuntimeError
      else extract_objects rest (i + 1) active acc
  end.

(** [extract_mesh_data()], lines 191-245, with the scene it reads and the
    active object it leaves. *)
Definition extract_mesh_data (scene : Scene.t) : result (Extracted * Scene.t) :=
  r <- extract_objects (Scene.objects scene) 0 (Scene.active scene)
         {| nodes := Dict.empty nat Node.t;
            members := Dict.empty nat Member.t;
            supports := Dict.empty nat Support.t |} ;;
  let '(extracted, active) := r in
  Ok (extracted, Scene.make (Scene.objects scene) active).

(** [bpy.context.object.data] read as a mesh. *)
Definition context_mesh (scene : Scene.t) : result Mesh.t :=
  match Scene.active scene with
  | None => Raise AttributeError
  | Some i =>
      match nth_error (Scene.objects scene) i with
      | Some obj =>
          match Object.data obj with
          | MeshID mesh => Ok mesh
          | OtherID => Raise AttributeError
          end
      | None => Raise AttributeError
      end
  end.

(** The entities of [output_data] that are derived from the scene. *)
Record Model := {
  model_nodes : NodeDict;
  model_members : MemberDict;
  model_supports : SupportDict;
  model_plates : PlateDict;
  model_area_loads : AreaLoadDict
}.

(** The module-level script, lines 247-257 and the derived keys of
    [output_data]. *)
Definition script (pow_error : float -> comparison)
           (math_atan2 : float -> float -> float) (scene : Scene.t)
  : result Model :=
  r <- extract_mesh_data scene ;;
  let '(extracted, scene) := r in
  mesh_data <- context_mesh scene ;;
  let plates := create_plates_from_mesh_data mesh_data in
  area_loads <- add_loads_to_plates pow_error math_atan2 plates mesh_data ;;
  Ok {| model_nodes := nodes extracted;
        model_members := members extracted;
        model_supports := supports extracted;
        model_plates := plates;
        model_area_loads := area_loads |}.

(** ** What the host guarantees about a scene

    In Blender a vertex's [index] is its position in [mesh.vertices], an
    edge or a polygon refers to positions of that list, a polygon has at
    least three corners, and an object's [type] is ["MESH"] exactly when
    its data is a mesh. *)

Definition in_range (mesh : Mesh.t) (i : nat) : bool :=
  i <? List.length (Mesh.vertices mesh).

Definition wf_mesh (mesh : Mesh.t) : bool :=
  forallb (fun iv => MeshVertex.index (snd iv) =? fst iv)
          (PySeq.enumerate 0 (Mesh.vertices mesh))
  && forallb (fun edge => in_range mesh (fst (MeshEdge.vertices edge))
                          && in_range mesh (snd (MeshEdge.vertices edge)))
             (Mesh.edges mesh)
  && forallb (fun poly => (3 <=? List.length (MeshPolygon.vertices poly))
                          && forallb (in_range mesh) (MeshPolygon.vertices poly))
             (Mesh.polygons mesh).

Definition wf_object (obj : Object.t) : bool :=
  match Object.data obj with
  | MeshID mesh => String.eqb (Object.type obj) "MESH" && wf_mesh mesh
  | OtherID => negb (String.eqb (Object.type obj) "MESH")
  end.

Definition wf_scene (scene : Scene.t) : bool :=
  forallb wf_object (Scene.objects scene).

Definition is_mesh_object (obj : Object.t) : bool := String.eqb (Object.type obj) "MESH".

(** The operator of line 201 accepts every mesh object of [objects]:
    none of them is hidden or linked.  This is a condition on the scene
    at hand, not something the host guarantees. *)
Definition mode_set_accepts (objects : list Object.t) : bool :=
  forallb (fun obj => negb (is_mesh_object obj) || Object.mode_set_poll obj) objects.

(** Blender keeps a coordinate as a single-precision float and hands it
    to Python widened to binary64: a NaN, an infinity, a zero, or a
    number [m * 2^e] with an odd [m] below [2^24], [e >= -149] and
    [m * 2^e < 2^128]. *)
Fixpoint odd_part (m : positive) (e : Z) : positive * Z :=
  match m with
  | xO m' => odd_part m' (e + 1)
  | _ => (m, e)
  end.

Definition is_single (x : float) : bool :=
  match Prim2SF x with
  | S754_finite _ m e =>
      let '(m', e') := odd_part m e in
      ((Z.pos (Pos.size m') <=? 24) && (-149 <=? e')
       && (e' + Z.pos (Pos.size m') <=? 128))%Z
  | _ => true
  end.

Definition single_vector (v : Vector.t) : bool :=
  is_single (Vector.x v) && is_single (Vector.y v) && is_single (Vector.z v).

Definition single_precision_mesh (mesh : Mesh.t) : bool :=
  forallb (fun vertex => single_vector (MeshVertex.co vertex)) (Mesh.vertices mesh).

(** ** The output, as the specification describes it *)

(** The vertices, and the number of edges, of the mesh objects of a list
    of objects, in scene order. *)
Definition object_vertices (obj : Object.t) : list MeshVertex.t :=
  match Object.data obj with
  | MeshID mesh => Mesh.vertices mesh
  | OtherID => []
  end.

Definition object_edges (obj : Object.t) : list MeshEdge.t :=
  match Object.data obj with
  | MeshID mesh => Mesh.edges mesh
  | OtherID => []
  end.

Definition scene_vertices (objects : list Object.t) : list MeshVertex.t :=
  flat_map object_vertices objects.

Definition scene_edges (objects : list Object.t) : list MeshEdge.t :=
  flat_map object_edges objects.

(** Remap of section 4.3: output x, y, z are source x, z, y. *)
Definition node_of_vertex (vertex : MeshVertex.t) : Node.t :=
  let co := MeshVertex.co vertex in
  {| Node.x := Vector.x co; Node.y := Vector.z co; Node.z := Vector.y co |}.

(** [isGroundSupport] of section 4.2. *)
Definition isGroundSupport (vertex : MeshVertex.t) : bool :=
  (Vector.z (MeshVertex.co vertex) =? 0)%float.

(** The supports of the vertices [vertices] when the first of them gets
    the node id [start]. *)
Fixpoint ground_supports (start : nat) (vertices : list MeshVertex.t) : SupportDict :=
  match vertices with
  | [] => []
  | vertex :: rest =>
      ((if isGroundSupport vertex then [(start, ground_support start)] else [])
         ++ ground_supports (S start) rest)%list
  end.

(** The members of the edges of [objects] when [offset] nodes precede the
    first object's vertices. *)
Fixpoint scene_members (offset : nat) (objects : list Object.t) : list Member.t :=
  match objects with
  | [] => []
  | obj :: rest =>
      (map (fun edge => edge_member (offset + fst (MeshEdge.vertices edge) + 1)
                                    (offset + snd (MeshEdge.vertices edge) + 1))
           (object_edges obj)
         ++ scene_members (offset + List.length (object_vertices obj)) rest)%list
  end.

(** The plate of a polygon: every attribute but [nodes] is a default. *)
Definition default_plate (nodes : string) : Plate.t :=
  {| Plate.nodes := nodes;
     Plate.thickness := 0.39370078740157477%float;
     Plate.material_id := 3%Z;
     Plate.rotZ := 0%Z;
     Plate.type := "auto";
     Plate.diaphragm := "no";
     Plate.offset := 0%Z;
     Plate.state := "stress";
     Plate.drilling_stiffness_factor := 1%Z;
     Plate.holes := [];
     Plate.diaphragm_internal_nodes := None;
     Plate.diaphragm_fixity := "auto";
     Plate.membrane_thickness := "";
     Plate.bending_thickness := "";
     Plate.shear_thickness := "";
     Plate.isMeshed := false |}.

(** Node references of section 4.3: the vertex indices, 1-based. *)
Definition node_references (indices : list nat) : string :=
  PyStr.join "," (map (fun i => PyStr.str (i + 1)) indices).

(** [resolveWallDirection] of section 4.2, from the angle in degrees. *)
Definition resolveWallDirection (angle : float) : string :=
  if ((-45 <=? angle) && (angle <? 45))%float then "X"
  else if ((45 <=? angle) && (angle <? 135))%float then "Z"
  else if ((-135 <=? angle) && (angle <? -45))%float then "Z"
  else "X".

(** A triangle is degenerate for the code when the cross product it
    computes is the zero vector (of either sign in each component). *)
Definition zero_vector (v : Vector.t) : bool :=
  ((v.[0] =? 0) && (v.[1] =? 0) && (v.[2] =? 0))%float.

(** The rational number that a finite float stands for. *)
Definition exact (x : float) : Q :=
  match Prim2SF x with
  | S754_finite s m e => ((if s then -1 else 1) * inject_Z (Z.pos m) * 2 ^ e)%Q
  | _ => 0%Q
  end.

(** The cross product of the edges [v2 - v1] and [v3 - v1] of a triangle
    with finite coordinates, without rounding. *)
Definition exact_cross (v1 v2 v3 : Vector.t) : Q * Q * Q :=
  let x1 := (exact (Vector.x v2) - exact (Vector.x v1))%Q in
  let y1 := (exact (Vector.y v2) - exact (Vector.y v1))%Q in
  let z1 := (exact (Vector.z v2) - exact (Vector.z v1))%Q in
  let x2 := (exact (Vector.x v3) - exact (Vector.x v1))%Q in
  let y2 := (exact (Vector.y v3) - exact (Vector.y v1))%Q in
  let z2 := (exact (Vector.z v3) - exact (Vector.z v1))%Q in
  (y1 * z2 - z1 * y2, z1 * x2 - x1 * z2, x1 * y2 - y1 * x2)%Q.

(** Three points are collinear, and the triangle has no area, when that
    cross product is zero. *)
Definition collinear (v1 v2 v3 : Vector.t) : bool :=
  let '(x, y, z) := exact_cross v1 v2 v3 in
  Qeq_bool x 0 && Qeq_bool y 0 && Qeq_bool z 0.

(** Lines 134-148 of [calculate_normal] as a formula over any
    arithmetic: the edge vectors, their cross product, and its quotient
    by its length. *)
Section NormalFormula.
Variable A : Type.
Variables (add sub mul div : A -> A -> A) (sqrt square : A -> A) (zero : A).

Definition edge_formula (v1 v2 : A * A * A) : A * A * A :=
  let '(x1, y1, z1) := v1 in
  let '(x2, y2, z2) := v2 in
  (sub x2 x1, sub y2 y1, sub z2 z1).

Definition cross_formula (vector1 vector2 : A * A * A) : A * A * A :=
  let '(x1, y1, z1) := vector1 in
  let '(x2, y2, z2) := vector2 in
  (sub (mul y1 z2) (mul z1 y2), sub (mul z1 x2) (mul x1 z2), sub (mul x1 y2) (mul y1 x2)).

Definition dot_formula (u v : A * A * A) : A :=
  let '(x1, y1, z1) := u in
  let '(x2, y2, z2) := v in
  add (add (mul x1 x2) (mul y1 y2)) (mul z1 z2).

Definition length_formula (v : A * A * A) : A :=
  let '(x, y, z) := v in
  sqrt (add (add (add zero (square x)) (square y)) (square z)).

Definition normal_formula (v1 v2 v3 : A * A * A) : A * A * A :=
  let normal := cross_formula (edge_formula v1 v2) (edge_formula v1 v3) in
  let norm_length := length_formula normal in
  let '(x, y, z) := normal in
  (div x norm_length, div y norm_length, div z norm_length).
End NormalFormula.

(** The formula in binary64 with the power of the platform, and in the
    real numbers. *)
Definition float_normal (pow_error : float -> comparison)
  : float * float * float -> float * float * float -> float * float * float
    -> float * float * float :=
  normal_formula PrimFloat.add PrimFloat.sub PrimFloat.mul PrimFloat.div
                 PrimFloat.sqrt (PyFloat.float_pow2 pow_error) 0%float.

Definition real_edge : R * R * R -> R * R * R -> R * R * R := edge_formula Rminus.

Definition real_cross : R * R * R -> R * R * R -> R * R * R :=
  cross_formula Rminus Rmult.

Definition real_dot : R * R * R -> R * R * R -> R := dot_formula Rplus Rmult.

Definition real_normal : R * R * R -> R * R * R -> R * R * R -> R * R * R :=
  normal_formula Rplus Rminus Rmult Rdiv R_sqrt.sqrt (fun x => (x * x)%R) 0%R.

Definition coordinates (v : Vector.t) : float * float * float :=
  (Vector.x v, Vector.y v, Vector.z v).

(** ** Example scenes *)

Definition vertex (i : nat) (x y z : float) : MeshVertex.t :=
  MeshVertex.make i (Vector.make x y z).

(** The end-to-end scenario of section 8. *)
Definition triangle_mesh : Mesh.t :=
  Mesh.make [vertex 0 0 0 0; vertex 1 1 0 0; vertex 2 0 1 0]
            [MeshEdge.make (0, 1)]
            [MeshPolygon.make [0; 1; 2]].

Definition triangle_scene (active : option nat) : Scene.t :=
  Scene.make [Object.make "MESH" (MeshID triangle_mesh) true] active.

(** A unit square in the ground plane, as one quadrilateral. *)
Definition quad_mesh : Mesh.t :=
  Mesh.make [vertex 0 0 0 0; vertex 1 1 0 0; vertex 2 1 1 0; vertex 3 0 1 0]
            [MeshEdge.make (0, 1); MeshEdge.make (1, 2);
             MeshEdge.make (2, 3); MeshEdge.make (3, 0)]
            [MeshPolygon.make [0; 1; 2; 3]].

(** A wall in the XZ-plane, a sliver whose three corners lie on one line,
    and a roof. *)
Definition house_mesh : Mesh.t :=
  Mesh.make [vertex 0 0 0 0; vertex 1 1 0 0; vertex 2 0 0 1;
             vertex 3 1 0 1; vertex 4 0 1 1; vertex 5 2 0 0]
            [MeshEdge.make (0, 1); MeshEdge.make (0, 2); MeshEdge.make (2, 4)]
            [MeshPolygon.make [0; 1; 2]; MeshPolygon.make [0; 1; 5];
             MeshPolygon.make [2; 3; 4]].

Definition wall_plate : Plate.t := default_plate "1,2,3".
Definition sliver_plate : Plate.t := default_plate "1,2,6".
Definition roof_plate : Plate.t := default_plate "3,4,5".

(** Three points of the line [y = 3 x] in the ground plane: the edge
    vectors from the first point are rounded, and are not parallel any
    more. *)
Definition line_mesh : Mesh.t :=
  Mesh.make [vertex 0 3 9 0; vertex 1 0x1p54 0x1.8p55 0; vertex 2 0x1p60 0x1.8p61 0]
            []
            [MeshPolygon.make [0; 1; 2]].

(** A long thin triangle of area [2^59]: its edge vectors round to
    parallel ones. *)
Definition thin_mesh : Mesh.t :=
  Mesh.make [vertex 0 1 0 0; vertex 1 0x1p60 0x1p60 0; vertex 2 0x1p61 0x1p61 0]
            []
            [MeshPolygon.make [0; 1; 2]].

Definition camera : Object.t := Object.make "CAMERA" OtherID true.

Definition two_mesh_scene : Scene.t :=
  Scene.make [Object.make "MESH" (MeshID triangle_mesh) true; camera;
              Object.make "MESH" (MeshID house_mesh) true] None.

(** The scenario's mesh as a hidden object. *)
Definition hidden_scene : Scene.t :=
  Scene.make [camera; Object.make "MESH" (MeshID triangle_mesh) false] None.

(** A libm whose [pow] is correctly rounded. *)
Definition correctly_rounded (x : float) : comparison := Eq.

(** [math.atan2] on the four axis directions, enough to run the examples. *)
Definition axis_atan2 (y x : float) : float :=
  if (y =? 0)%float then (if (x <? 0)%float then PyFloat.math_pi else 0%float)
  else if (x =? 0)%float
       then (if (y <? 0)%float then (- (PyFloat.math_pi / 2))%float
             else (PyFloat.math_pi / 2)%float)
       else nan.

(** The items of [area_loads] for the items [items] of [plates], each
    from its own plate alone. *)
Definition area_load_items (pow_error : float -> comparison)
           (math_atan2 : float -> float -> float) (mesh : Mesh.t)
           (items : list (string * Plate.t)) : result (list (string * AreaLoad.t)) :=
  mapM (fun item =>
          load <- area_load pow_error math_atan2 mesh (snd item) ;; Ok (fst item, load))
       items.

(** The record of a plate that fell back. *)
Definition fallback_load (plate_info : Plate.t) : AreaLoad.t :=
  {| AreaLoad.type := "one_way";
     AreaLoad.nodes := Plate.nodes plate_info;
     AreaLoad.members := 0%Z;
     AreaLoad.mag := PyInt 100;
     AreaLoad.direction := "Z";
     AreaLoad.elevations := 0%Z;
     AreaLoad.mags := 0%Z;
     AreaLoad.column_direction :=
       PyStr.join "," (firstn 2 (PyStr.split "," (Plate.nodes plate_info)));
     AreaLoad.elevation_direction := "";
     AreaLoad.loaded_members_axis := "all";
     AreaLoad.LG := "LG" |}.

(** ** The rest of the script *)

Module Material.
Record t : Set := make {
  name : string;
  elasticity_modulus : pynum;
  density : pynum;
  ultimate_strength : pynum;
  yield_strength : pynum;
  thermal_expansion_coefficient : pynum;
  poissons_ratio : pynum
}.
End Material.

(** [define_materials(update=False)], lines 6-41; the branch on [update]
    is [pass]. *)
Definition define_materials (update : bool) : Dict.t string Material.t :=
  let materials :=
    [("1", {| Material.name := "Structural Steel";
              Material.elasticity_modulus := PyInt 29000;
              Material.density := PyInt 490;
              Material.ultimate_strength := PyInt 58;
              Material.yield_strength := PyInt 36;
              Material.thermal_expansion_coefficient := PyFlt 6.5;
              Material.poissons_ratio := PyFlt 0.3 |});
     ("2", {| Material.name := "Concrete";
              Material.elasticity_modulus := PyInt 4000;
              Material.density := PyInt 150;
              Material.ultimate_strength := PyInt 5;
              Material.yield_strength := PyInt 3;
              Material.thermal_expansion_coefficient := PyFlt 5.5;
              Material.poissons_ratio := PyFlt 0.2 |});
     ("3", {| Material.name := "Wood";
              Material.elasticity_modulus := PyInt 1;
              Material.density := PyInt 16;
              Material.ultimate_strength := PyInt 4;
              Material.yield_strength := PyInt 2;
              Material.thermal_expansion_coefficient := PyInt 1;
              Material.poissons_ratio := PyFlt 0.33 |})] in
  if update then materials else materials.

(** ** Notions used to state the further properties *)

(** [f] applied to the value a computation returns. *)
Definition fmap {A B : Type} (f : A -> B) (c : result A) : result B :=
  match c with
  | Ok a => Ok (f a)
  | Raise e => Raise e
  end.

(** A string of decimal digits. *)
Fixpoint all_decimal (s : string) : bool :=
  match s with
  | EmptyString => true
  | String c r => PyStr.isdecimal c && all_decimal r
  end.

(** [c in s] *)
Fixpoint has_char (c : ascii) (s : string) : bool :=
  match s with
  | EmptyString => false
  | String a r => Ascii.eqb a c || has_char c r
  end.

(** The coordinates of the corners of a polygon, in the polygon's order. *)
Definition polygon_corners (mesh : Mesh.t) (poly : MeshPolygon.t) : list Vector.t :=
  flat_map (fun i => match nth_error (Mesh.vertices mesh) i with
                     | Some v => [MeshVertex.co v]
                     | None => []
                     end)
           (MeshPolygon.vertices poly).

(** The record of lines 79-91 for a plate with the node list [nodes], of
    which [column] are the first two, and the load [load]. *)
Definition area_load_record (nodes column : string) (load : pynum * string) : AreaLoad.t :=
  {| AreaLoad.type := "one_way";
     AreaLoad.nodes := nodes;
     AreaLoad.members := 0%Z;
     AreaLoad.mag := fst load;
     AreaLoad.direction := snd load;
     AreaLoad.elevations := 0%Z;
     AreaLoad.mags := 0%Z;
     AreaLoad.column_direction := column;
     AreaLoad.elevation_direction := "";
     AreaLoad.loaded_members_axis := "all";
     AreaLoad.LG := "LG" |}.

(** The four loads that the classifier can assign. *)
Definition classifier_loads : list (pynum * string) :=
  [(PyInt 100, "Z"); (PyFlt 0.15%float, "Y"); (PyFlt 0.08%float, "X"); (PyFlt 0.08%float, "Z")].

(** A float that is not negative: a zero, a positive number, [+inf] or
    [nan]. *)
Definition SFnonneg (f : spec_float) : Prop :=
  match f with
  | S754_infinity s | S754_finite s _ _ => s = false
  | S754_zero _ | S754_nan => True
  end.

(** ** Magnitudes of binary64 numbers

    What the analysis of the two normalizations keeps of a float is its
    binade.  A normal number has a mantissa [m] of 53 digits and an
    exponent [e], and lies in [[2^(52+e), 2^(53+e))]; [53 + e] is its
    magnitude. *)

Section Shapes.
Local Open Scope Z_scope.

(** A normal number of a magnitude between [lo] and [hi]. *)
Definition Normal (lo hi : Z) (x : spec_float) : Prop :=
  match x with
  | S754_finite _ m e => Z.pos (digits2_pos m) = 53 /\ lo <= 53 + e <= hi
  | _ => False
  end.

(** A zero, or such a normal number. *)
Definition ZN (lo hi : Z) (x : spec_float) : Prop :=
  match x with
  | S754_zero _ => True
  | S754_finite _ m e => Z.pos (digits2_pos m) = 53 /\ lo <= 53 + e <= hi
  | _ => False
  end.

(** A zero, such a normal number, an infinity or a nan. *)
Definition ZNF (lo hi : Z) (x : spec_float) : Prop :=
  match x with
  | S754_finite _ m e => Z.pos (digits2_pos m) = 53 /\ lo <= 53 + e <= hi
  | _ => True
  end.

(** A positive normal number of a magnitude between [lo] and [hi]. *)
Definition PosNormal (lo hi : Z) (x : spec_float) : Prop :=
  match x with
  | S754_finite false m e => Z.pos (digits2_pos m) = 53 /\ lo <= 53 + e <= hi
  | _ => False
  end.

(** A zero, or such a positive normal number. *)
Definition ZPN (lo hi : Z) (x : spec_float) : Prop :=
  match x with
  | S754_zero _ => True
  | S754_finite false m e => Z.pos (digits2_pos m) = 53 /\ lo <= 53 + e <= hi
  | _ => False
  end.

(** A positive normal number of a magnitude of at least [lo], [+inf] or
    a nan. *)
Definition PosShape (lo : Z) (x : spec_float) : Prop :=
  match x with
  | S754_nan | S754_infinity false => True
  | S754_finite false m e => Z.pos (digits2_pos m) = 53 /\ lo <= 53 + e
  | _ => False
  end.

(** A zero, or a finite number, normal or not, below [2^hi]. *)
Definition Bounded (hi : Z) (x : spec_float) : Prop :=
  match x with
  | S754_zero _ => True
  | S754_finite _ m e => Z.pos (digits2_pos m) <= 53 /\ 53 + e <= hi
  | _ => False
  end.

(** A zero, or a positive finite number, normal or not, below [2^hi]. *)
Definition Small (hi : Z) (x : spec_float) : Prop :=
  match x with
  | S754_zero _ => True
  | S754_finite false m e => Z.pos (digits2_pos m) <= 53 /\ 53 + e <= hi
  | _ => False
  end.

(** An infinity or a nan. *)
Definition NF (x : spec_float) : Prop :=
  match x with
  | S754_nan | S754_infinity _ => True
  | _ => False
  end.

(** A zero or a nan. *)
Definition ZNan (x : spec_float) : Prop :=
  match x with
  | S754_zero _ | S754_nan => True
  | _ => False
  end.

(** The magnitude of a finite number. *)
Definition emag (x : spec_float) : Z :=
  match x with
  | S754_finite _ _ e => 53 + e
  | _ => 0
  end.

(** The magnitude of [a], when it is finite, is at most [k]; and at
    least [k - 4]. *)
Definition below (a : spec_float) (k : Z) : Prop :=
  match a with
  | S754_finite _ _ e => 53 + e <= k
  | _ => True
  end.

Definition near (a : spec_float) (k : Z) : Prop :=
  match a with
  | S754_finite _ _ e => k <= 53 + e + 4
  | _ => False
  end.

(** A component [C] of a cross product of single-precision edges and
    what [float_pow] returns for its square, [A]: both zero, or [C]
    normal and [A] within a factor of [2^4] of the square. *)
Definition square_link (C A : spec_float) : Prop :=
  match C, A with
  | S754_zero _, S754_zero _ => True
  | S754_finite _ m e, S754_finite false m' e' =>
      Z.pos (digits2_pos m) = 53 /\ Z.pos (digits2_pos m') = 53
      /\ -456 <= 53 + e <= 263
      /\ 2 * (53 + e) - 2 <= 53 + e' <= 2 * (53 + e) + 4
  | _, _ => False
  end.
End Shapes.

(** The active object after the loop over [objects], of which the first
    has position [i]: the last mesh object, or the one active before. *)
Fixpoint last_active (objects : list Object.t) (i : nat) (active : option nat)
  : option nat :=
  match objects with
  | [] => active
  | obj :: rest => last_active rest (i + 1) (if is_mesh_object obj then Some i else active)
  end.

(** One mesh with an edge that refers to a vertex it does not have. *)
Definition dangling_mesh : Mesh.t :=
  Mesh.make [vertex 0 0 0 0; vertex 1 1 0 0] [MeshEdge.make (0, 1); MeshEdge.make (1, 2)] [].

(** The triangle of the scenario with a fourth reference that no vertex
    answers. *)
Definition overlong_plate : Plate.t := default_plate "1,2,3,4".

(** * Properties *)

Local Open Scope list_scope.

(** ** The Python primitives on small inputs *)

Example str_10 : PyStr.str 10 = "10".
Proof. reflexivity. Qed.

Example int_007 : PyStr.int "007" = Ok 7%Z.
Proof. reflexivity. Qed.

Example int_empty : PyStr.int "" = Raise ValueError.
Proof. reflexivity. Qed.

Example int_forms :
  PyStr.int " 2" = Ok 2%Z
  /\ PyStr.int "-12 " = Ok (-12)%Z
  /\ PyStr.int "+1_000" = Ok 1000%Z
  /\ PyStr.int "1__0" = Raise ValueError
  /\ PyStr.int "_1" = Raise ValueError
  /\ PyStr.int "1_" = Raise ValueError
  /\ PyStr.int "+ 1" = Raise ValueError
  /\ PyStr.int "1 2" = Raise ValueError
  /\ PyStr.int "2.0" = Raise ValueError.
Proof. repeat split. Qed.

Example split_commas : PyStr.split "," "1,2,,3" = ["1"; "2"; ""; "3"].
Proof. reflexivity. Qed.

Example split_empty : PyStr.split "," "" = [""].
Proof. reflexivity. Qed.

Example join_commas : PyStr.join "," ["1"; "2"; "3"] = "1,2,3".
Proof. reflexivity. Qed.

Example getitem_last : PySeq.getitem [10; 20; 30] (-1) = Ok 30.
Proof. reflexivity. Qed.

Example getitem_out_of_range : PySeq.getitem [10; 20; 30] 3 = Raise IndexError.
Proof. reflexivity. Qed.

Example pow2_overflow : PyFloat.pow2 correctly_rounded 1e200 = Raise OverflowError.
Proof. reflexivity. Qed.

Example pow2_underflow : PyFloat.pow2 correctly_rounded 1e-200 = Ok 0%float.
Proof. reflexivity. Qed.

(** The square of 3 from a libm that errs upwards there, and the bases
    that never reach libm. *)
Example pow2_neighbour :
  PyFloat.pow2 (fun _ => Gt) 3 = Ok 0x1.2000000000001p+3%float
  /\ PyFloat.pow2 (fun _ => Lt) 3 = Ok 0x1.1ffffffffffffp+3%float
  /\ forall pow_error : float -> comparison,
      PyFloat.pow2 pow_error 0 = Ok 0%float
      /\ PyFloat.pow2 pow_error (-0) = Ok 0%float
      /\ PyFloat.pow2 pow_error (-1) = Ok 1%float
      /\ PyFloat.pow2 pow_error infinity = Ok infinity.
Proof.
  split; [reflexivity | ]. split; [reflexivity | ]. intros pow_error.
  repeat split.
Qed.

Example truediv_neg_zero : PyFloat.truediv 1 (-0) = Raise ZeroDivisionError.
Proof. reflexivity. Qed.

Example dict_set_existing :
  Dict.set Nat.eqb 1 "c" [(1, "a"); (2, "b")] = [(1, "c"); (2, "b")].
Proof. reflexivity. Qed.

Example dict_set_new :
  Dict.set Nat.eqb 3 "c" [(1, "a"); (2, "b")] = [(1, "a"); (2, "b"); (3, "c")].
Proof. reflexivity. Qed.

Example example_scenes_wf :
  wf_scene (triangle_scene None) = true
  /\ wf_scene two_mesh_scene = true
  /\ wf_scene hidden_scene = true
  /\ mode_set_accepts (Scene.objects two_mesh_scene) = true
  /\ mode_set_accepts (Scene.objects hidden_scene) = false
  /\ forallb wf_mesh [triangle_mesh; quad_mesh; house_mesh; line_mesh; thin_mesh] = true
  /\ forallb single_precision_mesh
             [triangle_mesh; quad_mesh; house_mesh; line_mesh; thin_mesh] = true.
Proof. repeat split. Qed.

Example is_single_examples :
  is_single 0x1.fffffep+127 = true
  /\ is_single 0x1p-149 = true
  /\ is_single 0x1p128 = false
  /\ is_single 0x1p-150 = false
  /\ is_single 0x1.ffffffp+0 = false
  /\ is_single 0.1 = false
  /\ is_single 1.1e77 = false.
Proof. repeat split. Qed.

(** ** Floats *)

Section FloatFacts.
Local Open Scope float_scope.

Lemma SFcompare_zero_Eq (f : spec_float) (s : bool) :
  SFcompare f (S754_zero s) = Some Eq -> exists s', f = S754_zero s'.
Proof.
  destruct f as [s' | s' | | s' m e]; simpl; try discriminate.
  - intros _. now exists s'.
  - destruct s'; discriminate.
  - destruct s'; discriminate.
Qed.

(** [x == 0] holds for the two zeros only. *)
Lemma eqb_zero_inv (x : float) : (x =? 0) = true -> x = 0 \/ x = -0.
Proof.
  rewrite eqb_spec. unfold SFeqb.
  destruct (SFcompare (Prim2SF x) (Prim2SF 0)) as [[ | | ] | ] eqn:E; try discriminate.
  intros _. change (Prim2SF 0) with (S754_zero false) in E.
  apply SFcompare_zero_Eq in E. destruct E as [[ | ] E].
  - right. apply Prim2SF_inj. rewrite E. reflexivity.
  - left. apply Prim2SF_inj. rewrite E. reflexivity.
Qed.

Lemma SFcompare_Lt_swap (f g : spec_float) :
  SFcompare f g = Some Lt -> SFcompare g f = Some Gt.
Proof.
  destruct f as [s | s | | s m e], g as [s' | s' | | s' m' e']; simpl;
    try discriminate;
    try (destruct s; discriminate || reflexivity);
    try (destruct s'; discriminate || reflexivity);
    try (destruct s, s'; discriminate || reflexivity).
  destruct s, s'; try discriminate; try reflexivity;
    rewrite (Z.compare_antisym e e');
    destruct (e ?= e')%Z; simpl; try discriminate; try reflexivity;
    rewrite (ZC4 m' m);
    destruct (Pos.compare_cont Eq m m'); simpl; discriminate || reflexivity.
Qed.

(** [a <= b] excludes [b < a]. *)
Lemma leb_not_ltb (a b : float) : (a <=? b) = true -> (b <? a) = false.
Proof.
  rewrite leb_spec, ltb_spec. unfold SFleb, SFltb.
  destruct (SFcompare (Prim2SF b) (Prim2SF a)) as [[ | | ] | ] eqn:E; try reflexivity.
  apply SFcompare_Lt_swap in E. rewrite E. discriminate.
Qed.
End FloatFacts.

(** ** Squares and their sums are not negative *)

Section SignFacts.
Local Open Scope float_scope.

Lemma binary_round_aux_sign (sx : bool) (mx ex : Z) (lx : location) :
  binary_round_aux prec emax sx mx ex lx = S754_nan
  \/ binary_round_aux prec emax sx mx ex lx = S754_zero sx
  \/ binary_round_aux prec emax sx mx ex lx = S754_infinity sx
  \/ exists m e, binary_round_aux prec emax sx mx ex lx = S754_finite sx m e.
Proof.
  unfold binary_round_aux.
  destruct (shr_fexp prec emax mx ex lx) as [mrs' e'].
  destruct (shr_fexp prec emax _ e' loc_Exact) as [mrs'' e''].
  destruct (shr_m mrs'') as [ | m | m]; [tauto | | tauto].
  destruct (e'' <=? emax - prec)%Z; [ | tauto].
  right. right. right. now exists m, e''.
Qed.

Lemma binary_round_aux_nonneg (mx ex : Z) (lx : location) :
  SFnonneg (binary_round_aux prec emax false mx ex lx).
Proof.
  destruct (binary_round_aux_sign false mx ex lx) as [H | [H | [H | [m [e H]]]]];
    rewrite H; simpl; trivial.
Qed.

(** A correctly rounded square is not negative. *)
Lemma SFmul_self_nonneg (f : spec_float) : SFnonneg (SFmul prec emax f f).
Proof.
  destruct f as [s | s | | s m e]; simpl; try (now destruct s); trivial.
  replace (xorb s s) with false by (now destruct s).
  apply binary_round_aux_nonneg.
Qed.

(** Neither is a sum of two floats that are not negative. *)
Lemma SFadd_nonneg (f g : spec_float) :
  SFnonneg f -> SFnonneg g -> SFnonneg (SFadd prec emax f g).
Proof.
  destruct f as [s | s | | s m e], g as [s' | s' | | s' m' e']; simpl;
    intros Hf Hg; subst; simpl; trivial; try (now destruct s, s').
  unfold binary_normalize, binary_round.
  destruct (shl_align _ _ _) as [mz ez]. apply binary_round_aux_nonneg.
Qed.

Lemma SFnonneg_not_ltb_zero (f : spec_float) :
  SFnonneg f -> SFltb f (S754_zero false) = false.
Proof.
  destruct f as [s | s | | s m e]; simpl; intros H; subst; reflexivity.
Qed.

(** A float above one that is not negative is not negative. *)
Lemma SFleb_nonneg (f g : spec_float) :
  SFnonneg f -> SFleb f g = true -> SFnonneg g.
Proof.
  destruct f as [s | s | | s m e], g as [s' | s' | | s' m' e']; simpl;
    intros Hf; subst; trivial; destruct s'; trivial; try discriminate;
    destruct s; discriminate.
Qed.

Lemma SFmul_nonneg (f g : spec_float) :
  SFnonneg f -> SFnonneg g -> SFnonneg (SFmul prec emax f g).
Proof.
  destruct f as [s | s | | s m e], g as [s' | s' | | s' m' e']; simpl;
    intros Hf Hg; subst; simpl; trivial.
  apply binary_round_aux_nonneg.
Qed.

(** What libm returns for a square is not negative, whatever its
    error. *)
Lemma libm_pow2_nonneg (pow_error : float -> comparison) (x : float) :
  SFnonneg (Prim2SF (PyFloat.libm_pow2 pow_error x)).
Proof.
  unfold PyFloat.libm_pow2.
  set (p := match pow_error x with
            | Eq => x * x
            | Lt => next_down (x * x)
            | Gt => next_up (x * x)
            end).
  destruct (x * x * 0.5 <=? p) eqn:E; cbn [andb];
    [ | rewrite mul_spec; apply SFmul_self_nonneg].
  destruct (p <=? x * x * 2); [ | rewrite mul_spec; apply SFmul_self_nonneg].
  rewrite leb_spec in E. apply SFleb_nonneg in E; [exact E | ].
  rewrite mul_spec. apply SFmul_nonneg; [ | reflexivity].
  rewrite mul_spec. apply SFmul_self_nonneg.
Qed.

Lemma float_pow2_nonneg (pow_error : float -> comparison) (x : float) :
  SFnonneg (Prim2SF (PyFloat.float_pow2 pow_error x)).
Proof.
  unfold PyFloat.float_pow2.
  destruct (is_nan x || is_infinity x || is_zero x || (abs x =? 1))%bool.
  - rewrite mul_spec. apply SFmul_self_nonneg.
  - apply libm_pow2_nonneg.
Qed.

(** The argument of [math.sqrt] in both normalizations is not negative. *)
Lemma sum_of_squares_not_negative (pow_error : float -> comparison) (start a b c : float) :
  SFnonneg (Prim2SF start) ->
  (start + PyFloat.float_pow2 pow_error a + PyFloat.float_pow2 pow_error b
   + PyFloat.float_pow2 pow_error c <? 0) = false.
Proof.
  intros Hstart. rewrite ltb_spec. change (Prim2SF 0) with (S754_zero false).
  apply SFnonneg_not_ltb_zero.
  rewrite !add_spec.
  repeat apply SFadd_nonneg; try apply float_pow2_nonneg. exact Hstart.
Qed.

Lemma squares_not_negative (pow_error : float -> comparison) (a b c : float) :
  (PyFloat.float_pow2 pow_error a + PyFloat.float_pow2 pow_error b
   + PyFloat.float_pow2 pow_error c <? 0) = false.
Proof.
  rewrite ltb_spec. change (Prim2SF 0) with (S754_zero false).
  apply SFnonneg_not_ltb_zero.
  rewrite !add_spec.
  repeat apply SFadd_nonneg; apply float_pow2_nonneg.
Qed.

(** [x ** 2] returns the float that [float_pow] computes, or raises
    [OverflowError]; on a zero it returns zero. *)
Lemma pow2_Ok (pow_error : float -> comparison) (x p : float) :
  PyFloat.pow2 pow_error x = Ok p <->
  PyFloat.overflows pow_error x = false /\ p = PyFloat.float_pow2 pow_error x.
Proof.
  unfold PyFloat.pow2. destruct (PyFloat.overflows pow_error x).
  - split; [discriminate | intros [H _]; discriminate].
  - split; [now intros [= <-] | now intros [_ ->]].
Qed.

Lemma pow2_Raise (pow_error : float -> comparison) (x : float) (e : exn) :
  PyFloat.pow2 pow_error x = Raise e <->
  PyFloat.overflows pow_error x = true /\ e = OverflowError.
Proof.
  unfold PyFloat.pow2. destruct (PyFloat.overflows pow_error x).
  - split; [now intros [= <-] | now intros [_ ->]].
  - split; [discriminate | intros [H _]; discriminate].
Qed.

Lemma pow2_zero (pow_error : float -> comparison) (x : float) :
  (x =? 0) = true -> PyFloat.pow2 pow_error x = Ok 0.
Proof. intros H. apply eqb_zero_inv in H. destruct H; subst; reflexivity. Qed.
End SignFacts.

(** ** The magnitude of a rounded result

    The results of the float operations, as far as their binade: what
    [binary_round_aux] returns for a mantissa of a known number of
    digits, and from it the magnitudes of products, sums, differences,
    quotients and square roots of normal numbers. *)

Section Magnitudes.
Local Open Scope Z_scope.
Local Unset Implicit Arguments.

(** digits *)
Lemma digits2_pos_size (p : positive) : digits2_pos p = Pos.size p.
Proof. induction p; simpl; congruence. Qed.

Lemma digits2_pos_bounds (p : positive) :
  2 ^ (Z.pos (digits2_pos p) - 1) <= Z.pos p < 2 ^ Z.pos (digits2_pos p).
Proof.
  rewrite digits2_pos_size.
  pose proof (Pos.size_gt p) as Hgt. pose proof (Pos.size_le p) as Hle.
  split.
  - apply Pos2Z.pos_le_pos in Hle. rewrite Pos2Z.inj_pow in Hle.
    replace (Z.pos (Pos.size p)) with (Z.succ (Z.pos (Pos.size p) - 1)) in Hle by lia.
    rewrite Z.pow_succ_r in Hle by lia. lia.
  - apply Pos2Z.pos_lt_pos in Hgt. now rewrite Pos2Z.inj_pow in Hgt.
Qed.

Lemma digits2_pos_unique (p : positive) (d : Z) :
  2 ^ (d - 1) <= Z.pos p < 2 ^ d -> Z.pos (digits2_pos p) = d.
Proof.
  intros [Hlo Hhi]. pose proof (digits2_pos_bounds p) as [Hlo' Hhi'].
  assert (Hd : 0 < d).
  { destruct (Z.ltb_spec 0 d) as [H | H]; [exact H | ].
    exfalso. assert (2 ^ d <= 1).
    { destruct (Z.eq_dec d 0) as [-> | Hne]; [simpl; lia | ].
      rewrite Z.pow_neg_r by lia. lia. }
    lia. }
  set (k := Z.pos (digits2_pos p)) in *.
  destruct (Z.lt_trichotomy k d) as [H | [H | H]]; [ | exact H | ].
  - exfalso. assert (2 ^ k <= 2 ^ (d - 1)) by (apply Z.pow_le_mono_r; lia). lia.
  - exfalso. assert (2 ^ d <= 2 ^ (k - 1)) by (apply Z.pow_le_mono_r; lia). lia.
Qed.

Lemma digits2_pos_le (p : positive) (d : Z) :
  Z.pos p < 2 ^ d -> Z.pos (digits2_pos p) <= d.
Proof.
  intros Hhi. pose proof (digits2_pos_bounds p) as [Hlo' _].
  destruct (Z.leb_spec (Z.pos (digits2_pos p)) d) as [H | H]; [exact H | exfalso].
  assert (0 <= d).
  { destruct (Z.leb_spec 0 d) as [H0 | H0]; [exact H0 | ].
    rewrite Z.pow_neg_r in Hhi by lia. lia. }
  assert (2 ^ d <= 2 ^ (Z.pos (digits2_pos p) - 1)) by (apply Z.pow_le_mono_r; lia). lia.
Qed.

Lemma digits2_pos_ge (p : positive) (d : Z) :
  2 ^ (d - 1) <= Z.pos p -> d <= Z.pos (digits2_pos p).
Proof.
  intros Hlo. pose proof (digits2_pos_bounds p) as [_ Hhi'].
  destruct (Z.leb_spec d (Z.pos (digits2_pos p))) as [H | H]; [exact H | exfalso].
  assert (2 ^ Z.pos (digits2_pos p) <= 2 ^ (d - 1)) by (apply Z.pow_le_mono_r; lia). lia.
Qed.

(** shifting right *)
Lemma shr_1_m (mrs : shr_record) :
  0 <= shr_m mrs -> shr_m (shr_1 mrs) = shr_m mrs / 2.
Proof.
  destruct mrs as [m r s]. simpl. destruct m as [ | [p | p | ] | p]; intros H; simpl shr_m.
  - reflexivity.
  - rewrite Pos2Z.inj_xI. apply Z.div_unique with 1; lia.
  - rewrite Pos2Z.inj_xO. apply Z.div_unique with 0; lia.
  - reflexivity.
  - lia.
Qed.

Lemma iter_pos_shr_1_m (p : positive) :
  forall mrs : shr_record,
    0 <= shr_m mrs ->
    shr_m (iter_pos shr_1 p mrs) = shr_m mrs / 2 ^ Z.pos p.
Proof.
  induction p as [p IH | p IH | ]; intros mrs Hm; simpl iter_pos.
  - assert (H1 : 0 <= shr_m (shr_1 mrs)) by (rewrite shr_1_m by exact Hm; apply Z.div_pos; lia).
    assert (H2 : 0 <= shr_m (iter_pos shr_1 p (shr_1 mrs))).
    { rewrite IH by exact H1. apply Z.div_pos; [exact H1 | ]. apply Z.pow_pos_nonneg; lia. }
    rewrite IH by exact H2. rewrite IH by exact H1. rewrite shr_1_m by exact Hm.
    rewrite !Z.div_div by (try apply Z.pow_pos_nonneg; lia).
    f_equal. replace (Z.pos p~1) with (1 + Z.pos p + Z.pos p) by lia.
    rewrite !Z.pow_add_r by lia. lia.
  - assert (H2 : 0 <= shr_m (iter_pos shr_1 p mrs)).
    { rewrite IH by exact Hm. apply Z.div_pos; [exact Hm | ]. apply Z.pow_pos_nonneg; lia. }
    rewrite IH by exact H2. rewrite IH by exact Hm.
    rewrite !Z.div_div by (try apply Z.pow_pos_nonneg; lia).
    f_equal. replace (Z.pos p~0) with (Z.pos p + Z.pos p) by lia.
    rewrite !Z.pow_add_r by lia. lia.
  - rewrite shr_1_m by exact Hm. reflexivity.
Qed.

Lemma shr_record_of_loc_m (m : Z) (l : location) : shr_m (shr_record_of_loc m l) = m.
Proof. destruct l as [ | [ | | ]]; reflexivity. Qed.

Lemma shr_m_shift (m : Z) (l : location) (e n : Z) :
  0 <= m -> 0 <= n ->
  shr_m (fst (shr (shr_record_of_loc m l) e n)) = m / 2 ^ n
  /\ snd (shr (shr_record_of_loc m l) e n) = e + n.
Proof.
  intros Hm Hn. unfold shr. destruct n as [ | p | p]; cbn [fst snd].
  - rewrite shr_record_of_loc_m. simpl. rewrite Z.div_1_r. split; [reflexivity | lia].
  - rewrite iter_pos_shr_1_m by (rewrite shr_record_of_loc_m; lia).
    now rewrite shr_record_of_loc_m.
  - lia.
Qed.

Lemma shr_none (mrs : shr_record) (e n : Z) : n <= 0 -> shr mrs e n = (mrs, e).
Proof. intros Hn. unfold shr. destruct n; try reflexivity. lia. Qed.

Lemma round_nearest_even_range (m : Z) (l : location) :
  m <= round_nearest_even m l <= m + 1.
Proof.
  destruct l as [ | [ | | ]]; simpl; try lia. destruct (Z.even m); lia.
Qed.

(** The shape of a rounded number: a positive mantissa [m] with at
    least as many digits as its exponent [e] asks for rounds to a zero,
    to a finite number of the exponent that the format gives to its
    magnitude, or the next one, or to an infinity; in the normal range,
    to a normal number. *)
Lemma binary_round_aux_shape (s : bool) (m : positive) (e : Z) (l : location) :
  let d := Z.pos (digits2_pos m) in
  let t := Z.max (d + e - 53) (-1074) in
  e <= t ->
  match binary_round_aux prec emax s (Z.pos m) e l with
  | S754_zero s' => s' = s /\ d + e < -1021
  | S754_finite s' m' e' =>
      s' = s /\ Z.pos (digits2_pos m') <= 53 /\ t <= e' <= t + 1
      /\ (-1021 <= d + e -> Z.pos (digits2_pos m') = 53)
  | S754_infinity s' => s' = s /\ 1023 < d + e
  | S754_nan => False
  end.
Proof.
  intros d t Het. unfold binary_round_aux.
  assert (H1 : shr_m (fst (shr_fexp prec emax (Z.pos m) e l)) = Z.pos m / 2 ^ (t - e)
               /\ snd (shr_fexp prec emax (Z.pos m) e l) = t).
  { unfold shr_fexp, fexp, SpecFloat.emin, prec, emax. cbn [Zdigits2]. fold d.
    change (3 - 1024 - 53) with (-1074). fold t.
    destruct (shr_m_shift (Z.pos m) l e (t - e)) as [Hm He]; lia. }
  destruct (shr_fexp prec emax (Z.pos m) e l) as [mrs1 e1]. cbn [fst snd] in H1.
  destruct H1 as [Hm1 ->].
  pose proof (digits2_pos_bounds m) as Hbounds. fold d in Hbounds.
  set (q := Z.pos m / 2 ^ (t - e)) in *.
  assert (Hpow : 0 < 2 ^ (t - e)) by (apply Z.pow_pos_nonneg; lia).
  assert (Hq : 0 <= q < 2 ^ 53).
  { unfold q. split; [apply Z.div_pos; lia | ].
    apply Z.div_lt_upper_bound; [lia | ].
    rewrite <- Z.pow_add_r by lia.
    assert (2 ^ d <= 2 ^ (t - e + 53)) by (apply Z.pow_le_mono_r; lia). lia. }
  assert (Hqn : -1021 <= d + e -> 2 ^ 52 <= q).
  { intros Hn. unfold q. apply Z.div_le_lower_bound; [lia | ].
    replace (t - e) with (d - 53) by lia.
    rewrite <- Z.pow_add_r by lia. replace (d - 53 + 52) with (d - 1) by lia. lia. }
  pose proof (round_nearest_even_range (shr_m mrs1) (loc_of_shr_record mrs1)) as Hr.
  set (m1 := round_nearest_even (shr_m mrs1) (loc_of_shr_record mrs1)) in *.
  rewrite Hm1 in Hr.
  unfold shr_fexp, fexp, SpecFloat.emin, prec, emax.
  change (3 - 1024 - 53) with (-1074).
  destruct m1 as [ | p1 | p1] eqn:Ep1; [ | | lia].
  - (* rounded to zero *)
    cbn [Zdigits2]. rewrite shr_none by lia. cbn [shr_m shr_record_of_loc].
    split; [reflexivity | ].
    destruct (Z.ltb_spec (d + e) (-1021)) as [H | H]; [exact H | ].
    specialize (Hqn H). lia.
  - cbn [Zdigits2].
    destruct (Z.eq_dec (Z.pos p1) (2 ^ 53)) as [Htop | Htop].
    + (* the mantissa has become 2^53 *)
      assert (Hd1 : Z.pos (digits2_pos p1) = 54).
      { apply digits2_pos_unique. rewrite Htop. simpl. lia. }
      rewrite Hd1.
      replace (Z.max (54 + t - 53) (-1074) - t) with 1 by lia.
      cbn [shr shr_record_of_loc iter_pos]. rewrite Htop.
      change (shr_m (shr_1 {| shr_m := 2 ^ 53; shr_r := false; shr_s := false |}))
        with (Z.pos (2 ^ 52)%positive).
      cbv iota beta.
      destruct (Z.leb_spec (t + 1) (1024 - 53)) as [Hle | Hgt].
      * split; [reflexivity | ]. split; [simpl; lia | ]. split; [lia | ].
        intros _. reflexivity.
      * split; [reflexivity | lia].
    + assert (Hd1 : Z.pos (digits2_pos p1) <= 53).
      { apply digits2_pos_le. lia. }
      rewrite shr_none by lia. cbn [shr_m shr_record_of_loc].
      destruct (Z.leb_spec t (1024 - 53)) as [Hle | Hgt].
      * split; [reflexivity | ]. split; [exact Hd1 | ]. split; [lia | ].
        intros Hn. specialize (Hqn Hn).
        apply Z.le_antisymm; [exact Hd1 | ]. apply digits2_pos_ge. simpl Z.sub. lia.
      * split; [reflexivity | lia].
Qed.

Lemma Normal_weaken (lo hi lo' hi' : Z) (x : spec_float) :
  Normal lo hi x -> lo' <= lo -> hi <= hi' -> Normal lo' hi' x.
Proof. destruct x as [ | | | s m e]; unfold Normal, ZN, PosNormal, Bounded, Small; try tauto. lia. Qed.

Lemma PosNormal_weaken (lo hi lo' hi' : Z) (x : spec_float) :
  PosNormal lo hi x -> lo' <= lo -> hi <= hi' -> PosNormal lo' hi' x.
Proof. destruct x as [ | | | [ | ] m e]; unfold Normal, ZN, PosNormal, Bounded, Small; try tauto. lia. Qed.

Lemma ZN_weaken (lo hi lo' hi' : Z) (x : spec_float) :
  ZN lo hi x -> lo' <= lo -> hi <= hi' -> ZN lo' hi' x.
Proof. destruct x as [ | | | s m e]; unfold Normal, ZN, PosNormal, Bounded, Small; try tauto. lia. Qed.

Lemma PosNormal_Normal (lo hi : Z) (x : spec_float) : PosNormal lo hi x -> Normal lo hi x.
Proof. destruct x as [ | | | [ | ] m e]; unfold Normal, ZN, PosNormal, Bounded, Small; tauto. Qed.

Lemma Normal_ZN (lo hi : Z) (x : spec_float) : Normal lo hi x -> ZN lo hi x.
Proof. destruct x as [ | | | s m e]; unfold Normal, ZN, PosNormal, Bounded, Small; tauto. Qed.

Lemma Normal_Bounded (lo hi : Z) (x : spec_float) : Normal lo hi x -> Bounded hi x.
Proof. destruct x as [ | | | s m e]; unfold Normal, ZN, PosNormal, Bounded, Small; try tauto. lia. Qed.

Lemma PosNormal_Small (lo hi : Z) (x : spec_float) : PosNormal lo hi x -> Small hi x.
Proof. destruct x as [ | | | [ | ] m e]; unfold Normal, ZN, PosNormal, Bounded, Small; try tauto. lia. Qed.

Lemma Small_weaken (hi hi' : Z) (x : spec_float) : Small hi x -> hi <= hi' -> Small hi' x.
Proof. destruct x as [ | | | [ | ] m e]; unfold Normal, ZN, PosNormal, Bounded, Small; try tauto. lia. Qed.

(** ** Multiplication *)

Lemma digits2_pos_mul (p q : positive) :
  Z.pos (digits2_pos p) + Z.pos (digits2_pos q) - 1 <= Z.pos (digits2_pos (p * q))
  <= Z.pos (digits2_pos p) + Z.pos (digits2_pos q).
Proof.
  pose proof (digits2_pos_bounds p) as [Hp Hp'].
  pose proof (digits2_pos_bounds q) as [Hq Hq'].
  set (a := Z.pos (digits2_pos p)) in *. set (b := Z.pos (digits2_pos q)) in *.
  assert (Ha : 0 < a) by (unfold a; lia). assert (Hb : 0 < b) by (unfold b; lia).
  assert (H2a : 0 < 2 ^ (a - 1)) by (apply Z.pow_pos_nonneg; lia).
  assert (H2b : 0 < 2 ^ (b - 1)) by (apply Z.pow_pos_nonneg; lia).
  split.
  - apply digits2_pos_ge. rewrite Pos2Z.inj_mul.
    replace (a + b - 1 - 1) with ((a - 1) + (b - 1)) by lia.
    rewrite Z.pow_add_r by lia. apply Z.mul_le_mono_nonneg; lia.
  - apply digits2_pos_le. rewrite Pos2Z.inj_mul.
    rewrite Z.pow_add_r by lia. apply Z.mul_lt_mono_nonneg; lia.
Qed.

Lemma SFmul_Normal (a b c d : Z) (x y : spec_float) :
  Normal a b x -> Normal c d y -> -1020 <= a + c -> b + d <= 1023 ->
  Normal (a + c - 1) (b + d + 1) (SFmul prec emax x y).
Proof.
  destruct x as [ | | | sx mx ex]; try (cbn; tauto).
  destruct y as [ | | | sy my ey]; try (cbn; tauto).
  intros [Hdx Hx] [Hdy Hy] Hlo Hhi. unfold SFmul.
  pose proof (digits2_pos_mul mx my) as Hd. rewrite Hdx, Hdy in Hd.
  pose proof (binary_round_aux_shape (xorb sx sy) (mx * my) (ex + ey) loc_Exact) as H.
  cbv zeta in H.
  destruct (binary_round_aux prec emax (xorb sx sy) (Z.pos (mx * my)) (ex + ey) loc_Exact)
    as [s' | s' | | s' m' e']; cbn [Normal Bounded]; try (specialize (H ltac:(lia)); lia).
Qed.

Lemma SFmul_Bounded (h lo hi : Z) (x y : spec_float) :
  Bounded h x -> Normal lo hi y -> h + hi <= 1023 ->
  Bounded (Z.max (h + hi) (-1021) + 1) (SFmul prec emax x y).
Proof.
  destruct x as [sx | | | sx mx ex]; try (cbn; tauto);
    destruct y as [ | | | sy my ey]; try (cbn; tauto).
  intros [Hdx Hx] [Hdy Hy] Hhi. unfold SFmul.
  pose proof (digits2_pos_mul mx my) as Hd. rewrite Hdy in Hd.
  assert (Hpos : 0 < Z.pos (digits2_pos mx)) by lia.
  pose proof (binary_round_aux_shape (xorb sx sy) (mx * my) (ex + ey) loc_Exact) as H.
  cbv zeta in H.
  destruct (binary_round_aux prec emax (xorb sx sy) (Z.pos (mx * my)) (ex + ey) loc_Exact)
    as [s' | s' | | s' m' e']; cbn [Normal Bounded]; try (specialize (H ltac:(lia)); lia).
Qed.

Lemma ZNF_weaken (lo hi lo' hi' : Z) (x : spec_float) :
  ZNF lo hi x -> lo' <= lo -> hi <= hi' -> ZNF lo' hi' x.
Proof. destruct x as [ | | | s m e]; cbn [ZNF]; intuition lia. Qed.

(** ** Addition and subtraction *)

Lemma shift_pos_pow (n p : positive) : Z.pos (shift_pos n p) = Z.pos p * 2 ^ Z.pos n.
Proof. rewrite shift_pos_correct, Z.pow_pos_fold. lia. Qed.

Lemma shl_align_fst (mx : positive) (ex ex' : Z) :
  ex' <= ex ->
  Z.pos (fst (shl_align mx ex ex')) = Z.pos mx * 2 ^ (ex - ex')
  /\ snd (shl_align mx ex ex') = ex'.
Proof.
  intros H. unfold shl_align. destruct (ex' - ex) as [ | p | p] eqn:E; cbn [fst snd].
  - replace (ex - ex') with 0 by lia. simpl. lia.
  - lia.
  - change (Pos.iter xO mx p) with (shift_pos p mx).
    rewrite shift_pos_pow. replace (ex - ex') with (Z.pos p) by lia. tauto.
Qed.

Lemma shl_align_none (mx : positive) (ex ex' : Z) :
  ex <= ex' -> shl_align mx ex ex' = (mx, ex).
Proof. intros H. unfold shl_align. destruct (ex' - ex) eqn:E; try reflexivity. lia. Qed.

(** Rounding a mantissa of any number of digits, in the normal range or
    above it. *)
Lemma binary_round_shape (s : bool) (m : positive) (e : Z) :
  let d := Z.pos (digits2_pos m) in
  -1021 <= d + e ->
  match binary_round prec emax s m e with
  | S754_finite s' m' e' =>
      s' = s /\ Z.pos (digits2_pos m') = 53 /\ d + e <= 53 + e' <= d + e + 1
  | S754_infinity s' => s' = s /\ 1023 < d + e
  | _ => False
  end.
Proof.
  intros d Hlo. unfold binary_round, fexp, SpecFloat.emin.
  change (3 - emax - prec) with (-1074).
  change (Z.pos (digits2_pos m) + e - prec) with (d + e - 53).
  replace (Z.max (d + e - 53) (-1074)) with (d + e - 53) by lia.
  destruct (Z.leb_spec 53 d) as [Hd | Hd].
  - rewrite shl_align_none by lia.
    pose proof (binary_round_aux_shape s m e loc_Exact) as H. cbv zeta in H. fold d in H.
    destruct (binary_round_aux prec emax s (Z.pos m) e loc_Exact) as [s' | s' | | s' m' e'];
      specialize (H ltac:(lia)); intuition lia.
  - destruct (shl_align_fst m e (d + e - 53)) as [Hm He]; [lia | ].
    destruct (shl_align m e (d + e - 53)) as [mz ez]. cbn [fst snd] in Hm, He. subst ez.
    assert (Hdz : Z.pos (digits2_pos mz) = 53).
    { apply digits2_pos_unique. rewrite Hm.
      pose proof (digits2_pos_bounds m) as [Hb Hb']. fold d in Hb, Hb'.
      assert (0 < d) by (unfold d; lia).
      replace (e - (d + e - 53)) with (53 - d) by lia.
      assert (Hp : 0 < 2 ^ (53 - d)) by (apply Z.pow_pos_nonneg; lia).
      replace (2 ^ (53 - 1)) with (2 ^ (d - 1) * 2 ^ (53 - d))
        by (rewrite <- Z.pow_add_r by lia; f_equal; lia).
      replace (2 ^ 53) with (2 ^ d * 2 ^ (53 - d))
        by (rewrite <- Z.pow_add_r by lia; f_equal; lia).
      split; [apply Z.mul_le_mono_nonneg_r; lia | apply Z.mul_lt_mono_pos_r; lia]. }
    pose proof (binary_round_aux_shape s mz (d + e - 53) loc_Exact) as H. cbv zeta in H.
    rewrite Hdz in H.
    destruct (binary_round_aux prec emax s (Z.pos mz) (d + e - 53) loc_Exact)
      as [s' | s' | | s' m' e']; specialize (H ltac:(lia)); intuition lia.
Qed.

(** A non-zero integer [D] of [a] to [b] digits, scaled by [2^e]. *)
Lemma binary_normalize_shape (D e a b : Z) :
  2 ^ (a - 1) <= Z.abs D < 2 ^ b -> 0 < a -> -1021 <= a + e ->
  match binary_normalize prec emax D e false with
  | S754_finite s' m' e' =>
      s' = (D <? 0) /\ Z.pos (digits2_pos m') = 53 /\ a + e <= 53 + e' <= b + e + 1
  | S754_infinity s' => s' = (D <? 0) /\ 1023 < b + e
  | _ => False
  end.
Proof.
  intros [Hlo Hhi] Ha He. unfold binary_normalize.
  assert (Hpow : 0 < 2 ^ (a - 1)) by (apply Z.pow_pos_nonneg; lia).
  destruct D as [ | p | p]; [simpl in Hlo; lia | | ].
  - pose proof (binary_round_shape false p e) as H. cbv zeta in H.
    assert (a <= Z.pos (digits2_pos p)) by (apply digits2_pos_ge; exact Hlo).
    assert (Z.pos (digits2_pos p) <= b) by (apply digits2_pos_le; exact Hhi).
    destruct (binary_round prec emax false p e) as [s' | s' | | s' m' e'];
      specialize (H ltac:(lia)); cbn [Z.ltb Z.compare]; intuition lia.
  - pose proof (binary_round_shape true p e) as H. cbv zeta in H.
    assert (a <= Z.pos (digits2_pos p)) by (apply digits2_pos_ge; exact Hlo).
    assert (Z.pos (digits2_pos p) <= b) by (apply digits2_pos_le; exact Hhi).
    destruct (binary_round prec emax true p e) as [s' | s' | | s' m' e'];
      specialize (H ltac:(lia)); cbn [Z.ltb Z.compare]; intuition lia.
Qed.

(** The aligned mantissas of an addition. *)
Lemma aligned_mantissa (mx : positive) (ex ez : Z) :
  ez <= ex ->
  let A := Z.pos (fst (shl_align mx ex ez)) in
  2 ^ (Z.pos (digits2_pos mx) - 1 + (ex - ez)) <= A
  < 2 ^ (Z.pos (digits2_pos mx) + (ex - ez)).
Proof.
  intros H A. unfold A. destruct (shl_align_fst mx ex ez H) as [-> _].
  pose proof (digits2_pos_bounds mx) as [Hb Hb'].
  assert (Hp : 0 < 2 ^ (ex - ez)) by (apply Z.pow_pos_nonneg; lia).
  assert (0 < Z.pos (digits2_pos mx)) by lia.
  rewrite !Z.pow_add_r by lia.
  split; [apply Z.mul_le_mono_nonneg_r; lia | apply Z.mul_lt_mono_pos_r; lia].
Qed.

Lemma two_power_le (a b : Z) : a <= b -> 0 <= a -> 2 ^ a <= 2 ^ b.
Proof. intros. apply Z.pow_le_mono_r; lia. Qed.

Lemma two_power_double (a : Z) : 0 <= a -> 2 ^ a + 2 ^ a = 2 ^ (a + 1).
Proof. intros. rewrite Z.pow_add_r by lia. lia. Qed.

(** Sum and difference of normal numbers, of any signs: zero, or a
    normal number that has lost at most 52 binades and gained at most
    two. *)
Lemma signed_sum_shape (sx sy : bool) (mx my : positive) (ex ey lo hi : Z)
      (op : Z -> Z -> Z) :
  (forall u v, op u v = u + v \/ op u v = u - v) ->
  Z.pos (digits2_pos mx) = 53 -> lo <= 53 + ex <= hi ->
  Z.pos (digits2_pos my) = 53 -> lo <= 53 + ey <= hi ->
  -969 <= lo -> hi <= 1021 ->
  ZN (lo - 52) (hi + 2)
     (binary_normalize prec emax
        (op (cond_Zopp sx (Z.pos (fst (shl_align mx ex (Z.min ex ey)))))
            (cond_Zopp sy (Z.pos (fst (shl_align my ey (Z.min ex ey))))))
        (Z.min ex ey) false).
Proof.
  intros Hop Hdx Hx Hdy Hy Hlo Hhi.
  pose proof (aligned_mantissa mx ex (Z.min ex ey) ltac:(lia)) as HA.
  pose proof (aligned_mantissa my ey (Z.min ex ey) ltac:(lia)) as HB.
  cbv zeta in HA, HB. rewrite Hdx in HA. rewrite Hdy in HB.
  set (A := Z.pos (fst (shl_align mx ex (Z.min ex ey)))) in *.
  set (B := Z.pos (fst (shl_align my ey (Z.min ex ey)))) in *.
  set (ez := Z.min ex ey) in *.
  set (D := op (cond_Zopp sx A) (cond_Zopp sy B)).
  set (h := Z.max ex ey).
  assert (HhA : 2 ^ (53 + (ex - ez)) <= 2 ^ (53 + (h - ez))) by (apply two_power_le; lia).
  assert (HhB : 2 ^ (53 + (ey - ez)) <= 2 ^ (53 + (h - ez))) by (apply two_power_le; lia).
  pose proof (two_power_double (53 + (h - ez)) ltac:(lia)) as Hdbl.
  assert (HD : Z.abs D < 2 ^ (53 + (h - ez) + 1)).
  { unfold D. destruct (Hop (cond_Zopp sx A) (cond_Zopp sy B)) as [-> | ->];
      destruct sx, sy; unfold cond_Zopp; lia. }
  destruct (Z.eq_dec D 0) as [H0 | H0].
  - rewrite H0. exact I.
  - pose proof (binary_normalize_shape D ez 1 (53 + (h - ez) + 1)) as H.
    change (2 ^ (1 - 1)) with 1 in H.
    specialize (H ltac:(lia) ltac:(lia) ltac:(lia)).
    destruct (binary_normalize prec emax D ez false) as [s' | s' | | s' m' e'];
      cbn [ZN]; lia.
Qed.

Lemma SFadd_ZN (lo hi : Z) (x y : spec_float) :
  ZN lo hi x -> ZN lo hi y -> -969 <= lo -> hi <= 1021 ->
  ZN (lo - 52) (hi + 2) (SFadd prec emax x y).
Proof.
  destruct x as [sx | | | sx mx ex]; try (cbn; tauto);
    destruct y as [sy | | | sy my ey]; try (cbn; tauto).
  - now destruct sx, sy.
  - cbn [ZN SFadd]. lia.
  - cbn [ZN SFadd]. lia.
  - intros [Hdx Hx] [Hdy Hy] Hlo Hhi. unfold SFadd.
    apply signed_sum_shape with (op := Z.add); auto.
Qed.

Lemma SFsub_ZN (lo hi : Z) (x y : spec_float) :
  ZN lo hi x -> ZN lo hi y -> -969 <= lo -> hi <= 1021 ->
  ZN (lo - 52) (hi + 2) (SFsub prec emax x y).
Proof.
  destruct x as [sx | | | sx mx ex]; try (cbn; tauto);
    destruct y as [sy | | | sy my ey]; try (cbn; tauto).
  - now destruct sx, sy.
  - cbn [ZN SFsub]. lia.
  - cbn [ZN SFsub]. lia.
  - intros [Hdx Hx] [Hdy Hy] Hlo Hhi. unfold SFsub.
    apply signed_sum_shape with (op := Z.sub); auto.
Qed.

(** The sum of a positive normal number and a bounded non-negative
    one. *)
Lemma positive_sum_shape (mx my : positive) (ex ey h lo hi : Z) :
  Z.pos (digits2_pos mx) <= 53 -> 53 + ex <= h ->
  Z.pos (digits2_pos my) = 53 -> lo <= 53 + ey <= hi ->
  -1021 <= lo -> Z.max h hi <= 1021 ->
  PosNormal lo (Z.max h hi + 2)
     (binary_normalize prec emax
        (Z.pos (fst (shl_align mx ex (Z.min ex ey)))
         + Z.pos (fst (shl_align my ey (Z.min ex ey))))
        (Z.min ex ey) false).
Proof.
  intros Hdx Hx Hdy Hy Hlo Hhi.
  pose proof (aligned_mantissa mx ex (Z.min ex ey) ltac:(lia)) as HA.
  pose proof (aligned_mantissa my ey (Z.min ex ey) ltac:(lia)) as HB.
  cbv zeta in HA, HB. rewrite Hdy in HB.
  set (A := Z.pos (fst (shl_align mx ex (Z.min ex ey)))) in *.
  set (B := Z.pos (fst (shl_align my ey (Z.min ex ey)))) in *.
  set (ez := Z.min ex ey) in *.
  set (k := Z.max (53 + ex) (53 + ey)).
  assert (HhA : 2 ^ (Z.pos (digits2_pos mx) + (ex - ez)) <= 2 ^ (k - ez))
    by (apply two_power_le; lia).
  assert (HhB : 2 ^ (53 + (ey - ez)) <= 2 ^ (k - ez)) by (apply two_power_le; lia).
  pose proof (two_power_double (k - ez) ltac:(lia)) as Hdbl.
  pose proof (binary_normalize_shape (A + B) ez (53 + (ey - ez)) (k - ez + 1)) as H.
  assert (0 < A) by (unfold A; lia).
  replace (53 - 1 + (ey - ez)) with (53 + (ey - ez) - 1) in HB by lia.
  specialize (H ltac:(lia) ltac:(lia) ltac:(lia)).
  destruct (binary_normalize prec emax (A + B) ez false) as [s' | s' | | s' m' e'];
    try lia.
  destruct H as (Hs & Hd & He). replace (A + B <? 0) with false in Hs by lia. subst s'.
  cbn [PosNormal]. lia.
Qed.

Lemma SFadd_Small_PosNormal (h lo hi : Z) (x y : spec_float) :
  Small h x -> PosNormal lo hi y -> -1021 <= lo -> Z.max h hi <= 1021 ->
  PosNormal lo (Z.max h hi + 2) (SFadd prec emax x y)
  /\ PosNormal lo (Z.max h hi + 2) (SFadd prec emax y x).
Proof.
  destruct x as [sx | | | [ | ] mx ex]; try (cbn; tauto);
    destruct y as [sy | | | [ | ] my ey]; try (cbn; tauto).
  - cbn [PosNormal SFadd]. lia.
  - intros [Hdx Hx] [Hdy Hy] Hlo Hhi. unfold SFadd. cbn [cond_Zopp].
    split;
      [ | rewrite (Z.min_comm ey ex), (Z.add_comm (Z.pos (fst (shl_align my ey _))))];
      apply positive_sum_shape; auto.
Qed.

(** ** Division *)

Lemma SFdiv_Normal (a b c d : Z) (x y : spec_float) :
  Normal a b x -> Normal c d y -> -1021 <= a - d -> b - c <= 1022 ->
  Normal (a - d) (b - c + 2) (SFdiv prec emax x y).
Proof.
  destruct x as [ | | | sx mx ex]; try (cbn; tauto).
  destruct y as [ | | | sy my ey]; try (cbn; tauto).
  intros [Hdx Hx] [Hdy Hy] Hlo Hhi. unfold SFdiv, SFdiv_core_binary.
  cbn [Zdigits2]. rewrite Hdx, Hdy.
  replace (Z.min (fexp prec emax (53 + ex - (53 + ey))) (ex - ey)) with (ex - ey - 53)
    by (unfold fexp, SpecFloat.emin, prec, emax; lia).
  replace (ex - ey - (ex - ey - 53)) with 53 by lia. cbv iota.
  rewrite Z.shiftl_mul_pow2 by lia.
  pose proof (digits2_pos_bounds mx) as Hbx. rewrite Hdx in Hbx.
  pose proof (digits2_pos_bounds my) as Hby. rewrite Hdy in Hby.
  change (2 ^ (53 - 1)) with (2 ^ 52) in Hbx, Hby.
  assert (Hq : Z.pos mx * 2 ^ 53 / Z.pos my
               = fst (Z.div_eucl (Z.pos mx * 2 ^ 53) (Z.pos my))) by reflexivity.
  destruct (Z.div_eucl (Z.pos mx * 2 ^ 53) (Z.pos my)) as [q r]. cbn [fst] in Hq.
  assert (Hqb : 2 ^ 52 <= q < 2 ^ 54).
  { rewrite <- Hq. split.
    - apply Z.div_le_lower_bound; [lia | ]. change (2 ^ 53) with (2 * 2 ^ 52) in *. nia.
    - apply Z.div_lt_upper_bound; [lia | ].
      change (2 ^ 54) with (2 * 2 ^ 53). change (2 ^ 53) with (2 * 2 ^ 52) in *. nia. }
  destruct q as [ | q | q]; try lia.
  assert (Hdq : 53 <= Z.pos (digits2_pos q) <= 54).
  { split; [apply digits2_pos_ge | apply digits2_pos_le]; lia. }
  pose proof (binary_round_aux_shape (xorb sx sy) q (ex - ey - 53)
                (new_location (Z.pos my) r)) as H.
  cbv zeta in H.
  destruct (binary_round_aux prec emax (xorb sx sy) (Z.pos q) (ex - ey - 53)
              (new_location (Z.pos my) r)) as [s' | s' | | s' m' e'];
    cbn [Normal]; specialize (H ltac:(lia)); lia.
Qed.

(** ** Square root *)

Lemma SFsqrt_PosNormal (lo hi : Z) (x : spec_float) :
  PosNormal lo hi x -> -2000 <= lo -> hi <= 1024 ->
  PosNormal ((lo + 1) / 2) ((hi + 1) / 2 + 1) (SFsqrt prec emax x).
Proof.
  destruct x as [ | | | [ | ] mx ex]; try (cbn; tauto).
  intros [Hdx Hx] Hlo Hhi. unfold SFsqrt, SFsqrt_core_binary.
  cbn [Zdigits2]. rewrite Hdx. rewrite !Z.div2_div.
  set (h := (53 + ex + 1) / 2).
  assert (Hh : (lo + 1) / 2 <= h <= (hi + 1) / 2).
  { unfold h. split; apply Z.div_le_mono; lia. }
  assert (Hh2 : 2 * h <= 53 + ex + 1 <= 2 * h + 1).
  { unfold h. pose proof (Z.div_mod (53 + ex + 1) 2 ltac:(lia)).
    pose proof (Z.mod_pos_bound (53 + ex + 1) 2 ltac:(lia)). lia. }
  assert (Hlo2 : -1000 <= (lo + 1) / 2).
  { apply Z.div_le_lower_bound; lia. }
  assert (He2 : ex / 2 = h - 27).
  { unfold h. replace (53 + ex + 1) with (ex + 27 * 2) by lia.
    rewrite Z.div_add by lia. lia. }
  replace (Z.min (fexp prec emax h) (ex / 2)) with (h - 53)
    by (unfold fexp, SpecFloat.emin, prec, emax; lia).
  set (s := ex - 2 * (h - 53)).
  assert (Hs : s = 52 \/ s = 53) by (unfold s; lia).
  pose proof (digits2_pos_bounds mx) as Hbx. rewrite Hdx in Hbx.
  change (2 ^ (53 - 1)) with (2 ^ 52) in Hbx.
  assert (Hm : match s with
               | Z.pos _ => Z.shiftl (Z.pos mx) s
               | 0 => Z.pos mx
               | Z.neg _ => 0
               end = Z.pos mx * 2 ^ s).
  { destruct Hs as [-> | ->]; now rewrite Z.shiftl_mul_pow2 by lia. }
  rewrite Hm. clear Hm.
  assert (Hb : 2 ^ 104 <= Z.pos mx * 2 ^ s < 2 ^ 106).
  { destruct Hs as [-> | ->].
    - change (2 ^ 104) with (2 ^ 52 * 2 ^ 52). change (2 ^ 106) with (2 ^ 53 * 2 ^ 52 * 2).
      lia.
    - change (2 ^ 104) with (2 ^ 52 * 2 ^ 52). change (2 ^ 106) with (2 ^ 53 * 2 ^ 53).
      lia. }
  set (n := Z.pos mx * 2 ^ s) in *.
  pose proof (Z.sqrtrem_sqrt n) as Hsq.
  pose proof (Z.sqrt_spec n ltac:(lia)) as Hspec. cbv zeta in Hspec.
  destruct (Z.sqrtrem n) as [q r]. cbn [fst] in Hsq. subst q.
  assert (Hq : 2 ^ 52 <= Z.sqrt n < 2 ^ 53).
  { change (2 ^ 104) with (2 ^ 52 * 2 ^ 52) in Hb.
    change (2 ^ 106) with (2 ^ 53 * 2 ^ 53) in Hb.
    pose proof (Z.sqrt_nonneg n). split; nia. }
  destruct (Z.sqrt n) as [ | q | q]; try lia.
  assert (Hdq : Z.pos (digits2_pos q) = 53) by (apply digits2_pos_unique; simpl Z.sub; lia).
  match goal with
  | |- PosNormal _ _ (binary_round_aux _ _ _ _ _ ?l) =>
      pose proof (binary_round_aux_shape false q (h - 53) l) as H;
      cbv zeta in H; rewrite Hdq in H;
      destruct (binary_round_aux prec emax false (Z.pos q) (h - 53) l)
        as [s' | s' | | s' m' e']
  end; specialize (H ltac:(lia)); try lia.
  destruct H as (-> & Hd & He & Hn). cbn [PosNormal]. lia.
Qed.

(** ** Comparison *)

Lemma valid_binary_canonical (s : bool) (m : positive) (e : Z) :
  valid_binary (S754_finite s m e) = true ->
  e = Z.max (Z.pos (digits2_pos m) + e - 53) (-1074) /\ e <= 971.
Proof.
  unfold valid_binary, SpecFloat.valid_binary, bounded, canonical_mantissa, fexp,
    SpecFloat.emin, prec, emax.
  intros H. apply andb_true_iff in H. destruct H as [H1 H2].
  apply Z.eqb_eq in H1. apply Z.leb_le in H2. lia.
Qed.

(** What lies between two positive normal numbers is one. *)
Lemma between_PosNormal (a b c d : Z) (x y p : spec_float) :
  PosNormal a b x -> PosNormal c d y -> -1020 <= a ->
  valid_binary p = true ->
  SFleb x p = true -> SFleb p y = true ->
  PosNormal a d p.
Proof.
  destruct x as [ | | | [ | ] mx ex]; try (cbn; tauto).
  destruct y as [ | | | [ | ] my ey]; try (cbn; tauto).
  intros [Hdx Hx] [Hdy Hy] Hlo Hv Hxp Hpy.
  destruct p as [sp | [ | ] | | [ | ] mp ep]; try discriminate.
  apply valid_binary_canonical in Hv. cbn [PosNormal].
  unfold SFleb, SFcompare in Hxp, Hpy.
  destruct (Z.compare_spec ex ep); try discriminate;
    destruct (Z.compare_spec ep ey); try discriminate; lia.
Qed.

(** What lies between two bounded non-negative numbers is one. *)
Lemma between_Small (h : Z) (x y p : spec_float) :
  Small h x -> Small h y ->
  valid_binary p = true ->
  SFleb x p = true -> SFleb p y = true ->
  Small h p.
Proof.
  intros Hx Hy Hv Hxp Hpy.
  destruct p as [sp | [ | ] | | [ | ] mp ep]; try exact I;
    try (destruct x as [ | | | [ | ] mx ex]; try (cbn in Hx; tauto); discriminate);
    try (destruct y as [ | | | [ | ] my ey]; try (cbn in Hy; tauto); discriminate).
  apply valid_binary_canonical in Hv.
  destruct y as [ | | | [ | ] my ey]; try (cbn in Hy; tauto); try discriminate.
  cbn [Small] in *. unfold SFleb, SFcompare in Hpy.
  destruct (Z.compare_spec ep ey); try discriminate; lia.
Qed.

Lemma SFmul_ZN (a b c d : Z) (x y : spec_float) :
  ZN a b x -> ZN c d y -> -1020 <= a + c -> b + d <= 1023 ->
  ZN (a + c - 1) (b + d + 1) (SFmul prec emax x y).
Proof.
  intros Hx Hy Hlo Hhi.
  destruct x as [sx | | | sx mx ex]; try (cbn in Hx; tauto);
    destruct y as [sy | | | sy my ey]; try (cbn in Hy; tauto); try exact I.
  apply Normal_ZN. apply SFmul_Normal; assumption.
Qed.

Lemma SFadd_comm (x y : spec_float) : SFadd prec emax x y = SFadd prec emax y x.
Proof.
  destruct x as [[ | ] | [ | ] | | sx mx ex], y as [[ | ] | [ | ] | | sy my ey];
    try reflexivity.
  unfold SFadd. rewrite (Z.min_comm ex ey).
  rewrite (Z.add_comm (cond_Zopp sx _)). reflexivity.
Qed.

Lemma PosNormal_emag (lo hi : Z) (x : spec_float) :
  PosNormal lo hi x -> PosNormal (emag x) (emag x) x /\ lo <= emag x <= hi.
Proof. destruct x as [ | | | [ | ] m e]; cbn [PosNormal emag]; intuition lia. Qed.

Lemma PosNormal_of_emag (lo hi : Z) (x : spec_float) :
  PosNormal (emag x) (emag x) x -> lo <= emag x <= hi -> PosNormal lo hi x.
Proof. destruct x as [ | | | [ | ] m e]; cbn [PosNormal emag]; intuition lia. Qed.

(** The sum of two positive normal numbers is in the binade of the
    larger one, or one of the next two. *)
Lemma SFadd_PosNormal (lo hi : Z) (x y : spec_float) :
  PosNormal lo hi x -> PosNormal lo hi y -> -1021 <= lo -> hi <= 1021 ->
  PosNormal lo (hi + 2) (SFadd prec emax x y)
  /\ Z.max (emag x) (emag y) <= emag (SFadd prec emax x y) <= Z.max (emag x) (emag y) + 2.
Proof.
  intros Hx Hy Hlo Hhi.
  apply PosNormal_emag in Hx, Hy. destruct Hx as [Hx Hkx], Hy as [Hy Hky].
  destruct (SFadd_Small_PosNormal (emag x) (emag y) (emag y) x y) as [H1 _];
    [eapply PosNormal_Small; exact Hx | exact Hy | lia | lia | ].
  destruct (SFadd_Small_PosNormal (emag y) (emag x) (emag x) y x) as [_ H2];
    [eapply PosNormal_Small; exact Hy | exact Hx | lia | lia | ].
  apply PosNormal_emag in H1, H2. destruct H1 as [H1 Hk1], H2 as [_ Hk2].
  split; [ | lia]. eapply PosNormal_of_emag; [exact H1 | lia].
Qed.

(** The sum of three squares, as [sum] adds them: zero when all are,
    and otherwise within four binades above the largest. *)
Lemma sum3_shape (lo hi : Z) (a0 a1 a2 : spec_float) :
  ZPN lo hi a0 -> ZPN lo hi a1 -> ZPN lo hi a2 -> -1021 <= lo -> hi + 2 <= 1021 ->
  match SFadd prec emax (SFadd prec emax (SFadd prec emax (S754_zero false) a0) a1) a2 with
  | S754_zero _ => True
  | S754_finite false m e =>
      Z.pos (digits2_pos m) = 53
      /\ below a0 (53 + e) /\ below a1 (53 + e) /\ below a2 (53 + e)
      /\ (near a0 (53 + e) \/ near a1 (53 + e) \/ near a2 (53 + e))
  | _ => False
  end.
Proof.
  intros H0 H1 H2 Hlo Hhi.
  destruct a0 as [s0 | | | [ | ] m0 e0]; try (cbn in H0; tauto);
    destruct a1 as [s1 | | | [ | ] m1 e1]; try (cbn in H1; tauto);
    destruct a2 as [s2 | | | [ | ] m2 e2]; try (cbn in H2; tauto);
    cbn [ZPN] in H0, H1, H2.
  - now destruct s0, s1, s2.
  - destruct s0, s1; cbn [SFadd below near]; intuition lia.
  - destruct s0; cbn [SFadd below near]; intuition lia.
  - replace (SFadd prec emax (SFadd prec emax (S754_zero false) (S754_zero s0))
               (S754_finite false m1 e1))
      with (S754_finite false m1 e1) by now destruct s0.
    destruct (SFadd_PosNormal lo hi (S754_finite false m1 e1) (S754_finite false m2 e2))
      as [Hs Hk]; try (cbn [PosNormal]; lia).
    destruct (SFadd prec emax (S754_finite false m1 e1) (S754_finite false m2 e2))
      as [ | | | [ | ] m e]; try (cbn in Hs; tauto).
    cbn [PosNormal emag below near] in *. intuition lia.
  - cbn [SFadd below near]. intuition lia.
  - change (SFadd prec emax (SFadd prec emax (S754_zero false) (S754_finite false m0 e0))
              (S754_zero s1))
      with (S754_finite false m0 e0).
    destruct (SFadd_PosNormal lo hi (S754_finite false m0 e0) (S754_finite false m2 e2))
      as [Hs Hk]; try (cbn [PosNormal]; lia).
    destruct (SFadd prec emax (S754_finite false m0 e0) (S754_finite false m2 e2))
      as [ | | | [ | ] m e]; try (cbn in Hs; tauto).
    cbn [PosNormal emag below near] in *. intuition lia.
  - change (SFadd prec emax (S754_zero false) (S754_finite false m0 e0))
      with (S754_finite false m0 e0).
    destruct (SFadd_PosNormal lo hi (S754_finite false m0 e0) (S754_finite false m1 e1))
      as [Hs Hk]; try (cbn [PosNormal]; lia).
    destruct (SFadd prec emax (S754_finite false m0 e0) (S754_finite false m1 e1))
      as [ | | | [ | ] m e]; try (cbn in Hs; tauto).
    cbn [SFadd PosNormal emag below near] in *. intuition lia.
  - change (SFadd prec emax (S754_zero false) (S754_finite false m0 e0))
      with (S754_finite false m0 e0).
    destruct (SFadd_PosNormal lo hi (S754_finite false m0 e0) (S754_finite false m1 e1))
      as [Hs Hk]; try (cbn [PosNormal]; lia).
    destruct (SFadd prec emax (S754_finite false m0 e0) (S754_finite false m1 e1))
      as [ | | | [ | ] m e] eqn:E; try (cbn in Hs; tauto).
    destruct (SFadd_PosNormal lo (hi + 2) (S754_finite false m e) (S754_finite false m2 e2))
      as [Hs' Hk']; try (cbn [PosNormal] in *; lia).
    destruct (SFadd prec emax (S754_finite false m e) (S754_finite false m2 e2))
      as [ | | | [ | ] m' e']; try (cbn in Hs'; tauto).
    cbn [PosNormal emag below near] in *. intuition lia.
Qed.

(** Adding what is not negative to a positive normal number, an
    infinity or a nan leaves one of these. *)
Lemma SFadd_PosShape (lo : Z) (x y : spec_float) :
  PosShape lo x -> SFnonneg y -> -1021 <= lo ->
  PosShape lo (SFadd prec emax x y).
Proof.
  destruct x as [sx | [ | ] | | [ | ] mx ex]; try (cbn; tauto);
    destruct y as [sy | [ | ] | | [ | ] my ey]; try (cbn; tauto); try discriminate.
  intros [Hdx Hx] _ Hlo. unfold SFadd. cbn [cond_Zopp].
  pose proof (aligned_mantissa mx ex (Z.min ex ey) ltac:(lia)) as HA.
  pose proof (aligned_mantissa my ey (Z.min ex ey) ltac:(lia)) as HB.
  cbv zeta in HA, HB. rewrite Hdx in HA.
  set (A := Z.pos (fst (shl_align mx ex (Z.min ex ey)))) in *.
  set (B := Z.pos (fst (shl_align my ey (Z.min ex ey)))) in *.
  set (ez := Z.min ex ey) in *.
  assert (HB0 : 0 < B) by (unfold B; lia).
  destruct (digits2_pos_bounds (Z.to_pos (A + B))) as [_ Hup].
  rewrite Z2Pos.id in Hup by lia.
  pose proof (binary_normalize_shape (A + B) ez (53 + (ex - ez))
                (Z.pos (digits2_pos (Z.to_pos (A + B))))) as H.
  replace (53 - 1 + (ex - ez)) with (53 + (ex - ez) - 1) in HA by lia.
  specialize (H ltac:(lia) ltac:(lia) ltac:(lia)).
  destruct (binary_normalize prec emax (A + B) ez false) as [s' | s' | | s' m' e'];
    try lia.
  - destruct H as [Hs _]. replace (A + B <? 0) with false in Hs by lia. now subst s'.
  - destruct H as (Hs & Hd & He). replace (A + B <? 0) with false in Hs by lia. subst s'.
    cbn [PosShape]. lia.
Qed.

Lemma PosNormal_PosShape (lo hi : Z) (x : spec_float) : PosNormal lo hi x -> PosShape lo x.
Proof. destruct x as [ | | | [ | ] m e]; cbn [PosNormal PosShape]; intuition lia. Qed.

(** The sum of three non-negative numbers of which one is positive and
    normal is positive, an infinity or a nan. *)
Lemma sum3_PosShape (lo hi : Z) (b0 b1 b2 : spec_float) :
  SFnonneg b0 -> SFnonneg b1 -> SFnonneg b2 -> -1021 <= lo ->
  PosNormal lo hi b0 \/ PosNormal lo hi b1 \/ PosNormal lo hi b2 ->
  PosShape lo (SFadd prec emax (SFadd prec emax b0 b1) b2).
Proof.
  intros H0 H1 H2 Hlo [H | [H | H]]; apply PosNormal_PosShape in H.
  - apply SFadd_PosShape; [ | assumption | assumption].
    apply SFadd_PosShape; assumption.
  - apply SFadd_PosShape; [ | assumption | assumption].
    rewrite SFadd_comm. apply SFadd_PosShape; assumption.
  - rewrite SFadd_comm. apply SFadd_PosShape; [assumption | | assumption].
    destruct b0 as [ | [ | ] | | [ | ] ? ?], b1 as [ | [ | ] | | [ | ] ? ?];
      try discriminate; try exact I; try reflexivity.
    + now destruct s, s0.
    + unfold SFadd, binary_normalize, cond_Zopp.
      match goal with |- SFnonneg (match ?D with _ => _ end) =>
        assert (HD : 0 < D) by lia; destruct D as [ | p | p]; try lia end.
      unfold binary_round.
      destruct (shl_align _ _ _) as [mz ez'].
      unfold binary_round_aux.
      destruct (shr_fexp prec emax _ _ loc_Exact) as [mrs' e'].
      destruct (shr_fexp prec emax _ e' loc_Exact) as [mrs'' e''].
      destruct (shr_m mrs'') as [ | q | q]; try exact I.
      now destruct (e'' <=? emax - prec).
Qed.

Lemma ZNF_cases (lo hi : Z) (x : spec_float) : ZNF lo hi x -> ZN lo hi x \/ NF x.
Proof. destruct x; cbn [ZNF ZN NF]; tauto. Qed.

Lemma SFsub_ZNF (lo hi : Z) (x y : spec_float) :
  ZNF lo hi x -> ZNF lo hi y -> -969 <= lo -> hi <= 1021 ->
  ZNF (lo - 52) (hi + 2) (SFsub prec emax x y).
Proof.
  intros Hx Hy Hlo Hhi.
  destruct (ZNF_cases _ _ _ Hx) as [Hx' | Hx']; destruct (ZNF_cases _ _ _ Hy) as [Hy' | Hy'].
  - pose proof (SFsub_ZN lo hi x y Hx' Hy' Hlo Hhi) as H.
    destruct (SFsub prec emax x y); cbn [ZN ZNF] in *; tauto.
  - destruct x as [ | [ | ] | | ], y as [ | [ | ] | | ]; cbn in Hy' |- *; tauto.
  - destruct x as [ | [ | ] | | ], y as [ | [ | ] | | ]; cbn in Hx' |- *; tauto.
  - destruct x as [ | [ | ] | | ], y as [ | [ | ] | | ]; cbn in Hx' |- *; tauto.
Qed.

Lemma SFmul_ZNF (a b c d : Z) (x y : spec_float) :
  ZNF a b x -> ZNF c d y -> -1020 <= a + c -> b + d <= 1023 ->
  ZNF (a + c - 1) (b + d + 1) (SFmul prec emax x y).
Proof.
  intros Hx Hy Hlo Hhi.
  destruct (ZNF_cases _ _ _ Hx) as [Hx' | Hx']; destruct (ZNF_cases _ _ _ Hy) as [Hy' | Hy'].
  - pose proof (SFmul_ZN a b c d x y Hx' Hy' Hlo Hhi) as H.
    destruct (SFmul prec emax x y); cbn [ZN ZNF] in *; tauto.
  - destruct x as [ | [ | ] | | ], y as [ | [ | ] | | ]; cbn in Hy' |- *; tauto.
  - destruct x as [ | [ | ] | | ], y as [ | [ | ] | | ]; cbn in Hx' |- *; tauto.
  - destruct x as [ | [ | ] | | ], y as [ | [ | ] | | ]; cbn in Hx' |- *; tauto.
Qed.

(** ** Single-precision coordinates *)

Lemma odd_part_mag (m : positive) :
  forall (e : Z) (m' : positive) (e' : Z),
    odd_part m e = (m', e') ->
    Z.pos (Pos.size m') + e' = Z.pos (Pos.size m) + e /\ e <= e'.
Proof.
  induction m as [m IH | m IH | ]; intros e m' e' H; cbn [odd_part] in H.
  - injection H as <- <-. lia.
  - apply IH in H. cbn [Pos.size]. lia.
  - injection H as <- <-. lia.
Qed.

Lemma is_single_ZNF (x : float) : is_single x = true -> ZNF (-148) 128 (Prim2SF x).
Proof.
  unfold is_single. pose proof (Prim2SF_valid x) as Hv.
  destruct (Prim2SF x) as [ | | | s m e]; try (intros _; exact I).
  destruct (odd_part m e) as [m' e'] eqn:E. apply odd_part_mag in E.
  intros H. apply andb_true_iff in H. destruct H as [H H3].
  apply andb_true_iff in H. destruct H as [H1 H2].
  apply Z.leb_le in H1, H2, H3.
  apply valid_binary_canonical in Hv. rewrite digits2_pos_size in Hv.
  cbn [ZNF]. rewrite digits2_pos_size.
  assert (0 < Z.pos (Pos.size m')) by lia. lia.
Qed.
End Magnitudes.

(** ** The magnitude of a square *)

Section Squares.
Local Open Scope Z_scope.
Local Unset Implicit Arguments.
Variable pow_error : float -> comparison.

Lemma Normal_nonneg (lo hi : Z) (x : spec_float) :
  Normal lo hi x -> SFnonneg x -> PosNormal lo hi x.
Proof. destruct x as [ | | | [ | ] m e]; cbn; try tauto. discriminate. Qed.

Lemma Bounded_nonneg (h : Z) (x : spec_float) :
  Bounded h x -> SFnonneg x -> Small h x.
Proof. destruct x as [ | | | [ | ] m e]; cbn; try tauto. discriminate. Qed.

Lemma Bounded_weaken (h h' : Z) (x : spec_float) : Bounded h x -> h <= h' -> Bounded h' x.
Proof. destruct x as [ | | | s m e]; cbn [Bounded]; intuition lia. Qed.

Lemma half_Normal : Normal 0 0 (Prim2SF 0.5).
Proof. cbn. split; [reflexivity | lia]. Qed.

Lemma two_Normal : Normal 2 2 (Prim2SF 2).
Proof. cbn. split; [reflexivity | lia]. Qed.

(** The two outcomes of the bound on libm's error. *)
Lemma libm_pow2_cases (x : float) :
  PyFloat.libm_pow2 pow_error x = (x * x)%float
  \/ (SFleb (Prim2SF (x * x * 0.5)%float) (Prim2SF (PyFloat.libm_pow2 pow_error x)) = true
      /\ SFleb (Prim2SF (PyFloat.libm_pow2 pow_error x)) (Prim2SF (x * x * 2)%float) = true).
Proof.
  unfold PyFloat.libm_pow2.
  set (p := match pow_error x with
            | Eq => (x * x)%float
            | Lt => next_down (x * x)
            | Gt => next_up (x * x)
            end).
  destruct (x * x * 0.5 <=? p)%float eqn:E1; cbn [andb]; [ | now left].
  destruct (p <=? x * x * 2)%float eqn:E2; [ | now left].
  right. rewrite leb_spec in E1, E2. now split.
Qed.

(** The square of a normal number [x < 2^k] is a normal number between
    [2^(2k-3)] and [2^(2k+4)]. *)
Lemma libm_pow2_PosNormal (k : Z) (x : float) :
  PosNormal k k (Prim2SF x) -> -500 <= k <= 500 ->
  PosNormal (2 * k - 2) (2 * k + 4) (Prim2SF (PyFloat.libm_pow2 pow_error x)).
Proof.
  intros Hx Hk.
  assert (Hr : PosNormal (2 * k - 1) (2 * k + 1) (Prim2SF (x * x)%float)).
  { apply Normal_nonneg; [ | rewrite mul_spec; apply SFmul_self_nonneg].
    rewrite mul_spec. apply PosNormal_Normal in Hx.
    eapply Normal_weaken; [apply (SFmul_Normal k k k k); try assumption; lia | lia | lia]. }
  destruct (libm_pow2_cases x) as [-> | [H1 H2]].
  - eapply PosNormal_weaken; [exact Hr | lia | lia].
  - apply between_PosNormal
      with (b := 2 * k + 2) (c := 2 * k) (x := Prim2SF (x * x * 0.5)%float)
           (y := Prim2SF (x * x * 2)%float); try assumption; try lia.
    + apply Normal_nonneg.
      * rewrite mul_spec.
        eapply Normal_weaken;
          [apply (SFmul_Normal (2 * k - 1) (2 * k + 1) 0 0);
           [apply PosNormal_Normal; exact Hr | exact half_Normal | lia | lia] | lia | lia].
      * rewrite mul_spec. apply SFmul_nonneg; [ | reflexivity].
        rewrite mul_spec. apply SFmul_self_nonneg.
    + apply Normal_nonneg.
      * rewrite mul_spec.
        eapply Normal_weaken;
          [apply (SFmul_Normal (2 * k - 1) (2 * k + 1) 2 2);
           [apply PosNormal_Normal; exact Hr | exact two_Normal | lia | lia] | lia | lia].
      * rewrite mul_spec. apply SFmul_nonneg; [ | reflexivity].
        rewrite mul_spec. apply SFmul_self_nonneg.
    + apply Prim2SF_valid.
Qed.

Lemma abs_Normal (lo hi : Z) (x : float) :
  Normal lo hi (Prim2SF x) -> PosNormal lo hi (Prim2SF (abs x)).
Proof. rewrite abs_spec. destruct (Prim2SF x) as [ | | | s m e]; cbn; tauto. Qed.

Lemma float_pow2_PosNormal (k : Z) (x : float) :
  Normal k k (Prim2SF x) -> -500 <= k <= 500 ->
  PosNormal (2 * k - 2) (2 * k + 4) (Prim2SF (PyFloat.float_pow2 pow_error x)).
Proof.
  intros Hx Hk. unfold PyFloat.float_pow2.
  destruct (is_nan x || is_infinity x || is_zero x || (abs x =? 1)%float).
  - apply Normal_nonneg; [ | rewrite mul_spec; apply SFmul_self_nonneg].
    rewrite mul_spec.
    eapply Normal_weaken; [apply (SFmul_Normal k k k k); try assumption; lia | lia | lia].
  - apply libm_pow2_PosNormal; [ | exact Hk]. now apply abs_Normal.
Qed.

(** The square of a zero is a zero. *)
Lemma SFleb_zero_zero (s s' : bool) (p : spec_float) :
  SFleb (S754_zero s) p = true -> SFleb p (S754_zero s') = true ->
  exists s'', p = S754_zero s''.
Proof.
  destruct p as [sp | [ | ] | | [ | ] m e]; try discriminate. intros _ _. now exists sp.
Qed.

Lemma float_pow2_zero (x : float) (s : bool) :
  Prim2SF x = S754_zero s ->
  exists s', Prim2SF (PyFloat.float_pow2 pow_error x) = S754_zero s'.
Proof.
  intros Hx. unfold PyFloat.float_pow2.
  destruct (is_nan x || is_infinity x || is_zero x || (abs x =? 1)%float).
  - rewrite mul_spec, Hx. now exists (xorb s s).
  - assert (Hr : Prim2SF (abs x * abs x)%float = S754_zero false)
      by (now rewrite mul_spec, abs_spec, Hx).
    destruct (libm_pow2_cases (abs x)) as [-> | [H1 H2]].
    + now exists false.
    + rewrite mul_spec, Hr in H1, H2. apply (SFleb_zero_zero _ _ _ H1 H2).
Qed.

(** The square of a number below [2^3] is below [2^10]. *)
Lemma libm_pow2_Small (lo : Z) (x : float) :
  PosNormal lo 3 (Prim2SF x) ->
  Small 10 (Prim2SF (PyFloat.libm_pow2 pow_error x)).
Proof.
  intros Hx.
  assert (Hr : Small 7 (Prim2SF (x * x)%float)).
  { apply Bounded_nonneg; [ | rewrite mul_spec; apply SFmul_self_nonneg].
    rewrite mul_spec. apply PosNormal_Normal in Hx.
    apply (SFmul_Bounded 3 lo 3); [eapply Normal_Bounded; exact Hx | exact Hx | lia]. }
  assert (Hb : Bounded 7 (Prim2SF (x * x)%float)).
  { destruct (Prim2SF (x * x)%float) as [ | | | [ | ] m e]; cbn in Hr |- *; tauto. }
  destruct (libm_pow2_cases x) as [-> | [H1 H2]].
  - eapply Small_weaken; [exact Hr | lia].
  - apply between_Small
      with (x := Prim2SF (x * x * 0.5)%float) (y := Prim2SF (x * x * 2)%float);
      try assumption.
    + apply Bounded_nonneg.
      * rewrite mul_spec.
        eapply Bounded_weaken;
          [apply (SFmul_Bounded 7 0 0 _ _ Hb half_Normal); lia | lia].
      * rewrite mul_spec. apply SFmul_nonneg; [ | reflexivity].
        rewrite mul_spec. apply SFmul_self_nonneg.
    + apply Bounded_nonneg.
      * rewrite mul_spec.
        eapply Bounded_weaken;
          [apply (SFmul_Bounded 7 2 2 _ _ Hb two_Normal); lia | lia].
      * rewrite mul_spec. apply SFmul_nonneg; [ | reflexivity].
        rewrite mul_spec. apply SFmul_self_nonneg.
    + apply Prim2SF_valid.
Qed.

Lemma float_pow2_Small (lo : Z) (x : float) :
  ZN lo 3 (Prim2SF x) ->
  Small 10 (Prim2SF (PyFloat.float_pow2 pow_error x)).
Proof.
  intros Hx.
  destruct (Prim2SF x) as [s | | | s m e] eqn:E; try (cbn in Hx; tauto).
  - destruct (float_pow2_zero x s E) as [s' ->]. exact I.
  - unfold PyFloat.float_pow2.
    destruct (is_nan x || is_infinity x || is_zero x || (abs x =? 1)%float).
    + apply Small_weaken with 7; [ | lia].
      apply Bounded_nonneg; [ | rewrite mul_spec; apply SFmul_self_nonneg].
      rewrite mul_spec, E.
      apply (SFmul_Bounded 3 lo 3); [cbn [ZN Bounded] in *; lia | exact Hx | lia].
    + apply libm_pow2_Small with lo. apply abs_Normal. now rewrite E.
Qed.

(** The square of a nan or an infinity is one. *)
Lemma float_pow2_NF (x : float) :
  NF (Prim2SF x) -> NF (Prim2SF (PyFloat.float_pow2 pow_error x)).
Proof.
  intros Hx.
  assert (Hm : forall y : float, NF (Prim2SF y) -> NF (Prim2SF (y * y)%float)).
  { intros y Hy. rewrite mul_spec. destruct (Prim2SF y); cbn in Hy |- *; tauto. }
  unfold PyFloat.float_pow2.
  destruct (is_nan x || is_infinity x || is_zero x || (abs x =? 1)%float);
    [now apply Hm | ].
  assert (Ha : match Prim2SF (abs x) with
               | S754_nan | S754_infinity false => True
               | _ => False
               end).
  { rewrite abs_spec. destruct (Prim2SF x); cbn in Hx |- *; tauto. }
  destruct (libm_pow2_cases (abs x)) as [-> | [H1 _]].
  - apply Hm. destruct (Prim2SF (abs x)) as [ | [ | ] | | ]; cbn in Ha |- *; tauto.
  - rewrite !mul_spec in H1.
    destruct (Prim2SF (abs x)) as [ | [ | ] | | ]; try (cbn in Ha; tauto).
    + change (Prim2SF 0.5) with (S754_finite false 4503599627370496 (-53)) in H1.
      cbn [SFmul xorb] in H1.
      destruct (Prim2SF (PyFloat.libm_pow2 pow_error (abs x))) as [ | [ | ] | | [ | ] ? ?];
        try discriminate; exact I.
    + discriminate.
Qed.

(** No square of a number below [2^3], or of a nan, overflows. *)
Lemma is_infinity_inv (y : float) :
  is_infinity y = true -> exists s, Prim2SF y = S754_infinity s.
Proof.
  unfold is_infinity. rewrite eqb_spec, abs_spec.
  destruct (Prim2SF y) as [s | s | | s m e]; try discriminate. intros _. now exists s.
Qed.

Lemma is_nan_nan (x : float) : Prim2SF x = S754_nan -> is_nan x = true.
Proof. intros H. unfold is_nan. rewrite eqb_spec, H. reflexivity. Qed.

Lemma overflows_ZN (lo : Z) (x : float) :
  ZN lo 3 (Prim2SF x) -> PyFloat.overflows pow_error x = false.
Proof.
  intros Hx. unfold PyFloat.overflows.
  destruct (is_infinity (PyFloat.float_pow2 pow_error x)) eqn:E;
    [ | apply andb_false_r].
  apply is_infinity_inv in E. destruct E as [s E].
  pose proof (float_pow2_Small lo x Hx) as H. rewrite E in H. destruct H.
Qed.

Lemma overflows_nan (x : float) :
  Prim2SF x = S754_nan -> PyFloat.overflows pow_error x = false.
Proof.
  intros Hx. unfold PyFloat.overflows, is_finite. now rewrite (is_nan_nan x Hx).
Qed.
End Squares.

(** ** The two normalizations *)

Section Normalizations.
Local Open Scope Z_scope.
Local Unset Implicit Arguments.
Variable pow_error : float -> comparison.

Lemma float_pow2_link (c : float) :
  ZN (-456) 263 (Prim2SF c) ->
  square_link (Prim2SF c) (Prim2SF (PyFloat.float_pow2 pow_error c)).
Proof.
  intros Hc. destruct (Prim2SF c) as [s | | | s m e] eqn:E; try (cbn in Hc; tauto).
  - destruct (float_pow2_zero pow_error c s E) as [s' ->]. exact I.
  - cbn [ZN] in Hc.
    pose proof (float_pow2_PosNormal pow_error (53 + e) c) as H. rewrite E in H.
    specialize (H ltac:(cbn [Normal]; lia) ltac:(lia)).
    destruct (Prim2SF (PyFloat.float_pow2 pow_error c)) as [ | | | [ | ] m' e'];
      cbn [PosNormal square_link] in *; intuition lia.
Qed.

Lemma square_link_ZPN (C A : spec_float) : square_link C A -> ZPN (-914) 530 A.
Proof.
  destruct C as [ | | | s m e], A as [ | | | [ | ] m' e']; cbn [square_link ZPN]; intuition lia.
Qed.

(** A component divided by the length. *)
Lemma quotient_shape (C A L : spec_float) (kS : Z) :
  square_link C A ->
  PosNormal ((kS + 1) / 2) ((kS + 1) / 2 + 1) L -> -914 <= kS <= 540 ->
  below A kS ->
  ZN (-800) 3 (SFdiv prec emax C L)
  /\ (near A kS -> Normal (-5) 3 (SFdiv prec emax C L)).
Proof.
  intros Hlink HL HkS Hbelow.
  destruct C as [s | | | s m e]; try (cbn in Hlink; tauto);
    destruct A as [s' | | | [ | ] m' e']; try (cbn in Hlink; tauto).
  - destruct L as [ | | | [ | ] mL eL]; cbn [PosNormal SFdiv ZN near] in *; tauto.
  - cbn [square_link below near] in *.
    assert (Hd : Normal (53 + e - ((kS + 1) / 2 + 1)) (53 + e - (kS + 1) / 2 + 2)
                   (SFdiv prec emax (S754_finite s m e) L)).
    { apply SFdiv_Normal.
      - cbn [Normal]. lia.
      - apply PosNormal_Normal. exact HL.
      - Z.div_mod_to_equations. lia.
      - Z.div_mod_to_equations. lia. }
    split.
    + apply Normal_ZN.
      eapply Normal_weaken; [exact Hd | Z.div_mod_to_equations; lia ..].
    + intros Hnear.
      eapply Normal_weaken; [exact Hd | Z.div_mod_to_equations; lia ..].
Qed.

Lemma eqb_zero_false (y : float) :
  match Prim2SF y with S754_zero _ => False | _ => True end -> (y =? 0)%float = false.
Proof.
  rewrite eqb_spec. change (Prim2SF 0) with (S754_zero false).
  destruct (Prim2SF y) as [ | [ | ] | | [ | ] m e]; try reflexivity. tauto.
Qed.

Lemma sqrt_zero (S : float) (s : bool) :
  Prim2SF S = S754_zero s -> (sqrt S =? 0)%float = true.
Proof. intros H. rewrite eqb_spec, sqrt_spec, H. reflexivity. Qed.

(** The first normalization of a cross product with finite components:
    no component of the result is above [2^3], and one is above
    [2^-6]. *)
Lemma first_normalization_finite (c0 c1 c2 : float) :
  ZN (-456) 263 (Prim2SF c0) -> ZN (-456) 263 (Prim2SF c1) -> ZN (-456) 263 (Prim2SF c2) ->
  let L := sqrt (0 + PyFloat.float_pow2 pow_error c0 + PyFloat.float_pow2 pow_error c1
                 + PyFloat.float_pow2 pow_error c2)%float in
  (L =? 0)%float = false ->
  (ZN (-800) 3 (Prim2SF (c0 / L)%float) /\ ZN (-800) 3 (Prim2SF (c1 / L)%float)
   /\ ZN (-800) 3 (Prim2SF (c2 / L)%float))
  /\ (Normal (-5) 3 (Prim2SF (c0 / L)%float) \/ Normal (-5) 3 (Prim2SF (c1 / L)%float)
      \/ Normal (-5) 3 (Prim2SF (c2 / L)%float)).
Proof.
  intros H0 H1 H2 L HL.
  pose proof (float_pow2_link c0 H0) as K0.
  pose proof (float_pow2_link c1 H1) as K1.
  pose proof (float_pow2_link c2 H2) as K2.
  pose proof (sum3_shape (-914) 530 _ _ _ (square_link_ZPN _ _ K0) (square_link_ZPN _ _ K1)
                (square_link_ZPN _ _ K2) ltac:(lia) ltac:(lia)) as HS.
  assert (ES : Prim2SF (0 + PyFloat.float_pow2 pow_error c0 + PyFloat.float_pow2 pow_error c1
                        + PyFloat.float_pow2 pow_error c2)%float
               = SFadd prec emax
                   (SFadd prec emax
                      (SFadd prec emax (S754_zero false)
                         (Prim2SF (PyFloat.float_pow2 pow_error c0)))
                      (Prim2SF (PyFloat.float_pow2 pow_error c1)))
                   (Prim2SF (PyFloat.float_pow2 pow_error c2)))
    by (rewrite !add_spec; reflexivity).
  rewrite <- ES in HS.
  set (S := (0 + PyFloat.float_pow2 pow_error c0 + PyFloat.float_pow2 pow_error c1
             + PyFloat.float_pow2 pow_error c2)%float) in *.
  destruct (Prim2SF S) as [s | | | [ | ] mS eS] eqn:E; try tauto.
  - unfold L in HL. rewrite (sqrt_zero S s E) in HL. discriminate.
  - destruct HS as (HdS & B0 & B1 & B2 & Hnear).
    set (kS := 53 + eS) in *.
    assert (HkS : -914 <= kS <= 540).
    { pose proof (square_link_ZPN _ _ K0) as Z0.
      pose proof (square_link_ZPN _ _ K1) as Z1.
      pose proof (square_link_ZPN _ _ K2) as Z2.
      destruct (Prim2SF (PyFloat.float_pow2 pow_error c0)) as [ | | | [ | ] ? ?],
               (Prim2SF (PyFloat.float_pow2 pow_error c1)) as [ | | | [ | ] ? ?],
               (Prim2SF (PyFloat.float_pow2 pow_error c2)) as [ | | | [ | ] ? ?];
        cbn [ZPN below near] in *; try tauto; lia. }
    assert (HLs : PosNormal ((kS + 1) / 2) ((kS + 1) / 2 + 1) (Prim2SF L)).
    { unfold L. rewrite sqrt_spec, E.
      apply (SFsqrt_PosNormal kS kS); [cbn [PosNormal]; unfold kS; lia | lia | lia]. }
    destruct (quotient_shape _ _ _ kS K0 HLs HkS B0) as [Q0 N0].
    destruct (quotient_shape _ _ _ kS K1 HLs HkS B1) as [Q1 N1].
    destruct (quotient_shape _ _ _ kS K2 HLs HkS B2) as [Q2 N2].
    rewrite !div_spec. split; [tauto | ]. tauto.
Qed.

(** The first normalization of a cross product with a component that is
    not finite: zeros and nans, of which one is a nan. *)
Lemma SFadd_NF (x y : spec_float) :
  NF x \/ NF y -> NF (SFadd prec emax x y).
Proof.
  destruct x as [ | [ | ] | | ], y as [ | [ | ] | | ]; cbn; tauto.
Qed.

Lemma SFdiv_NF (x y : spec_float) :
  NF y -> ZNan (SFdiv prec emax x y) /\ (NF x -> SFdiv prec emax x y = S754_nan).
Proof.
  destruct x as [ | [ | ] | | ], y as [ | [ | ] | | ]; cbn; tauto.
Qed.

Lemma first_normalization_NF (c0 c1 c2 : float) :
  NF (Prim2SF c0) \/ NF (Prim2SF c1) \/ NF (Prim2SF c2) ->
  let L := sqrt (0 + PyFloat.float_pow2 pow_error c0 + PyFloat.float_pow2 pow_error c1
                 + PyFloat.float_pow2 pow_error c2)%float in
  (ZNan (Prim2SF (c0 / L)%float) /\ ZNan (Prim2SF (c1 / L)%float)
   /\ ZNan (Prim2SF (c2 / L)%float))
  /\ (Prim2SF (c0 / L)%float = S754_nan \/ Prim2SF (c1 / L)%float = S754_nan
      \/ Prim2SF (c2 / L)%float = S754_nan).
Proof.
  intros H L.
  assert (HL : NF (Prim2SF L)).
  { unfold L. rewrite sqrt_spec.
    assert (HS : NF (Prim2SF (0 + PyFloat.float_pow2 pow_error c0
                              + PyFloat.float_pow2 pow_error c1
                              + PyFloat.float_pow2 pow_error c2)%float)).
    { rewrite !add_spec. destruct H as [H | [H | H]];
        apply (float_pow2_NF pow_error) in H.
      - apply SFadd_NF. left. apply SFadd_NF. left. apply SFadd_NF. now right.
      - apply SFadd_NF. left. apply SFadd_NF. now right.
      - apply SFadd_NF. now right. }
    unfold SF64sqrt.
    match goal with
    | |- NF (SFsqrt _ _ ?t) => destruct t as [ | [ | ] | | ]; cbn in HS |- *; tauto
    end. }
  rewrite !div_spec.
  destruct (SFdiv_NF (Prim2SF c0) _ HL) as [Z0 N0].
  destruct (SFdiv_NF (Prim2SF c1) _ HL) as [Z1 N1].
  destruct (SFdiv_NF (Prim2SF c2) _ HL) as [Z2 N2].
  split; [tauto | ]. tauto.
Qed.

(** The second normalization *)

Lemma sqrt_not_zero (lo : Z) (T : float) :
  PosShape lo (Prim2SF T) \/ NF (Prim2SF T) -> -2000 <= lo ->
  (sqrt T =? 0)%float = false.
Proof.
  intros H Hlo. apply eqb_zero_false. rewrite sqrt_spec. unfold SF64sqrt.
  pose proof (Prim2SF_valid T) as Hv.
  destruct (Prim2SF T) as [ | [ | ] | | [ | ] m e]; try exact I;
    try (cbn in H; tauto).
  destruct H as [[Hd He] | []].
  apply valid_binary_canonical in Hv.
  pose proof (SFsqrt_PosNormal lo 1024 (S754_finite false m e)) as H.
  specialize (H ltac:(cbn [PosNormal]; lia) Hlo ltac:(lia)).
  destruct (SFsqrt prec emax (S754_finite false m e)); cbn in H |- *; tauto.
Qed.

Lemma normalized_normal_Ok (normal : Vector.t) :
  PyFloat.overflows pow_error normal.[0] = false ->
  PyFloat.overflows pow_error normal.[1] = false ->
  PyFloat.overflows pow_error normal.[2] = false ->
  (sqrt (PyFloat.float_pow2 pow_error normal.[0] + PyFloat.float_pow2 pow_error normal.[1]
         + PyFloat.float_pow2 pow_error normal.[2]) =? 0)%float = false ->
  exists unit, normalized_normal pow_error normal = Ok unit.
Proof.
  intros H0 H1 H2 HT.
  unfold normalized_normal, PyFloat.pow2, PyFloat.math_sqrt, PyFloat.truediv, Vector.initM.
  rewrite H0, H1, H2. cbn [bind]. rewrite squares_not_negative. cbn [bind].
  rewrite HT. cbn [bind]. eexists. reflexivity.
Qed.

Lemma second_normalization_finite (n0 n1 n2 : float) :
  ZN (-800) 3 (Prim2SF n0) -> ZN (-800) 3 (Prim2SF n1) -> ZN (-800) 3 (Prim2SF n2) ->
  Normal (-5) 3 (Prim2SF n0) \/ Normal (-5) 3 (Prim2SF n1) \/ Normal (-5) 3 (Prim2SF n2) ->
  exists unit, normalized_normal pow_error (Vector.make n0 n1 n2) = Ok unit.
Proof.
  intros H0 H1 H2 HN. apply normalized_normal_Ok;
    cbn [Vector.getitem Vector.x Vector.y Vector.z];
    try (eapply overflows_ZN; eassumption).
  apply sqrt_not_zero with (-12); [ | lia]. left. rewrite !add_spec.
  assert (Hsq : forall n : float,
             Normal (-5) 3 (Prim2SF n) ->
             PosNormal (-12) 10 (Prim2SF (PyFloat.float_pow2 pow_error n))).
  { intros n Hn.
    destruct (Prim2SF n) as [ | | | s m e] eqn:E; try (cbn in Hn; tauto).
    pose proof (float_pow2_PosNormal pow_error (53 + e) n) as H. rewrite E in H.
    cbn [Normal] in Hn. specialize (H ltac:(cbn [Normal]; lia) ltac:(lia)).
    eapply PosNormal_weaken; [exact H | lia | lia]. }
  apply sum3_PosShape with 10; try apply float_pow2_nonneg; [lia | ].
  destruct HN as [H | [H | H]]; apply Hsq in H; tauto.
Qed.

Lemma second_normalization_NF (n0 n1 n2 : float) :
  ZNan (Prim2SF n0) -> ZNan (Prim2SF n1) -> ZNan (Prim2SF n2) ->
  Prim2SF n0 = S754_nan \/ Prim2SF n1 = S754_nan \/ Prim2SF n2 = S754_nan ->
  exists unit, normalized_normal pow_error (Vector.make n0 n1 n2) = Ok unit.
Proof.
  intros H0 H1 H2 HN.
  assert (Hov : forall n : float, ZNan (Prim2SF n) -> PyFloat.overflows pow_error n = false).
  { intros n Hn. destruct (Prim2SF n) as [ | | | ] eqn:E; try (cbn in Hn; tauto).
    - apply overflows_ZN with 0. now rewrite E.
    - now apply overflows_nan. }
  apply normalized_normal_Ok;
    cbn [Vector.getitem Vector.x Vector.y Vector.z]; try (now apply Hov).
  apply sqrt_not_zero with 0; [ | lia]. right. rewrite !add_spec.
  assert (Hsq : forall n : float,
             Prim2SF n = S754_nan -> NF (Prim2SF (PyFloat.float_pow2 pow_error n))).
  { intros n Hn. apply float_pow2_NF. now rewrite Hn. }
  destruct HN as [H | [H | H]]; apply Hsq in H.
  - apply SFadd_NF. left. apply SFadd_NF. now left.
  - apply SFadd_NF. left. apply SFadd_NF. now right.
  - apply SFadd_NF. now right.
Qed.

(** A normal that the first normalization returns for a cross product
    within the range of single-precision coordinates is normalized again
    without an exception. *)
Lemma renormalization_total (c0 c1 c2 : float) :
  ZNF (-456) 263 (Prim2SF c0) -> ZNF (-456) 263 (Prim2SF c1) -> ZNF (-456) 263 (Prim2SF c2) ->
  let L := sqrt (0 + PyFloat.float_pow2 pow_error c0 + PyFloat.float_pow2 pow_error c1
                 + PyFloat.float_pow2 pow_error c2)%float in
  (L =? 0)%float = false ->
  exists unit,
    normalized_normal pow_error (Vector.make (c0 / L) (c1 / L) (c2 / L))%float = Ok unit.
Proof.
  intros H0 H1 H2 L HL.
  destruct (ZNF_cases _ _ _ H0) as [Z0 | N0];
    [ | destruct (first_normalization_NF c0 c1 c2 (or_introl N0)) as [(A & B & C) D];
        now apply second_normalization_NF].
  destruct (ZNF_cases _ _ _ H1) as [Z1 | N1];
    [ | destruct (first_normalization_NF c0 c1 c2 (or_intror (or_introl N1)))
          as [(A & B & C) D];
        now apply second_normalization_NF].
  destruct (ZNF_cases _ _ _ H2) as [Z2 | N2];
    [ | destruct (first_normalization_NF c0 c1 c2 (or_intror (or_intror N2)))
          as [(A & B & C) D];
        now apply second_normalization_NF].
  destruct (first_normalization_finite c0 c1 c2 Z0 Z1 Z2 HL) as [(A & B & C) D].
  now apply second_normalization_finite.
Qed.
End Normalizations.

(** ** Dictionaries *)

Section DictFacts.
Variables (K V : Type) (eqb : K -> K -> bool).
Hypothesis eqb_eq : forall a b, eqb a b = true <-> a = b.

Lemma dict_get_None (k : K) (d : Dict.t K V) :
  Dict.get eqb k d = None <-> ~ In k (Dict.keys d).
Proof.
  induction d as [ | [k' v] d IH]; simpl.
  - tauto.
  - destruct (eqb k k') eqn:E.
    + apply eqb_eq in E. subst. split; [discriminate | tauto].
    + assert (k' <> k) by (intros ->; rewrite (proj2 (eqb_eq k k) eq_refl) in E; discriminate).
      tauto.
Qed.

Lemma dict_get_app (k : K) (d d' : Dict.t K V) :
  Dict.get eqb k (d ++ d') =
  match Dict.get eqb k d with
  | Some v => Some v
  | None => Dict.get eqb k d'
  end.
Proof.
  induction d as [ | [k' v] d IH]; simpl; [reflexivity | ].
  destruct (eqb k k'); [reflexivity | exact IH].
Qed.

Lemma dict_get_In (k : K) (v : V) (d : Dict.t K V) :
  Dict.get eqb k d = Some v -> In (k, v) d.
Proof.
  induction d as [ | [k' v'] d IH]; simpl; [discriminate | ].
  destruct (eqb k k') eqn:E.
  - apply eqb_eq in E. intros [= ->]. left. now subst.
  - auto.
Qed.

Lemma dict_In_get (k : K) (v : V) (d : Dict.t K V) :
  NoDup (Dict.keys d) -> In (k, v) d -> Dict.get eqb k d = Some v.
Proof.
  induction d as [ | [k' v'] d IH]; simpl; [tauto | ].
  intros Hnd [[= -> ->] | Hin].
  - now rewrite (proj2 (eqb_eq k k) eq_refl).
  - inversion Hnd as [ | ? ? Hnotin Hnd']; subst.
    destruct (eqb k k') eqn:E.
    + apply eqb_eq in E. subst. exfalso. apply Hnotin.
      change k' with (fst (k', v)). now apply in_map.
    + auto.
Qed.

Lemma dict_mem_In (k : K) (l : list K) : Dict.mem eqb k l = true <-> In k l.
Proof.
  induction l as [ | k' l IH]; simpl.
  - split; [discriminate | tauto].
  - rewrite orb_true_iff, IH, eqb_eq. split; intros [H | H]; auto.
Qed.

Lemma dict_unique_NoDup (l : list K) : Dict.unique eqb l = true -> NoDup l.
Proof.
  induction l as [ | k l IH]; simpl; intros H; constructor.
  - apply andb_prop in H. destruct H as [H _].
    rewrite <- dict_mem_In. now destruct (Dict.mem eqb k l).
  - apply andb_prop in H. tauto.
Qed.

(** Assigning to a key that is not in the dictionary appends an item. *)
Lemma dict_set_fresh (k : K) (v : V) (d : Dict.t K V) :
  ~ In k (Dict.keys d) -> Dict.set eqb k v d = d ++ [(k, v)].
Proof.
  induction d as [ | [k' v'] d IH]; simpl; [reflexivity | ].
  intros Hnotin. destruct (eqb k k') eqn:E.
  - apply eqb_eq in E. subst. tauto.
  - rewrite IH by tauto. reflexivity.
Qed.
End DictFacts.

(** ** The load classifier *)

Section ClassifierFacts.
Variable pow_error : float -> comparison.
Variable math_atan2 : float -> float -> float.
Local Open Scope float_scope.

(** The record written for a plate, from the load its normal selects. *)
Lemma area_load_eq (mesh : Mesh.t) (plate_info : Plate.t)
      (vertices : list Vector.t) (mag : pynum) (direction : string) :
  plate_vertices mesh (PyStr.split "," (Plate.nodes plate_info)) = Ok vertices ->
  plate_load pow_error math_atan2 (plate_normal pow_error vertices) = Ok (mag, direction) ->
  area_load pow_error math_atan2 mesh plate_info =
  Ok {| AreaLoad.type := "one_way";
        AreaLoad.nodes := Plate.nodes plate_info;
        AreaLoad.members := 0;
        AreaLoad.mag := mag;
        AreaLoad.direction := direction;
        AreaLoad.elevations := 0;
        AreaLoad.mags := 0;
        AreaLoad.column_direction :=
          PyStr.join "," (firstn 2 (PyStr.split "," (Plate.nodes plate_info)));
        AreaLoad.elevation_direction := "";
        AreaLoad.loaded_members_axis := "all";
        AreaLoad.LG := "LG" |}.
Proof.
  intros Hv Hl. unfold area_load. rewrite Hv. simpl. rewrite Hl. reflexivity.
Qed.

Lemma plate_load_fallback (vertices : list Vector.t) (e : exn) :
  calculate_normal pow_error (firstn 3 vertices) = Raise e ->
  plate_load pow_error math_atan2 (plate_normal pow_error vertices) = Ok (PyInt 100, "Z").
Proof. intros H. unfold plate_normal. now rewrite H. Qed.

Lemma area_load_fallback (mesh : Mesh.t) (plate_info : Plate.t)
      (vertices : list Vector.t) (e : exn) :
  plate_vertices mesh (PyStr.split "," (Plate.nodes plate_info)) = Ok vertices ->
  calculate_normal pow_error (firstn 3 vertices) = Raise e ->
  area_load pow_error math_atan2 mesh plate_info = Ok (fallback_load plate_info).
Proof.
  intros Hv Hn. eapply area_load_eq; [exact Hv | ]. now apply plate_load_fallback with e.
Qed.

(** [calculate_normal] on three vertices returns exactly when no square
    of a component of the cross product overflows and the float length
    is not zero; the result is the cross product of the edge vectors,
    each component divided by that length. *)
Lemma calculate_normal_eq (v1 v2 v3 normal : Vector.t) :
  let cross := cross_product v1 v2 v3 in
  let norm_length :=
    sqrt (0 + PyFloat.float_pow2 pow_error cross.[0]
          + PyFloat.float_pow2 pow_error cross.[1]
          + PyFloat.float_pow2 pow_error cross.[2]) in
  calculate_normal pow_error [v1; v2; v3] = Ok normal <->
  PyFloat.overflows pow_error cross.[0] = false
  /\ PyFloat.overflows pow_error cross.[1] = false
  /\ PyFloat.overflows pow_error cross.[2] = false
  /\ (norm_length =? 0) = false
  /\ normal = Vector.init (fun i => cross.[i] / norm_length).
Proof.
  unfold calculate_normal, PyFloat.pow2, PyFloat.math_sqrt, PyFloat.truediv, Vector.initM.
  destruct (cross_product v1 v2 v3) as [a b c]. cbn [Vector.getitem Vector.x Vector.y Vector.z].
  destruct (PyFloat.overflows pow_error a);
    [split; [discriminate | intros (H & _); discriminate] | ].
  destruct (PyFloat.overflows pow_error b);
    [split; [discriminate | intros (_ & H & _); discriminate] | ].
  destruct (PyFloat.overflows pow_error c);
    [split; [discriminate | intros (_ & _ & H & _); discriminate] | ].
  cbn [bind]. rewrite sum_of_squares_not_negative by exact I. cbn [bind].
  destruct (sqrt _ =? 0).
  - split; [discriminate | intros (_ & _ & _ & H & _); discriminate].
  - cbn [bind]. unfold Vector.init. cbn [Vector.getitem Vector.x Vector.y Vector.z].
    split; [intros [= <-]; repeat split | intros (_ & _ & _ & _ & ->); reflexivity].
Qed.

(** The zero vector has float length zero, and dividing by it raises. *)
Lemma calculate_normal_zero_cross (v1 v2 v3 : Vector.t) :
  zero_vector (cross_product v1 v2 v3) = true ->
  calculate_normal pow_error [v1; v2; v3] = Raise ZeroDivisionError.
Proof.
  unfold calculate_normal, zero_vector.
  destruct (cross_product v1 v2 v3) as [a b c].
  cbn [Vector.getitem Vector.x Vector.y Vector.z].
  intros H. apply andb_prop in H. destruct H as [H Hc].
  apply andb_prop in H. destruct H as [Ha Hb].
  rewrite (pow2_zero pow_error Ha), (pow2_zero pow_error Hb), (pow2_zero pow_error Hc).
  reflexivity.
Qed.

Lemma resolveWallDirection_X_or_Z (a : float) :
  resolveWallDirection a = "X" \/ resolveWallDirection a = "Z".
Proof.
  unfold resolveWallDirection.
  destruct ((-45 <=? a) && (a <? 45)); [now left | ].
  destruct ((45 <=? a) && (a <? 135)); [now right | ].
  destruct ((-135 <=? a) && (a <? -45)); [now right | now left].
Qed.

Lemma determine_load_direction_eq (normal unit : Vector.t) :
  normalized_normal pow_error normal = Ok unit ->
  determine_load_direction pow_error math_atan2 normal =
  Ok (resolveWallDirection (angle math_atan2 unit)).
Proof.
  intros H. unfold determine_load_direction, resolveWallDirection. rewrite H. simpl.
  destruct ((-45 <=? angle math_atan2 unit) && (angle math_atan2 unit <? 45));
    [reflexivity | ].
  destruct ((45 <=? angle math_atan2 unit) && (angle math_atan2 unit <? 135));
    [reflexivity | ].
  destruct ((-135 <=? angle math_atan2 unit) && (angle math_atan2 unit <? -45));
    reflexivity.
Qed.
End ClassifierFacts.

(** ** Normals of single-precision vertices *)

Section SinglePrecision.
Local Open Scope Z_scope.
Local Unset Implicit Arguments.

(** The cross product of the edges between single-precision vertices:
    each component is zero, not finite, or between [2^-457] and
    [2^263]. *)
Lemma cross_product_ZNF (v1 v2 v3 : Vector.t) :
  single_vector v1 = true -> single_vector v2 = true -> single_vector v3 = true ->
  let cross := cross_product v1 v2 v3 in
  ZNF (-456) 263 (Prim2SF cross.[0]) /\ ZNF (-456) 263 (Prim2SF cross.[1])
  /\ ZNF (-456) 263 (Prim2SF cross.[2]).
Proof.
  unfold single_vector. intros H1 H2 H3.
  repeat match goal with
         | H : _ && _ = true |- _ => apply andb_prop in H; destruct H
         end.
  repeat match goal with
         | H : is_single _ = true |- _ => apply is_single_ZNF in H
         end.
  assert (Hedge : forall a b : float,
             ZNF (-148) 128 (Prim2SF a) -> ZNF (-148) 128 (Prim2SF b) ->
             ZNF (-200) 130 (Prim2SF (b - a)%float)).
  { intros a b Ha Hb. rewrite sub_spec. apply (SFsub_ZNF (-148) 128); try assumption; lia. }
  assert (Hcross : forall a b c d : float,
             ZNF (-200) 130 (Prim2SF a) -> ZNF (-200) 130 (Prim2SF b) ->
             ZNF (-200) 130 (Prim2SF c) -> ZNF (-200) 130 (Prim2SF d) ->
             ZNF (-456) 263 (Prim2SF (a * b - c * d)%float)).
  { intros a b c d Ha Hb Hc Hd. rewrite sub_spec, !mul_spec.
    eapply ZNF_weaken;
      [apply (SFsub_ZNF (-401) 261);
       [apply (SFmul_ZNF (-200) 130 (-200) 130); try assumption; lia
       | apply (SFmul_ZNF (-200) 130 (-200) 130); try assumption; lia | lia | lia]
      | lia | lia]. }
  unfold cross_product, Vector.init.
  cbn [Vector.getitem Vector.x Vector.y Vector.z].
  repeat split; apply Hcross; apply Hedge; assumption.
Qed.

Section Renormalization.
Variable pow_error : float -> comparison.

(** The normal of three single-precision vertices is normalized again
    without an exception. *)
Lemma single_normal_renormalized (v1 v2 v3 normal : Vector.t) :
  single_vector v1 = true -> single_vector v2 = true -> single_vector v3 = true ->
  calculate_normal pow_error [v1; v2; v3] = Ok normal ->
  exists unit, normalized_normal pow_error normal = Ok unit.
Proof.
  intros H1 H2 H3 Hn. apply calculate_normal_eq in Hn.
  destruct Hn as (_ & _ & _ & HL & ->).
  destruct (cross_product_ZNF v1 v2 v3 H1 H2 H3) as (C0 & C1 & C2).
  apply (renormalization_total pow_error _ _ _ C0 C1 C2 HL).
Qed.
End Renormalization.

Lemma getitem_In {A : Type} (l : list A) (i : Z) (a : A) :
  PySeq.getitem l i = Ok a -> In a l.
Proof.
  unfold PySeq.getitem.
  destruct (_ <? 0); [discriminate | ].
  destruct (nth_error l _) as [a' | ] eqn:E; [ | discriminate].
  intros [= <-]. eapply nth_error_In. exact E.
Qed.

Lemma plate_vertices_single (mesh : Mesh.t) (nodes_indices : list string) :
  single_precision_mesh mesh = true ->
  forall vertices : list Vector.t,
    plate_vertices mesh nodes_indices = Ok vertices ->
    forallb single_vector vertices = true.
Proof.
  intros Hmesh. unfold plate_vertices.
  induction nodes_indices as [ | idx rest IH]; intros vertices H; cbn [mapM] in H.
  - injection H as <-. reflexivity.
  - destruct (PyStr.int idx) as [k | ]; cbn [bind] in H; [ | discriminate].
    destruct (PySeq.getitem (Mesh.vertices mesh) (k - 1)) as [vertex | ] eqn:E;
      cbn [bind] in H; [ | discriminate].
    destruct (mapM _ rest) as [vs | ]; cbn [bind] in H; [ | discriminate].
    injection H as <-. cbn [forallb]. rewrite (IH vs eq_refl), andb_true_r.
    apply getitem_In in E. unfold single_precision_mesh in Hmesh.
    rewrite forallb_forall in Hmesh. apply (Hmesh vertex E).
Qed.
End SinglePrecision.

(** ** The loop of [add_loads_to_plates] *)

Lemma mapM_app {A B : Type} (f : A -> result B) (l l' : list A) :
  mapM f (l ++ l') = (ys <- mapM f l ;; ys' <- mapM f l' ;; Ok (ys ++ ys')).
Proof.
  induction l as [ | x l IH]; simpl.
  - now destruct (mapM f l').
  - destruct (f x); simpl; [ | reflexivity].
    rewrite IH. destruct (mapM f l); simpl; [ | reflexivity].
    now destruct (mapM f l').
Qed.

Section LoopFacts.
Variable pow_error : float -> comparison.
Variable math_atan2 : float -> float -> float.
Variable mesh : Mesh.t.

Lemma area_load_items_keys (items : list (string * Plate.t))
      (loads : list (string * AreaLoad.t)) :
  area_load_items pow_error math_atan2 mesh items = Ok loads ->
  Dict.keys loads = Dict.keys items.
Proof.
  unfold area_load_items. revert loads.
  induction items as [ | [k p] items IH]; simpl; intros loads.
  - now intros [= <-].
  - destruct (area_load pow_error math_atan2 mesh p); simpl; [ | discriminate].
    destruct (mapM _ items) as [l | e]; simpl; [ | discriminate].
    intros [= <-]. simpl. f_equal. now apply IH.
Qed.

(** On a dictionary every assignment of the loop appends: the result is
    the list of the plates' own records, in the order of [plates]. *)
Lemma add_loads_loop_eq (items : list (string * Plate.t)) (acc : AreaLoadDict) :
  NoDup (Dict.keys acc ++ Dict.keys items) ->
  add_loads_loop pow_error math_atan2 mesh items acc =
  (loads <- area_load_items pow_error math_atan2 mesh items ;; Ok (acc ++ loads)).
Proof.
  revert acc. unfold area_load_items.
  induction items as [ | [k p] items IH]; simpl; intros acc Hnd.
  - now rewrite app_nil_r.
  - destruct (area_load pow_error math_atan2 mesh p) as [load | e]; simpl; [ | reflexivity].
    rewrite (dict_set_fresh String.eqb String.eqb_eq).
    + rewrite IH.
      * destruct (mapM _ items); simpl; [ | reflexivity].
        now rewrite <- app_assoc.
      * unfold Dict.keys in *. rewrite map_app, <- app_assoc. exact Hnd.
    + apply NoDup_remove_2 in Hnd. intros Hin. apply Hnd.
      apply in_or_app. now left.
Qed.

Lemma add_loads_to_plates_eq (plates : PlateDict) :
  Dict.wf String.eqb plates = true ->
  add_loads_to_plates pow_error math_atan2 plates mesh = area_load_items pow_error math_atan2 mesh plates.
Proof.
  intros Hwf. unfold add_loads_to_plates. rewrite add_loads_loop_eq.
  - now destruct (area_load_items pow_error math_atan2 mesh plates).
  - simpl. now apply (dict_unique_NoDup String.eqb String.eqb_eq).
Qed.
End LoopFacts.

Lemma mapM_length {A B : Type} (f : A -> result B) (l : list A) (ys : list B) :
  mapM f l = Ok ys -> List.length ys = List.length l.
Proof.
  revert ys. induction l as [ | x l IH]; simpl; intros ys.
  - now intros [= <-].
  - destruct (f x); simpl; [ | discriminate].
    destruct (mapM f l); simpl; [ | discriminate].
    intros [= <-]. simpl. f_equal. now apply IH.
Qed.

Lemma split_nonempty (c : ascii) (s : string) : 1 <= List.length (PyStr.split c s).
Proof.
  induction s as [ | a s IH]; simpl; [lia | ].
  destruct (Ascii.eqb a c); simpl; [lia | ].
  destruct (PyStr.split c s); simpl in *; lia.
Qed.

(** ** The claims about the classifier *)

(** C2: a plate whose first three vertices give a normal with
    [|z| > 0.5] gets magnitude 0.15 and direction "Y", whatever the x and
    y components of the normal are, and whatever the error of libm's
    [pow] in the squares of [calculate_normal]. *)
Theorem horizontal_plate_load :
  forall (pow_error : float -> comparison) (math_atan2 : float -> float -> float)
         (mesh : Mesh.t) (plate_info : Plate.t) (vertices : list Vector.t)
         (normal : Vector.t),
    plate_vertices mesh (PyStr.split "," (Plate.nodes plate_info)) = Ok vertices ->
    calculate_normal pow_error (firstn 3 vertices) = Ok normal ->
    (0.5 <? abs normal.[2])%float = true ->
    exists load,
      area_load pow_error math_atan2 mesh plate_info = Ok load
      /\ AreaLoad.mag load = PyFlt 0.15
      /\ AreaLoad.direction load = "Y".
Proof.
  intros pow_error math_atan2 mesh plate_info vertices normal Hv Hn Hz.
  eexists. split.
  - eapply area_load_eq; [exact Hv | ]. unfold plate_normal, plate_load.
    rewrite Hn, Hz. reflexivity.
  - split; reflexivity.
Qed.

Lemma horizontal_plate_load_witness :
  exists load,
    area_load correctly_rounded axis_atan2 house_mesh roof_plate = Ok load
    /\ AreaLoad.mag load = PyFlt 0.15
    /\ AreaLoad.direction load = "Y".
Proof.
  apply (@horizontal_plate_load correctly_rounded axis_atan2 house_mesh roof_plate
           [Vector.make 0 0 1; Vector.make 1 0 1; Vector.make 0 1 1]
           (Vector.make 0 0 1)); reflexivity.
Defined.

(** A plate whose normal has [|z| <= 0.5] and is normalized again to
    [unit] gets magnitude 0.08 and the direction that the angle of
    [unit] selects. *)
Lemma plate_load_vertical :
  forall (pow_error : float -> comparison) (math_atan2 : float -> float -> float)
         (mesh : Mesh.t) (plate_info : Plate.t) (vertices : list Vector.t)
         (normal unit : Vector.t),
    plate_vertices mesh (PyStr.split "," (Plate.nodes plate_info)) = Ok vertices ->
    calculate_normal pow_error (firstn 3 vertices) = Ok normal ->
    (abs normal.[2] <=? 0.5)%float = true ->
    normalized_normal pow_error normal = Ok unit ->
    exists load,
      area_load pow_error math_atan2 mesh plate_info = Ok load
      /\ AreaLoad.mag load = PyFlt 0.08
      /\ AreaLoad.direction load =
         resolveWallDirection
           (math_atan2 (Vector.y unit) (Vector.x unit) * (180 / PyFloat.math_pi))%float
      /\ (AreaLoad.direction load = "X" \/ AreaLoad.direction load = "Z")
      /\ AreaLoad.direction load <> "Y".
Proof.
  intros pow_error math_atan2 mesh plate_info vertices normal unit Hv Hn Hz Hu.
  apply leb_not_ltb in Hz.
  eexists. split.
  - eapply area_load_eq; [exact Hv | ]. unfold plate_normal, plate_load.
    rewrite Hn, Hz, (determine_load_direction_eq pow_error math_atan2 _ Hu). reflexivity.
  - simpl. split; [reflexivity | ]. split; [reflexivity | ]. split.
    + apply resolveWallDirection_X_or_Z.
    + destruct (resolveWallDirection_X_or_Z (angle math_atan2 unit)) as [H | H];
        rewrite H; discriminate.
Qed.



(** C4, amended: a plate whose first three vertices have a cross
    product that the code computes as the zero vector makes
    [calculate_normal] raise (division by the zero length) and gets the
    fallback magnitude 100 and direction "Z"; the loads of the
    dictionary are those of the plates before and after it, each
    computed from its own plate, with the fallback record between them:
    when each of the other plates gets a record, the call returns these
    records, one per plate, and otherwise it raises what the first
    failing plate raises. *)
Theorem degenerate_plate_load :
  forall (pow_error : float -> comparison) (math_atan2 : float -> float -> float)
         (mesh : Mesh.t) (before after : list (string * Plate.t))
         (plate_id : string) (plate_info : Plate.t)
         (v1 v2 v3 : Vector.t) (more : list Vector.t),
    Dict.wf String.eqb (before ++ (plate_id, plate_info) :: after) = true ->
    plate_vertices mesh (PyStr.split "," (Plate.nodes plate_info))
      = Ok (v1 :: v2 :: v3 :: more) ->
    zero_vector (cross_product v1 v2 v3) = true ->
    calculate_normal pow_error [v1; v2; v3] = Raise ZeroDivisionError
    /\ (exists load,
          area_load pow_error math_atan2 mesh plate_info = Ok load
          /\ AreaLoad.mag load = PyInt 100
          /\ AreaLoad.direction load = "Z")
    /\ add_loads_to_plates pow_error math_atan2
         (before ++ (plate_id, plate_info) :: after) mesh
       = (loads <- area_load_items pow_error math_atan2 mesh before ;;
          loads' <- area_load_items pow_error math_atan2 mesh after ;;
          Ok (loads ++ (plate_id, fallback_load plate_info) :: loads'))
    /\ (forall loads loads' : list (string * AreaLoad.t),
          area_load_items pow_error math_atan2 mesh before = Ok loads ->
          area_load_items pow_error math_atan2 mesh after = Ok loads' ->
          add_loads_to_plates pow_error math_atan2
            (before ++ (plate_id, plate_info) :: after) mesh
          = Ok (loads ++ (plate_id, fallback_load plate_info) :: loads')
          /\ Dict.keys (loads ++ (plate_id, fallback_load plate_info) :: loads')
             = Dict.keys (before ++ (plate_id, plate_info) :: after)).
Proof.
  intros pow_error math_atan2 mesh before after plate_id plate_info v1 v2 v3 more
         Hwf Hv Hz.
  pose proof (calculate_normal_zero_cross pow_error _ _ _ Hz) as Hn.
  assert (Hload : area_load pow_error math_atan2 mesh plate_info
                  = Ok (fallback_load plate_info))
    by (eapply area_load_fallback; [exact Hv | exact Hn]).
  assert (Heq : add_loads_to_plates pow_error math_atan2
                  (before ++ (plate_id, plate_info) :: after) mesh
                = (loads <- area_load_items pow_error math_atan2 mesh before ;;
                   loads' <- area_load_items pow_error math_atan2 mesh after ;;
                   Ok (loads ++ (plate_id, fallback_load plate_info) :: loads'))).
  { rewrite (add_loads_to_plates_eq pow_error math_atan2 mesh _ Hwf).
    unfold area_load_items. rewrite mapM_app. simpl. rewrite Hload. simpl.
    destruct (mapM _ before); simpl; [ | reflexivity].
    now destruct (mapM _ after). }
  split; [exact Hn | ]. split; [now exists (fallback_load plate_info) | ].
  split; [exact Heq | ].
  intros loads loads' Hbefore Hafter. rewrite Heq, Hbefore, Hafter. cbn [bind].
  split; [reflexivity | ].
  apply (area_load_items_keys pow_error math_atan2 mesh).
  rewrite <- (add_loads_to_plates_eq pow_error math_atan2 mesh _ Hwf).
  rewrite Heq, Hbefore, Hafter. reflexivity.
Qed.

Lemma degenerate_plate_load_witness :
  calculate_normal correctly_rounded
    [Vector.make 0 0 0; Vector.make 1 0 0; Vector.make 2 0 0]
    = Raise ZeroDivisionError
  /\ (exists load,
        area_load correctly_rounded axis_atan2 house_mesh sliver_plate = Ok load
        /\ AreaLoad.mag load = PyInt 100
        /\ AreaLoad.direction load = "Z")
  /\ add_loads_to_plates correctly_rounded axis_atan2
       ([("1", wall_plate)] ++ ("2", sliver_plate) :: [("3", roof_plate)]) house_mesh
     = Ok [("1", area_load_record "1,2,3" "1,2" (PyFlt 0.08%float, "Z"));
           ("2", fallback_load sliver_plate);
           ("3", area_load_record "3,4,5" "3,4" (PyFlt 0.15%float, "Y"))].
Proof.
  destruct (@degenerate_plate_load correctly_rounded axis_atan2 house_mesh
              [("1", wall_plate)] [("3", roof_plate)] "2" sliver_plate
              (Vector.make 0 0 0) (Vector.make 1 0 0) (Vector.make 2 0 0) []
              eq_refl eq_refl eq_refl)
    as (Hn & Hload & _ & Hall).
  split; [exact Hn | ]. split; [exact Hload | ].
  exact (proj1 (Hall [("1", area_load_record "1,2,3" "1,2" (PyFlt 0.08%float, "Z"))]
                     [("3", area_load_record "3,4,5" "3,4" (PyFlt 0.15%float, "Y"))]
                     eq_refl eq_refl)).
Defined.

Lemma line_mesh_normal (pow_error : float -> comparison) :
  exists normal : Vector.t,
    calculate_normal pow_error
      [Vector.make 3 9 0; Vector.make 0x1p54 0x1.8p55 0; Vector.make 0x1p60 0x1.8p61 0]
    = Ok normal
    /\ (0.5 <? abs normal.[2])%float = true.
Proof.
  destruct (pow_error 0x1p63%float) eqn:E; eexists;
    (split; [vm_compute; rewrite E; vm_compute; reflexivity | reflexivity]).
Qed.

(** C4 as first stated fails on collinear points whose edge vectors are
    rounded: the three vertices of [line_mesh] lie on the line [y = 3 x]
    of the ground plane, their coordinates are single-precision numbers,
    and the cross product without rounding is zero; the code computes
    the edge vectors [(2^54, 3 * 2^54 - 8, 0)] and
    [(2^60, 3 * 2^60, 0)], a cross product with [z = -2^63], a normal
    with [|z| > 0.5], and assigns the load (0.15, "Y") of a horizontal
    plate, not the fallback. *)
Lemma collinear_plate_gets_horizontal_load :
  wf_mesh line_mesh = true
  /\ single_precision_mesh line_mesh = true
  /\ Dict.get String.eqb "1" (create_plates_from_mesh_data line_mesh)
     = Some (default_plate "1,2,3")
  /\ plate_vertices line_mesh (PyStr.split "," "1,2,3")
     = Ok [Vector.make 3 9 0; Vector.make 0x1p54 0x1.8p55 0; Vector.make 0x1p60 0x1.8p61 0]
  /\ collinear (Vector.make 3 9 0) (Vector.make 0x1p54 0x1.8p55 0)
               (Vector.make 0x1p60 0x1.8p61 0) = true
  /\ cross_product (Vector.make 3 9 0) (Vector.make 0x1p54 0x1.8p55 0)
                   (Vector.make 0x1p60 0x1.8p61 0)
     = Vector.make 0 0 (-0x1p63)
  /\ forall (pow_error : float -> comparison) (math_atan2 : float -> float -> float),
      exists load : AreaLoad.t,
        area_load pow_error math_atan2 line_mesh (default_plate "1,2,3") = Ok load
        /\ AreaLoad.mag load = PyFlt 0.15
        /\ AreaLoad.direction load = "Y"
        /\ load <> fallback_load (default_plate "1,2,3").
Proof.
  do 6 (split; [reflexivity | ]).
  intros pow_error math_atan2.
  destruct (line_mesh_normal pow_error) as (normal & Hn & Hz).
  eexists. split.
  - apply area_load_eq
      with (vertices := [Vector.make 3 9 0; Vector.make 0x1p54 0x1.8p55 0;
                         Vector.make 0x1p60 0x1.8p61 0]);
      [reflexivity | ].
    unfold plate_normal, plate_load. cbn [firstn]. rewrite Hn, Hz. reflexivity.
  - split; [reflexivity | ]. split; [reflexivity | discriminate].
Qed.

(** ** The claim about [calculate_normal] *)

(** In the real numbers the formula of lines 134-148 gives a vector of
    norm 1 that is perpendicular to both edge vectors, when the cross
    product is not zero. *)
Lemma real_normal_unit_perpendicular (u1 u2 u3 : R * R * R) :
  real_cross (real_edge u1 u2) (real_edge u1 u3) <> (0, 0, 0)%R ->
  real_dot (real_normal u1 u2 u3) (real_normal u1 u2 u3) = 1%R
  /\ real_dot (real_normal u1 u2 u3) (real_edge u1 u2) = 0%R
  /\ real_dot (real_normal u1 u2 u3) (real_edge u1 u3) = 0%R.
Proof.
  destruct u1 as [[x1 y1] z1], u2 as [[x2 y2] z2], u3 as [[x3 y3] z3].
  unfold real_normal, normal_formula, real_cross, real_edge, real_dot, length_formula,
    cross_formula, edge_formula, dot_formula.
  set (a := ((y2 - y1) * (z3 - z1) - (z2 - z1) * (y3 - y1))%R).
  set (b := ((z2 - z1) * (x3 - x1) - (x2 - x1) * (z3 - z1))%R).
  set (c := ((x2 - x1) * (y3 - y1) - (y2 - y1) * (x3 - x1))%R).
  intros Hne.
  assert (Hpos : (0 < 0 + a * a + b * b + c * c)%R).
  { assert (H : (a <> 0 \/ b <> 0 \/ c <> 0)%R).
    { destruct (Req_dec a 0) as [Ha | Ha]; [ | now left].
      destruct (Req_dec b 0) as [Hb | Hb]; [ | now right; left].
      destruct (Req_dec c 0) as [Hc | Hc]; [ | now right; right].
      exfalso. apply Hne. now rewrite Ha, Hb, Hc. }
    clearbody a b c.
    pose proof (Rle_0_sqr a) as Ha. pose proof (Rle_0_sqr b) as Hb.
    pose proof (Rle_0_sqr c) as Hc. unfold Rsqr in *.
    destruct H as [H | [H | H]]; apply Rsqr_pos_lt in H; unfold Rsqr in H; lra. }
  set (S := (0 + a * a + b * b + c * c)%R) in *.
  pose proof (sqrt_lt_R0 S Hpos) as HL.
  pose proof (sqrt_sqrt S (Rlt_le _ _ Hpos)) as Hsq.
  set (L := R_sqrt.sqrt S) in *.
  assert (HLne : L <> 0%R) by lra.
  split; [ | split].
  - replace (a / L * (a / L) + b / L * (b / L) + c / L * (c / L))%R
      with (S / (L * L))%R by (unfold S; field; exact HLne).
    rewrite Hsq. field. lra.
  - replace (a / L * (x2 - x1) + b / L * (y2 - y1) + c / L * (z2 - z1))%R
      with ((a * (x2 - x1) + b * (y2 - y1) + c * (z2 - z1)) / L)%R by (field; exact HLne).
    unfold a, b, c. field. exact HLne.
  - replace (a / L * (x3 - x1) + b / L * (y3 - y1) + c / L * (z3 - z1))%R
      with ((a * (x3 - x1) + b * (y3 - y1) + c * (z3 - z1)) / L)%R by (field; exact HLne).
    unfold a, b, c. field. exact HLne.
Qed.

(** The float formula is the computation of [calculate_normal]. *)
Lemma float_normal_eq (pow_error : float -> comparison) (v1 v2 v3 : Vector.t) :
  let cross := cross_product v1 v2 v3 in
  let norm_length :=
    sqrt (0 + PyFloat.float_pow2 pow_error cross.[0]
          + PyFloat.float_pow2 pow_error cross.[1]
          + PyFloat.float_pow2 pow_error cross.[2])%float in
  float_normal pow_error (coordinates v1) (coordinates v2) (coordinates v3)
  = coordinates (Vector.init (fun i => cross.[i] / norm_length)%float).
Proof. destruct v1, v2, v3. reflexivity. Qed.

Lemma coordinates_inj (u v : Vector.t) : coordinates u = coordinates v -> u = v.
Proof. destruct u, v. unfold coordinates. simpl. now intros [= -> -> ->]. Qed.

(** C7, amended: [calculate_normal] returns for a triangle exactly when
    the cross product of the edge vectors [v2 - v1] and [v3 - v1], all
    computed in floats, has no component whose square overflows and has
    a float length that is not zero; what it returns is that cross
    product divided by that length, the formula of the normalized cross
    product evaluated in binary64 with the [pow] of the platform; in the
    real numbers the same formula gives a vector of norm 1 that is
    perpendicular to both edge vectors.  A triangle of non-zero area
    whose edge vectors round to parallel ones has none of this: the
    call raises. *)
Theorem calculate_normal_formula :
  forall (pow_error : float -> comparison) (v1 v2 v3 : Vector.t),
    let cross := cross_product v1 v2 v3 in
    let norm_length :=
      sqrt (0 + PyFloat.float_pow2 pow_error cross.[0]
            + PyFloat.float_pow2 pow_error cross.[1]
            + PyFloat.float_pow2 pow_error cross.[2])%float in
    (forall normal : Vector.t,
        calculate_normal pow_error [v1; v2; v3] = Ok normal <->
        PyFloat.overflows pow_error cross.[0] = false
        /\ PyFloat.overflows pow_error cross.[1] = false
        /\ PyFloat.overflows pow_error cross.[2] = false
        /\ (norm_length =? 0)%float = false
        /\ coordinates normal
           = float_normal pow_error (coordinates v1) (coordinates v2) (coordinates v3))
    /\ coordinates cross
       = cross_formula PrimFloat.sub PrimFloat.mul
           (edge_formula PrimFloat.sub (coordinates v1) (coordinates v2))
           (edge_formula PrimFloat.sub (coordinates v1) (coordinates v3))
    /\ (zero_vector cross = true ->
        calculate_normal pow_error [v1; v2; v3] = Raise ZeroDivisionError)
    /\ (forall u1 u2 u3 : R * R * R,
          real_cross (real_edge u1 u2) (real_edge u1 u3) <> (0, 0, 0)%R ->
          real_dot (real_normal u1 u2 u3) (real_normal u1 u2 u3) = 1%R
          /\ real_dot (real_normal u1 u2 u3) (real_edge u1 u2) = 0%R
          /\ real_dot (real_normal u1 u2 u3) (real_edge u1 u3) = 0%R).
Proof.
  intros pow_error v1 v2 v3 cross norm_length.
  split; [ | split; [ | split]].
  - intros normal. rewrite calculate_normal_eq. fold cross. fold norm_length.
    rewrite float_normal_eq. fold cross. fold norm_length.
    split.
    + intros (Ha & Hb & Hc & HL & ->). now repeat split.
    + intros (Ha & Hb & Hc & HL & Hn). apply coordinates_inj in Hn. now repeat split.
  - unfold cross. destruct v1, v2, v3. reflexivity.
  - apply calculate_normal_zero_cross.
  - apply real_normal_unit_perpendicular.
Qed.

(** C7 as first stated fails on a long thin triangle: the vertices
    (1, 0, 0), (2^60, 2^60, 0) and (2^61, 2^61, 0) of [thin_mesh] are
    single-precision numbers and span a triangle of area [2^59] (the
    cross product without rounding is [(0, 0, -2^60)]); the code rounds
    the edge vectors to [(2^60, 2^60, 0)] and [(2^61, 2^61, 0)], which
    are parallel, and raises [ZeroDivisionError]. *)
Lemma thin_triangle_has_no_normal :
  wf_mesh thin_mesh = true
  /\ single_precision_mesh thin_mesh = true
  /\ plate_vertices thin_mesh (PyStr.split "," "1,2,3")
     = Ok [Vector.make 1 0 0; Vector.make 0x1p60 0x1p60 0; Vector.make 0x1p61 0x1p61 0]
  /\ collinear (Vector.make 1 0 0) (Vector.make 0x1p60 0x1p60 0)
               (Vector.make 0x1p61 0x1p61 0) = false
  /\ (let '(x, y, z) := exact_cross (Vector.make 1 0 0) (Vector.make 0x1p60 0x1p60 0)
                                    (Vector.make 0x1p61 0x1p61 0) in
      Qeq_bool x 0 && Qeq_bool y 0 && Qeq_bool z (- inject_Z (2 ^ 60))) = true
  /\ cross_product (Vector.make 1 0 0) (Vector.make 0x1p60 0x1p60 0)
                   (Vector.make 0x1p61 0x1p61 0)
     = Vector.make 0 0 0
  /\ forall pow_error : float -> comparison,
      calculate_normal pow_error
        [Vector.make 1 0 0; Vector.make 0x1p60 0x1p60 0; Vector.make 0x1p61 0x1p61 0]
      = Raise ZeroDivisionError.
Proof.
  do 6 (split; [vm_compute; reflexivity | ]).
  intros pow_error. now apply calculate_normal_zero_cross.
Qed.

(** C10: the fallback (100, "Z") follows any exception of the normal
    computation; a plate that lists one or two valid vertex indices makes
    the unpacking [v1, v2, v3 = vertices] raise [ValueError], which the
    bare [except] catches, and the plate gets the fallback record. *)
Theorem any_exception_falls_back :
  forall (pow_error : float -> comparison) (math_atan2 : float -> float -> float)
         (mesh : Mesh.t) (plate_info : Plate.t) (vertices : list Vector.t),
    plate_vertices mesh (PyStr.split "," (Plate.nodes plate_info)) = Ok vertices ->
    1 <= List.length vertices
    /\ (forall e : exn,
          calculate_normal pow_error (firstn 3 vertices) = Raise e ->
          area_load pow_error math_atan2 mesh plate_info = Ok (fallback_load plate_info))
    /\ (List.length vertices < 3 ->
        calculate_normal pow_error (firstn 3 vertices) = Raise ValueError
        /\ area_load pow_error math_atan2 mesh plate_info = Ok (fallback_load plate_info))
    /\ AreaLoad.mag (fallback_load plate_info) = PyInt 100
    /\ AreaLoad.direction (fallback_load plate_info) = "Z".
Proof.
  intros pow_error math_atan2 mesh plate_info vertices Hv.
  assert (Hlen : 1 <= List.length vertices).
  { unfold plate_vertices in Hv. rewrite (mapM_length _ _ Hv). apply split_nonempty. }
  split; [exact Hlen | ]. split; [ | split; [ | split; reflexivity]].
  - intros e He. eapply area_load_fallback; [exact Hv | exact He].
  - intros Hlt.
    assert (Hn : calculate_normal pow_error (firstn 3 vertices) = Raise ValueError).
    { destruct vertices as [ | v1 [ | v2 [ | v3 more]]]; simpl in *;
        try reflexivity; lia. }
    split; [exact Hn | ]. eapply area_load_fallback; [exact Hv | exact Hn].
Qed.

Lemma any_exception_falls_back_witness :
  1 <= 2
  /\ (forall e : exn,
        calculate_normal correctly_rounded
          (firstn 3 [Vector.make 0 0 0; Vector.make 1 0 0]) = Raise e ->
        area_load correctly_rounded axis_atan2 triangle_mesh (default_plate "1,2")
          = Ok (fallback_load (default_plate "1,2")))
  /\ (2 < 3 ->
      calculate_normal correctly_rounded
        (firstn 3 [Vector.make 0 0 0; Vector.make 1 0 0]) = Raise ValueError
      /\ area_load correctly_rounded axis_atan2 triangle_mesh (default_plate "1,2")
           = Ok (fallback_load (default_plate "1,2")))
  /\ AreaLoad.mag (fallback_load (default_plate "1,2")) = PyInt 100
  /\ AreaLoad.direction (fallback_load (default_plate "1,2")) = "Z".
Proof.
  apply (@any_exception_falls_back correctly_rounded axis_atan2 triangle_mesh
           (default_plate "1,2") [Vector.make 0 0 0; Vector.make 1 0 0]).
  reflexivity.
Defined.

(** ** Sequential identifiers *)

Lemma enumerate_app {A : Type} (start : nat) (l l' : list A) :
  PySeq.enumerate start (l ++ l') =
  PySeq.enumerate start l ++ PySeq.enumerate (start + List.length l) l'.
Proof.
  unfold PySeq.enumerate. revert start.
  induction l as [ | x l IH]; intros start; simpl.
  - now rewrite Nat.add_0_r.
  - f_equal. rewrite IH. now rewrite Nat.add_succ_r.
Qed.

Lemma enumerate_keys {A : Type} (start : nat) (l : list A) :
  Dict.keys (PySeq.enumerate start l) = seq start (List.length l).
Proof.
  unfold PySeq.enumerate, Dict.keys. revert start.
  induction l as [ | x l IH]; intros start; simpl; [reflexivity | ].
  now rewrite IH.
Qed.

Lemma enumerate_length {A : Type} (start : nat) (l : list A) :
  Dict.len (PySeq.enumerate start l) = List.length l.
Proof.
  unfold Dict.len. rewrite <- (length_map fst).
  change (map fst (PySeq.enumerate start l)) with (Dict.keys (PySeq.enumerate start l)).
  now rewrite enumerate_keys, length_seq.
Qed.

(** The item numbered [start + j] is the [j]-th element. *)
Lemma enumerate_get {A : Type} (start j : nat) (l : list A) :
  Dict.get Nat.eqb (start + j) (PySeq.enumerate start l) = nth_error l j.
Proof.
  unfold PySeq.enumerate. revert start j.
  induction l as [ | x l IH]; intros start j; simpl.
  - now destruct j.
  - destruct j as [ | j]; simpl.
    + now rewrite Nat.add_0_r, Nat.eqb_refl.
    + destruct (Nat.eqb_spec (start + S j) start) as [E | _]; [lia | ].
      rewrite <- (IH (S start) j). f_equal. lia.
Qed.

(** Assigning to the next number appends. *)
Lemma enumerate_set_next {A : Type} (start : nat) (l : list A) (x : A) :
  Dict.set Nat.eqb (start + List.length l) x (PySeq.enumerate start l)
  = PySeq.enumerate start (l ++ [x]).
Proof.
  rewrite (dict_set_fresh Nat.eqb Nat.eqb_eq).
  - now rewrite enumerate_app.
  - rewrite enumerate_keys, in_seq. lia.
Qed.

Lemma ground_supports_app (start : nat) (l l' : list MeshVertex.t) :
  ground_supports start (l ++ l') =
  ground_supports start l ++ ground_supports (start + List.length l) l'.
Proof.
  revert start. induction l as [ | v l IH]; intros start; simpl.
  - now rewrite Nat.add_0_r.
  - rewrite IH, <- app_assoc. now rewrite Nat.add_succ_r.
Qed.

Lemma ground_supports_keys (start k : nat) (l : list MeshVertex.t) :
  In k (Dict.keys (ground_supports start l)) -> start <= k < start + List.length l.
Proof.
  revert start. induction l as [ | v l IH]; intros start; simpl; [tauto | ].
  unfold Dict.keys. rewrite map_app, in_app_iff. intros [H | H].
  - destruct (isGroundSupport v); simpl in H; [ | tauto].
    destruct H as [<- | []]. lia.
  - apply IH in H. lia.
Qed.

Lemma ground_supports_NoDup (start : nat) (l : list MeshVertex.t) :
  NoDup (Dict.keys (ground_supports start l)).
Proof.
  revert start. induction l as [ | v l IH]; intros start; simpl; [constructor | ].
  destruct (isGroundSupport v); simpl; [ | apply IH].
  constructor; [ | apply IH].
  intros H. apply ground_supports_keys in H. lia.
Qed.

(** The support of the [j]-th vertex, if it has one, is at its node id. *)
Lemma ground_supports_get (start j : nat) (l : list MeshVertex.t) (v : MeshVertex.t) :
  nth_error l j = Some v ->
  Dict.get Nat.eqb (start + j) (ground_supports start l)
  = if isGroundSupport v then Some (ground_support (start + j)) else None.
Proof.
  revert start j. induction l as [ | w l IH]; intros start j.
  - now destruct j.
  - cbn [ground_supports]. rewrite dict_get_app. destruct j as [ | j].
    + intros [= ->]. rewrite Nat.add_0_r. destruct (isGroundSupport v).
      * cbn [Dict.get]. now rewrite Nat.eqb_refl.
      * cbn [Dict.get]. apply (dict_get_None Nat.eqb Nat.eqb_eq). intros H.
        apply ground_supports_keys in H. lia.
    + cbn [nth_error]. intros Hj.
      replace (start + S j) with (S start + j) by lia.
      rewrite <- (IH (S start) j Hj).
      destruct (isGroundSupport w); cbn [Dict.get]; [ | reflexivity].
      destruct (Nat.eqb_spec (S start + j) start); [lia | reflexivity].
Qed.

Lemma ground_supports_set_next (l : list MeshVertex.t) (v : MeshVertex.t) :
  (if isGroundSupport v
   then Dict.set Nat.eqb (1 + List.length l) (ground_support (1 + List.length l))
                 (ground_supports 1 l)
   else ground_supports 1 l)
  = ground_supports 1 (l ++ [v]).
Proof.
  rewrite ground_supports_app. cbn [ground_supports]. rewrite app_nil_r.
  destruct (isGroundSupport v).
  - apply (dict_set_fresh Nat.eqb Nat.eqb_eq). intros H.
    apply ground_supports_keys in H. lia.
  - now rewrite app_nil_r.
Qed.

(** ** The loops of [extract_mesh_data] *)

(** The loop over the vertices of one mesh, started after the vertices
    [done] of the scene of which the last [j] belong to this mesh: node
    ids go on from [len(nodes) + 1], and the vertex map sends position
    [i] of the mesh to [offset + i + 1]. *)
Lemma map_vertices_eq (vertices : list MeshVertex.t) :
  forall (j offset : nat) (done : list MeshVertex.t),
    map MeshVertex.index vertices = seq j (List.length vertices) ->
    List.length done = offset + j ->
    map_vertices vertices
      (PySeq.enumerate 0 (seq (offset + 1) j))
      (PySeq.enumerate 1 (map node_of_vertex done))
      (ground_supports 1 done)
    = (PySeq.enumerate 0 (seq (offset + 1) (j + List.length vertices)),
       PySeq.enumerate 1 (map node_of_vertex (done ++ vertices)),
       ground_supports 1 (done ++ vertices)).
Proof.
  induction vertices as [ | v vertices IH]; intros j offset done Hidx Hlen.
  - cbn [map_vertices List.length]. now rewrite Nat.add_0_r, app_nil_r.
  - cbn [map List.length seq] in Hidx. injection Hidx as Hv Hidx.
    cbn [map_vertices]. rewrite Hv.
    rewrite enumerate_length, length_map.
    replace (Dict.set Nat.eqb j (List.length done + 1) (PySeq.enumerate 0 (seq (offset + 1) j)))
      with (PySeq.enumerate 0 (seq (offset + 1) (S j))).
    2:{ rewrite seq_S, <- enumerate_set_next, length_seq. f_equal. lia. }
    replace (Dict.set Nat.eqb (List.length done + 1)
               {| Node.x := Vector.x (MeshVertex.co v);
                  Node.y := Vector.z (MeshVertex.co v);
                  Node.z := Vector.y (MeshVertex.co v) |}
               (PySeq.enumerate 1 (map node_of_vertex done)))
      with (PySeq.enumerate 1 (map node_of_vertex (done ++ [v]))).
    2:{ rewrite map_app. cbn [map]. rewrite <- enumerate_set_next, length_map.
        f_equal. lia. }
    replace (if (Vector.z (MeshVertex.co v) =? 0)%float
             then Dict.set Nat.eqb (List.length done + 1)
                           (ground_support (List.length done + 1)) (ground_supports 1 done)
             else ground_supports 1 done)
      with (ground_supports 1 (done ++ [v])).
    2:{ rewrite <- ground_supports_set_next. unfold isGroundSupport.
        now rewrite (Nat.add_comm 1). }
    rewrite (IH (S j) offset (done ++ [v]) Hidx).
    + rewrite <- app_assoc. replace (j + List.length (v :: vertices))
        with (S j + List.length vertices) by (cbn [List.length]; lia).
      reflexivity.
    + rewrite length_app. cbn [List.length]. lia.
Qed.

Lemma vertex_map_getitem (offset n i : nat) :
  i < n ->
  Dict.getitem Nat.eqb i (PySeq.enumerate 0 (seq (offset + 1) n)) = Ok (offset + i + 1).
Proof.
  intros Hi. unfold Dict.getitem.
  rewrite (enumerate_get 0 i), (nth_error_nth' _ 0) by (now rewrite length_seq).
  rewrite seq_nth by exact Hi. f_equal. lia.
Qed.

(** The loop over the edges of one mesh whose vertices got the node ids
    from [offset + 1] on. *)
Lemma define_members_eq (edges : list MeshEdge.t) :
  forall (offset n : nat) (done : list Member.t),
    forallb (fun edge => (fst (MeshEdge.vertices edge) <? n)
                         && (snd (MeshEdge.vertices edge) <? n)) edges = true ->
    define_members edges (PySeq.enumerate 0 (seq (offset + 1) n)) (PySeq.enumerate 1 done)
    = Ok (PySeq.enumerate 1
            (done ++ map (fun edge =>
                            edge_member (offset + fst (MeshEdge.vertices edge) + 1)
                                        (offset + snd (MeshEdge.vertices edge) + 1))
                         edges)).
Proof.
  induction edges as [ | edge edges IH]; intros offset n done Hwf.
  - cbn [define_members map]. now rewrite app_nil_r.
  - cbn [forallb] in Hwf. apply andb_prop in Hwf. destruct Hwf as [Hedge Hwf].
    apply andb_prop in Hedge. destruct Hedge as [Ha Hb].
    apply Nat.ltb_lt in Ha, Hb.
    cbn [define_members]. rewrite (vertex_map_getitem offset Ha).
    cbn [bind]. rewrite (vertex_map_getitem offset Hb). cbn [bind].
    rewrite enumerate_length.
    replace (List.length done + 1) with (1 + List.length done) by lia.
    rewrite enumerate_set_next.
    rewrite (IH offset n _ Hwf), <- app_assoc. reflexivity.
Qed.

Lemma wf_indices (start : nat) (vertices : list MeshVertex.t) :
  forallb (fun iv => MeshVertex.index (snd iv) =? fst iv)
          (PySeq.enumerate start vertices) = true ->
  map MeshVertex.index vertices = seq start (List.length vertices).
Proof.
  unfold PySeq.enumerate. revert start.
  induction vertices as [ | v vertices IH]; intros start; simpl; [reflexivity | ].
  intros H. apply andb_prop in H. destruct H as [Hv H].
  apply Nat.eqb_eq in Hv. rewrite Hv. f_equal. now apply IH.
Qed.

Lemma scene_vertices_cons (obj : Object.t) (objects : list Object.t) :
  scene_vertices (obj :: objects) = object_vertices obj ++ scene_vertices objects.
Proof. reflexivity. Qed.

(** The loop over the objects, from a state in which the vertices [done]
    and the members [done_members] have been numbered. *)
Lemma extract_objects_eq (objects : list Object.t) :
  forall (i : nat) (active : option nat)
         (done : list MeshVertex.t) (done_members : list Member.t),
    forallb wf_object objects = true ->
    mode_set_accepts objects = true ->
    exists active',
      extract_objects objects i active
        {| nodes := PySeq.enumerate 1 (map node_of_vertex done);
           members := PySeq.enumerate 1 done_members;
           supports := ground_supports 1 done |}
      = Ok ({| nodes := PySeq.enumerate 1 (map node_of_vertex (done ++ scene_vertices objects));
               members := PySeq.enumerate 1
                            (done_members ++ scene_members (List.length done) objects);
               supports := ground_supports 1 (done ++ scene_vertices objects) |},
            active').
Proof.
  induction objects as [ | obj objects IH]; intros i active done done_members Hwf Hpoll.
  - exists active. cbn [extract_objects scene_vertices flat_map scene_members].
    now rewrite !app_nil_r.
  - cbn [forallb] in Hwf. apply andb_prop in Hwf. destruct Hwf as [Hobj Hwf].
    unfold mode_set_accepts in Hpoll. cbn [forallb] in Hpoll.
    apply andb_prop in Hpoll. destruct Hpoll as [Hobj_poll Hpoll].
    fold (mode_set_accepts objects) in Hpoll. unfold is_mesh_object in Hobj_poll.
    cbn [extract_objects scene_members]. rewrite scene_vertices_cons.
    unfold wf_object in Hobj. unfold object_vertices, object_edges.
    destruct (Object.data obj) as [mesh | ].
    + apply andb_prop in Hobj. destruct Hobj as [Htype Hmesh]. rewrite Htype.
      rewrite Htype in Hobj_poll. cbn [negb orb] in Hobj_poll. rewrite Hobj_poll.
      unfold wf_mesh in Hmesh. apply andb_prop in Hmesh. destruct Hmesh as [Hmesh _].
      apply andb_prop in Hmesh. destruct Hmesh as [Hidx Hedges].
      apply wf_indices in Hidx. cbn [nodes members supports].
      change (Dict.empty nat nat) with (PySeq.enumerate 0 (seq (List.length done + 1) 0)).
      rewrite (map_vertices_eq _ 0 (List.length done) done Hidx) by lia.
      cbn [Nat.add]. unfold in_range in Hedges.
      rewrite (define_members_eq _ (List.length done) _ done_members Hedges).
      cbn [bind].
      destruct (IH (i + 1) (Some i) (done ++ Mesh.vertices mesh)
                   (done_members ++
                    map (fun edge =>
                           edge_member (List.length done + fst (MeshEdge.vertices edge) + 1)
                                       (List.length done + snd (MeshEdge.vertices edge) + 1))
                        (Mesh.edges mesh)) Hwf Hpoll) as [active' Heq].
      exists active'. rewrite Heq, <- !app_assoc, length_app. reflexivity.
    + apply negb_true_iff in Hobj. rewrite Hobj.
      destruct (IH (i + 1) active done done_members Hwf Hpoll) as [active' Heq].
      exists active'. rewrite Heq. cbn [map app List.length].
      now rewrite Nat.add_0_r.
Qed.

(** [extract_mesh_data] numbers the vertices and the edges of all mesh
    objects of the scene in one sequence each. *)
Lemma extract_mesh_data_eq (scene : Scene.t) :
  wf_scene scene = true ->
  mode_set_accepts (Scene.objects scene) = true ->
  exists active',
    extract_mesh_data scene
    = Ok ({| nodes := PySeq.enumerate 1 (map node_of_vertex
                                           (scene_vertices (Scene.objects scene)));
             members := PySeq.enumerate 1 (scene_members 0 (Scene.objects scene));
             supports := ground_supports 1 (scene_vertices (Scene.objects scene)) |},
          Scene.make (Scene.objects scene) active').
Proof.
  intros Hwf Hpoll. unfold extract_mesh_data.
  destruct (extract_objects_eq (Scene.objects scene) 0 (Scene.active scene) [] []
              Hwf Hpoll)
    as [active' Heq].
  exists active'. cbn [map ground_supports PySeq.enumerate List.length seq combine] in Heq.
  unfold Dict.empty. rewrite Heq. reflexivity.
Qed.

(** ** Decimal strings *)

Lemma str_inj (n m : nat) : PyStr.str n = PyStr.str m -> n = m.
Proof.
  unfold PyStr.str. intros H. apply Unsigned.to_uint_inj.
  apply (f_equal NilEmpty.uint_of_string) in H.
  rewrite !NilEmpty.usu in H. now injection H.
Qed.

Lemma to_uint_nonnil (n : nat) : Nat.to_uint n <> Nil.
Proof.
  rewrite <- (Unsigned.of_to n) at 1. rewrite Unsigned.to_of.
  apply DecimalFacts.unorm_nonnil.
Qed.

Lemma str_decimal (n : nat) : all_decimal (PyStr.str n) = true.
Proof.
  unfold PyStr.str. induction (Nat.to_uint n) as [ | d IH | d IH | d IH | d IH | d IH
                                                  | d IH | d IH | d IH | d IH | d IH];
    simpl; trivial.
Qed.

Lemma decimal_not_space (c : ascii) : PyStr.isdecimal c = true -> PyStr.isspace c = false.
Proof.
  destruct c as [[] [] [] [] [] [] [] []]; intros H; try reflexivity; discriminate H.
Qed.

Lemma decimal_not_underscore (c : ascii) :
  PyStr.isdecimal c = true -> Ascii.eqb c "_" = false.
Proof.
  destruct c as [[] [] [] [] [] [] [] []]; intros H; try reflexivity; discriminate H.
Qed.

Lemma lstrip_decimal (s : string) : all_decimal s = true -> PyStr.lstrip s = s.
Proof.
  destruct s as [ | c r]; [reflexivity | ]. simpl. intros H.
  apply andb_prop in H. destruct H as [Hc _].
  now rewrite (decimal_not_space c Hc).
Qed.

Lemma rstrip_decimal (s : string) : all_decimal s = true -> PyStr.rstrip s = s.
Proof.
  induction s as [ | c r IH]; [reflexivity | ]. simpl. intros H.
  apply andb_prop in H. destruct H as [Hc Hr].
  rewrite (IH Hr), (decimal_not_space c Hc). now destruct r.
Qed.

Lemma plain_digits_decimal (s : string) (after_digit : bool) :
  all_decimal s = true ->
  s <> EmptyString \/ after_digit = true ->
  PyStr.plain_digits after_digit s = Some s.
Proof.
  revert after_digit. induction s as [ | c r IH]; intros after_digit Hs Hne.
  - destruct Hne as [Hne | ->]; [congruence | reflexivity].
  - simpl in Hs. apply andb_prop in Hs. destruct Hs as [Hc Hr].
    cbn [PyStr.plain_digits]. rewrite (decimal_not_underscore c Hc), Hc.
    rewrite (IH true Hr) by now right. reflexivity.
Qed.

Lemma sign_split_decimal (s : string) :
  all_decimal s = true -> PyStr.sign_split s = (false, s).
Proof.
  destruct s as [ | c r]; [reflexivity | ]. simpl. intros H.
  apply andb_prop in H. destruct H as [Hc _]. revert Hc.
  destruct c as [[] [] [] [] [] [] [] []]; intros H; try reflexivity; discriminate H.
Qed.

(** [int(str(n)) == n] *)
Lemma int_str (n : nat) : PyStr.int (PyStr.str n) = Ok (Z.of_nat n).
Proof.
  pose proof (str_decimal n) as Hdec.
  assert (Hne : PyStr.str n <> EmptyString).
  { unfold PyStr.str. pose proof (to_uint_nonnil n) as Hnil.
    destruct (Nat.to_uint n); try tauto; discriminate. }
  assert (Hd : PyStr.digits (PyStr.str n) = Ok n).
  { unfold PyStr.digits, PyStr.str.
    pose proof (to_uint_nonnil n) as Hnil.
    assert (E : NilZero.uint_of_string (NilEmpty.string_of_uint (Nat.to_uint n))
                = Some (Nat.to_uint n)).
    { rewrite <- (NilZero.usu _ Hnil). unfold NilZero.string_of_uint.
      now destruct (Nat.to_uint n). }
    rewrite E. now rewrite Unsigned.of_to. }
  unfold PyStr.int.
  rewrite (lstrip_decimal _ Hdec), (rstrip_decimal _ Hdec), (sign_split_decimal _ Hdec).
  rewrite (@plain_digits_decimal _ false Hdec (or_introl Hne)).
  now rewrite Hd.
Qed.

(** ** Plates *)

Lemma enumerate_map {A B : Type} (f : A -> B) (start : nat) (l : list A) :
  PySeq.enumerate start (map f l)
  = map (fun ix => (fst ix, f (snd ix))) (PySeq.enumerate start l).
Proof.
  unfold PySeq.enumerate. revert start.
  induction l as [ | x l IH]; intros start; simpl; [reflexivity | ].
  f_equal. apply IH.
Qed.

(** Plate ids are the decimal strings of 1, 2, ...: each assignment of
    [create_plates] appends. *)
Lemma create_plates_loop_eq (specs : list PlateSpec.t) :
  forall (start : nat) (plates : PlateDict),
    (forall k, In k (Dict.keys plates) -> exists i, i < start /\ k = PyStr.str (i + 1)) ->
    create_plates_loop (PySeq.enumerate start specs) plates
    = plates ++ map (fun ix => (PyStr.str (fst ix + 1), plate_of_spec (snd ix)))
                    (PySeq.enumerate start specs).
Proof.
  unfold PySeq.enumerate.
  induction specs as [ | spec specs IH]; intros start plates Hkeys; simpl.
  - now rewrite app_nil_r.
  - rewrite (dict_set_fresh String.eqb String.eqb_eq).
    + rewrite IH.
      * now rewrite <- app_assoc.
      * intros k. unfold Dict.keys. rewrite map_app, in_app_iff. simpl.
        intros [H | [<- | []]].
        -- destruct (Hkeys k H) as [i [Hi ->]]. exists i. split; [lia | reflexivity].
        -- exists start. split; [lia | reflexivity].
    + intros H. destruct (Hkeys _ H) as [i [Hi E]]. apply str_inj in E. lia.
Qed.

Lemma create_plates_from_mesh_data_eq (mesh : Mesh.t) :
  create_plates_from_mesh_data mesh
  = map (fun ip => (PyStr.str (fst ip + 1),
                    default_plate (node_references (MeshPolygon.vertices (snd ip)))))
        (PySeq.enumerate 0 (Mesh.polygons mesh)).
Proof.
  unfold create_plates_from_mesh_data, create_plates.
  rewrite create_plates_loop_eq by (intros k []).
  unfold Dict.empty. cbn [app]. rewrite enumerate_map, map_map. reflexivity.
Qed.

Lemma create_plates_from_mesh_data_keys (mesh : Mesh.t) :
  Dict.keys (create_plates_from_mesh_data mesh)
  = map PyStr.str (seq 1 (List.length (Mesh.polygons mesh))).
Proof.
  rewrite create_plates_from_mesh_data_eq. unfold Dict.keys. rewrite map_map.
  cbn [fst]. rewrite <- (map_map fst (fun i => PyStr.str (i + 1))).
  change (map fst (PySeq.enumerate 0 (Mesh.polygons mesh)))
    with (Dict.keys (PySeq.enumerate 0 (Mesh.polygons mesh))).
  rewrite enumerate_keys, <- seq_shift, map_map.
  apply map_ext. intros i. now rewrite Nat.add_1_r.
Qed.

(** ** Positions in a scene *)

Lemma scene_vertices_app (l l' : list Object.t) :
  scene_vertices (l ++ l') = scene_vertices l ++ scene_vertices l'.
Proof. apply flat_map_app. Qed.

Lemma scene_edges_app (l l' : list Object.t) :
  scene_edges (l ++ l') = scene_edges l ++ scene_edges l'.
Proof. apply flat_map_app. Qed.

Lemma scene_members_app (offset : nat) (l l' : list Object.t) :
  scene_members offset (l ++ l')
  = scene_members offset l ++ scene_members (offset + List.length (scene_vertices l)) l'.
Proof.
  revert offset. induction l as [ | obj l IH]; intros offset; simpl.
  - now rewrite Nat.add_0_r.
  - rewrite IH, <- app_assoc, length_app. now rewrite Nat.add_assoc.
Qed.

Lemma scene_members_length (offset : nat) (l : list Object.t) :
  List.length (scene_members offset l) = List.length (scene_edges l).
Proof.
  revert offset. induction l as [ | obj l IH]; intros offset; simpl; [reflexivity | ].
  now rewrite !length_app, length_map, IH.
Qed.

Lemma nth_error_middle {A : Type} (l1 l2 l3 : list A) (j : nat) (x : A) :
  nth_error l2 j = Some x ->
  nth_error (l1 ++ l2 ++ l3) (List.length l1 + j) = Some x.
Proof.
  intros H. rewrite nth_error_app2 by lia.
  replace (List.length l1 + j - List.length l1) with j by lia.
  rewrite nth_error_app1; [exact H | ].
  apply nth_error_Some. now rewrite H.
Qed.

(** The vertex at position [j] of a mesh object is the vertex number
    [length (scene_vertices before) + j] of the scene. *)
Lemma scene_vertices_nth (before after : list Object.t) (obj : Object.t)
      (mesh : Mesh.t) (j : nat) (v : MeshVertex.t) :
  Object.data obj = MeshID mesh ->
  nth_error (Mesh.vertices mesh) j = Some v ->
  nth_error (scene_vertices (before ++ obj :: after))
            (List.length (scene_vertices before) + j) = Some v.
Proof.
  intros Hdata Hj. rewrite scene_vertices_app, scene_vertices_cons.
  apply nth_error_middle. unfold object_vertices. now rewrite Hdata.
Qed.

Lemma scene_members_nth (before after : list Object.t) (obj : Object.t)
      (mesh : Mesh.t) (j : nat) (edge : MeshEdge.t) :
  Object.data obj = MeshID mesh ->
  nth_error (Mesh.edges mesh) j = Some edge ->
  nth_error (scene_members 0 (before ++ obj :: after))
            (List.length (scene_edges before) + j)
  = Some (edge_member
            (List.length (scene_vertices before) + fst (MeshEdge.vertices edge) + 1)
            (List.length (scene_vertices before) + snd (MeshEdge.vertices edge) + 1)).
Proof.
  intros Hdata Hj. rewrite scene_members_app. cbn [scene_members Nat.add].
  rewrite <- (scene_members_length 0 before).
  apply nth_error_middle. unfold object_edges. rewrite Hdata.
  now rewrite nth_error_map, Hj.
Qed.

Lemma mapM_int_str (l : list nat) :
  mapM PyStr.int (map PyStr.str l) = Ok (map Z.of_nat l).
Proof.
  induction l as [ | n l IH]; simpl; [reflexivity | ].
  now rewrite int_str, IH.
Qed.

Lemma node_get (objects before after : list Object.t) (obj : Object.t)
      (mesh : Mesh.t) (j : nat) (v : MeshVertex.t) :
  objects = before ++ obj :: after ->
  Object.data obj = MeshID mesh ->
  nth_error (Mesh.vertices mesh) j = Some v ->
  Dict.get Nat.eqb (List.length (scene_vertices before) + j + 1)
           (PySeq.enumerate 1 (map node_of_vertex (scene_vertices objects)))
  = Some (node_of_vertex v).
Proof.
  intros -> Hdata Hj.
  replace (List.length (scene_vertices before) + j + 1)
    with (1 + (List.length (scene_vertices before) + j)) by lia.
  rewrite enumerate_get, nth_error_map.
  now rewrite (@scene_vertices_nth before after obj mesh j v Hdata Hj).
Qed.

Lemma member_get (objects before after : list Object.t) (obj : Object.t)
      (mesh : Mesh.t) (j : nat) (edge : MeshEdge.t) :
  objects = before ++ obj :: after ->
  Object.data obj = MeshID mesh ->
  nth_error (Mesh.edges mesh) j = Some edge ->
  Dict.get Nat.eqb (List.length (scene_edges before) + j + 1)
           (PySeq.enumerate 1 (scene_members 0 objects))
  = Some (edge_member
            (List.length (scene_vertices before) + fst (MeshEdge.vertices edge) + 1)
            (List.length (scene_vertices before) + snd (MeshEdge.vertices edge) + 1)).
Proof.
  intros -> Hdata Hj.
  replace (List.length (scene_edges before) + j + 1)
    with (1 + (List.length (scene_edges before) + j)) by lia.
  rewrite enumerate_get. now apply scene_members_nth with mesh.
Qed.

(** ** The claims about topology extraction *)

(** The mesh data behind an object of a scene as the host supplies it. *)
Lemma wf_scene_mesh (scene : Scene.t) (before after : list Object.t) (obj : Object.t)
      (mesh : Mesh.t) :
  wf_scene scene = true ->
  Scene.objects scene = before ++ obj :: after ->
  Object.data obj = MeshID mesh ->
  is_mesh_object obj = true /\ wf_mesh mesh = true.
Proof.
  intros Hwf Hobjs Hdata.
  unfold wf_scene in Hwf. rewrite Hobjs, forallb_app in Hwf.
  apply andb_prop in Hwf. destruct Hwf as [_ Hwf]. cbn [forallb] in Hwf.
  apply andb_prop in Hwf. destruct Hwf as [Hobj _].
  unfold wf_object in Hobj. rewrite Hdata in Hobj.
  apply andb_prop in Hobj. exact Hobj.
Qed.

(** C5: on a scene whose mesh objects the operator of line 201 accepts,
    node ids, member ids and plate ids are each 1, 2, ..., n with no
    gap and no repetition; the node and member counters go on across the
    mesh objects of a scene (the [j]-th vertex of an object gets the
    number of vertices of the objects before it, plus [j + 1]), so each
    vertex has one node id of its own. *)
Theorem ids_dense_sequential :
  forall scene : Scene.t,
    wf_scene scene = true ->
    mode_set_accepts (Scene.objects scene) = true ->
    exists (extracted : Extracted) (scene' : Scene.t),
      extract_mesh_data scene = Ok (extracted, scene')
      /\ Dict.keys (nodes extracted)
         = seq 1 (List.length (scene_vertices (Scene.objects scene)))
      /\ Dict.keys (members extracted)
         = seq 1 (List.length (scene_edges (Scene.objects scene)))
      /\ (forall mesh : Mesh.t,
            Dict.keys (create_plates_from_mesh_data mesh)
            = map PyStr.str (seq 1 (List.length (Mesh.polygons mesh)))
            /\ mapM PyStr.int (Dict.keys (create_plates_from_mesh_data mesh))
               = Ok (map Z.of_nat (seq 1 (List.length (Mesh.polygons mesh)))))
      /\ (forall (before after : list Object.t) (obj : Object.t) (mesh : Mesh.t),
            Scene.objects scene = before ++ obj :: after ->
            Object.data obj = MeshID mesh ->
            (forall (j : nat) (v : MeshVertex.t),
                nth_error (Mesh.vertices mesh) j = Some v ->
                Dict.get Nat.eqb (List.length (scene_vertices before) + j + 1)
                         (nodes extracted)
                = Some (node_of_vertex v))
            /\ (forall (j : nat) (edge : MeshEdge.t),
                   nth_error (Mesh.edges mesh) j = Some edge ->
                   exists member : Member.t,
                     Dict.get Nat.eqb (List.length (scene_edges before) + j + 1)
                              (members extracted)
                     = Some member)).
Proof.
  intros scene Hwf Hpoll. destruct (extract_mesh_data_eq scene Hwf Hpoll) as [active' Heq].
  eexists. eexists. split; [exact Heq | ]. cbn [nodes members].
  split; [now rewrite enumerate_keys, length_map | ].
  split; [now rewrite enumerate_keys, scene_members_length | ].
  split.
  - intros mesh. rewrite create_plates_from_mesh_data_keys.
    split; [reflexivity | apply mapM_int_str].
  - intros before after obj mesh Hobjs Hdata. split.
    + intros j v Hj. eapply node_get; eassumption.
    + intros j edge Hj. eexists. eapply member_get; eassumption.
Qed.

Lemma ids_dense_sequential_witness :
  wf_scene two_mesh_scene = true
  /\ mode_set_accepts (Scene.objects two_mesh_scene) = true
  /\ exists (extracted : Extracted) (scene' : Scene.t),
      extract_mesh_data two_mesh_scene = Ok (extracted, scene')
      /\ Dict.keys (nodes extracted) = [1; 2; 3; 4; 5; 6; 7; 8; 9]
      /\ Dict.keys (members extracted) = [1; 2; 3; 4].
Proof.
  split; [reflexivity | ]. split; [reflexivity | ].
  destruct (ids_dense_sequential two_mesh_scene eq_refl eq_refl)
    as (extracted & scene' & Heq & Hnodes & Hmembers & _).
  exists extracted, scene'. repeat split; assumption.
Defined.

(** C6: on a scene whose mesh objects the operator of line 201 accepts,
    the node of a vertex has a support exactly when the source z of the
    vertex equals 0 (as floats: [1e-9] does not); the support is keyed by
    the node id, occurs once, names that node, and carries the fixed
    codes "BBBBBB" and "FFFFFF" and six zero stiffnesses. *)
Theorem support_iff_ground :
  forall scene : Scene.t,
    wf_scene scene = true ->
    mode_set_accepts (Scene.objects scene) = true ->
    exists (extracted : Extracted) (scene' : Scene.t),
      extract_mesh_data scene = Ok (extracted, scene')
      /\ NoDup (Dict.keys (supports extracted))
      /\ (forall (before after : list Object.t) (obj : Object.t) (mesh : Mesh.t)
                 (j : nat) (v : MeshVertex.t),
            Scene.objects scene = before ++ obj :: after ->
            Object.data obj = MeshID mesh ->
            nth_error (Mesh.vertices mesh) j = Some v ->
            let node_id := List.length (scene_vertices before) + j + 1 in
            Dict.get Nat.eqb node_id (nodes extracted) = Some (node_of_vertex v)
            /\ ((Vector.z (MeshVertex.co v) =? 0)%float = true ->
                Dict.get Nat.eqb node_id (supports extracted)
                = Some {| Support.type := "node";
                          Support.direction_code := "BBBBBB";
                          Support.tx := 0%Z; Support.ty := 0%Z; Support.tz := 0%Z;
                          Support.rx := 0%Z; Support.ry := 0%Z; Support.rz := 0%Z;
                          Support.node := node_id;
                          Support.restraint_code := "FFFFFF" |})
            /\ ((Vector.z (MeshVertex.co v) =? 0)%float = false ->
                Dict.get Nat.eqb node_id (supports extracted) = None))
      /\ (1e-9 =? 0)%float = false.
Proof.
  intros scene Hwf Hpoll. destruct (extract_mesh_data_eq scene Hwf Hpoll) as [active' Heq].
  eexists. eexists. split; [exact Heq | ]. cbn [nodes supports].
  split; [apply ground_supports_NoDup | ]. split; [ | reflexivity].
  intros before after obj mesh j v Hobjs Hdata Hj.
  set (node_id := List.length (scene_vertices before) + j + 1).
  split; [eapply node_get; eassumption | ].
  assert (Hget : Dict.get Nat.eqb node_id
                   (ground_supports 1 (scene_vertices (Scene.objects scene)))
                 = if isGroundSupport v then Some (ground_support node_id) else None).
  { unfold node_id.
    replace (List.length (scene_vertices before) + j + 1)
      with (1 + (List.length (scene_vertices before) + j)) by lia.
    apply ground_supports_get. rewrite Hobjs.
    eapply scene_vertices_nth; eassumption. }
  unfold isGroundSupport, ground_support in Hget.
  split; intros Hz; now rewrite Hz in Hget.
Qed.

Lemma support_iff_ground_witness :
  wf_scene two_mesh_scene = true
  /\ mode_set_accepts (Scene.objects two_mesh_scene) = true
  /\ exists (extracted : Extracted) (scene' : Scene.t),
      extract_mesh_data two_mesh_scene = Ok (extracted, scene')
      /\ Dict.get Nat.eqb 5 (supports extracted)
         = Some (Support.make "node" "BBBBBB" 0 0 0 0 0 0 5 "FFFFFF")
      /\ Dict.get Nat.eqb 6 (supports extracted) = None.
Proof.
  split; [reflexivity | ]. split; [reflexivity | ].
  destruct (support_iff_ground two_mesh_scene eq_refl eq_refl)
    as (extracted & scene' & Heq & _ & Hsup & _).
  exists extracted, scene'. split; [exact Heq | ].
  pose proof (Hsup [Object.make "MESH" (MeshID triangle_mesh) true; camera] []
                   (Object.make "MESH" (MeshID house_mesh) true) house_mesh)
    as Hhouse.
  split.
  - exact (proj1 (proj2 (Hhouse 1 (vertex 1 1 0 0) eq_refl eq_refl eq_refl)) eq_refl).
  - exact (proj2 (proj2 (Hhouse 2 (vertex 2 0 0 1) eq_refl eq_refl eq_refl)) eq_refl).
Defined.

(** C9: on a scene whose mesh objects the operator of line 201 accepts,
    the member of an edge with two distinct vertex indices has distinct
    end nodes, both among the node ids; the vertex map of an object
    sends position [i] to the number of vertices before the object plus
    [i + 1], is complete before the edges are read, and is injective. *)
Theorem member_nodes_distinct :
  forall scene : Scene.t,
    wf_scene scene = true ->
    mode_set_accepts (Scene.objects scene) = true ->
    exists (extracted : Extracted) (scene' : Scene.t),
      extract_mesh_data scene = Ok (extracted, scene')
      /\ forall (before after : list Object.t) (obj : Object.t) (mesh : Mesh.t),
          Scene.objects scene = before ++ obj :: after ->
          Object.data obj = MeshID mesh ->
          let offset := List.length (scene_vertices before) in
          let vertex_map :=
            fst (fst (map_vertices (Mesh.vertices mesh) (Dict.empty nat nat)
                        (PySeq.enumerate 1 (map node_of_vertex (scene_vertices before)))
                        (ground_supports 1 (scene_vertices before)))) in
          (forall i : nat,
              i < List.length (Mesh.vertices mesh) ->
              Dict.get Nat.eqb i vertex_map = Some (offset + i + 1))
          /\ (forall i : nat,
                 List.length (Mesh.vertices mesh) <= i ->
                 Dict.get Nat.eqb i vertex_map = None)
          /\ (forall (j : nat) (edge : MeshEdge.t),
                 nth_error (Mesh.edges mesh) j = Some edge ->
                 fst (MeshEdge.vertices edge) <> snd (MeshEdge.vertices edge) ->
                 exists member : Member.t,
                   Dict.get Nat.eqb (List.length (scene_edges before) + j + 1)
                            (members extracted) = Some member
                   /\ Member.node_A member = offset + fst (MeshEdge.vertices edge) + 1
                   /\ Member.node_B member = offset + snd (MeshEdge.vertices edge) + 1
                   /\ Dict.get Nat.eqb (fst (MeshEdge.vertices edge)) vertex_map
                      = Some (Member.node_A member)
                   /\ Dict.get Nat.eqb (snd (MeshEdge.vertices edge)) vertex_map
                      = Some (Member.node_B member)
                   /\ Member.node_A member <> Member.node_B member
                   /\ In (Member.node_A member) (Dict.keys (nodes extracted))
                   /\ In (Member.node_B member) (Dict.keys (nodes extracted))).
Proof.
  intros scene Hwf Hpoll. destruct (extract_mesh_data_eq scene Hwf Hpoll) as [active' Heq].
  eexists. eexists. split; [exact Heq | ].
  intros before after obj mesh Hobjs Hdata offset vertex_map. cbn [nodes members].
  destruct (wf_scene_mesh scene before after obj Hwf Hobjs Hdata) as [_ Hmesh].
  unfold wf_mesh in Hmesh. apply andb_prop in Hmesh. destruct Hmesh as [Hmesh _].
  apply andb_prop in Hmesh. destruct Hmesh as [Hidx Hedges].
  apply wf_indices in Hidx.
  assert (Hvm : vertex_map
                = PySeq.enumerate 0 (seq (offset + 1) (List.length (Mesh.vertices mesh)))).
  { unfold vertex_map.
    change (Dict.empty nat nat) with (PySeq.enumerate 0 (seq (offset + 1) 0)).
    rewrite (map_vertices_eq _ 0 offset (scene_vertices before) Hidx)
      by (unfold offset; lia).
    reflexivity. }
  assert (Hmap : forall i, i < List.length (Mesh.vertices mesh) ->
                           Dict.get Nat.eqb i vertex_map = Some (offset + i + 1)).
  { intros i Hi. rewrite Hvm.
    pose proof (vertex_map_getitem offset Hi) as Hget.
    unfold Dict.getitem in Hget.
    destruct (Dict.get Nat.eqb i _); [now injection Hget as -> | discriminate]. }
  split; [exact Hmap | ]. split.
  { intros i Hi. rewrite Hvm, (enumerate_get 0 i).
    apply nth_error_None. now rewrite length_seq. }
  intros j edge Hj Hneq.
  rewrite forallb_forall in Hedges.
  pose proof (Hedges edge (nth_error_In _ _ Hj)) as Hedge.
  apply andb_prop in Hedge. destruct Hedge as [Ha Hb].
  unfold in_range in Ha, Hb. apply Nat.ltb_lt in Ha, Hb.
  eexists. split; [eapply member_get; eassumption | ].
  cbn [Member.node_A Member.node_B edge_member].
  split; [reflexivity | ]. split; [reflexivity | ].
  split; [now apply Hmap | ]. split; [now apply Hmap | ].
  split; [unfold offset; lia | ].
  assert (Hlen : List.length (Mesh.vertices mesh) + List.length (scene_vertices before)
                 <= List.length (scene_vertices (Scene.objects scene))).
  { rewrite Hobjs, scene_vertices_app, scene_vertices_cons, !length_app.
    unfold object_vertices. rewrite Hdata. lia. }
  rewrite enumerate_keys, length_map, !in_seq. unfold offset. lia.
Qed.

Lemma member_nodes_distinct_witness :
  wf_scene two_mesh_scene = true
  /\ mode_set_accepts (Scene.objects two_mesh_scene) = true
  /\ exists (extracted : Extracted) (scene' : Scene.t) (member : Member.t),
      extract_mesh_data two_mesh_scene = Ok (extracted, scene')
      /\ Dict.get Nat.eqb 4 (members extracted) = Some member
      /\ Member.node_A member = 6
      /\ Member.node_B member = 8
      /\ Member.node_A member <> Member.node_B member.
Proof.
  split; [reflexivity | ]. split; [reflexivity | ].
  destruct (member_nodes_distinct two_mesh_scene eq_refl eq_refl)
    as (extracted & scene' & Heq & Hmem).
  destruct (proj2 (proj2 (Hmem [Object.make "MESH" (MeshID triangle_mesh) true; camera] []
                                (Object.make "MESH" (MeshID house_mesh) true) house_mesh
                                eq_refl eq_refl))
                  2 (MeshEdge.make (2, 4)) eq_refl ltac:(discriminate))
    as (member & Hget & HA & HB & _ & _ & Hneq & _).
  exists extracted, scene', member. repeat split; assumption.
Defined.

(** ** The claims about plates and the whole script *)

Lemma enumerate_nth {A : Type} (start i : nat) (l : list A) (x : A) :
  nth_error l i = Some x -> nth_error (PySeq.enumerate start l) i = Some (start + i, x).
Proof.
  unfold PySeq.enumerate. revert start i.
  induction l as [ | y l IH]; intros start i; destruct i as [ | i]; simpl;
    try discriminate.
  - intros [= ->]. now rewrite Nat.add_0_r.
  - intros H. rewrite (IH (S start) i H). f_equal. f_equal. lia.
Qed.

Lemma create_plates_from_mesh_data_NoDup (mesh : Mesh.t) :
  NoDup (Dict.keys (create_plates_from_mesh_data mesh)).
Proof.
  rewrite create_plates_from_mesh_data_keys.
  apply Injective_map_NoDup; [ | apply seq_NoDup].
  intros n m. apply str_inj.
Qed.

(** C8, amended: the plate of a polygon lists all the vertices of the
    polygon, in order, as 1-based references joined by commas (for a
    triangle these are its three vertices); every other attribute is the
    default; and when no mesh vertex precedes the mesh in the scene (and
    the operator of line 201 accepts the scene's mesh objects), the
    reference [i + 1] is the node id that [extract_mesh_data] gave to
    vertex [i]. *)
Theorem plates_of_polygons :
  forall mesh : Mesh.t,
    create_plates_from_mesh_data mesh
    = map (fun ip => (PyStr.str (fst ip + 1),
                      default_plate (node_references (MeshPolygon.vertices (snd ip)))))
          (PySeq.enumerate 0 (Mesh.polygons mesh))
    /\ (forall (i : nat) (poly : MeshPolygon.t),
          nth_error (Mesh.polygons mesh) i = Some poly ->
          Dict.get String.eqb (PyStr.str (i + 1)) (create_plates_from_mesh_data mesh)
          = Some (default_plate (node_references (MeshPolygon.vertices poly)))
          /\ (List.length (MeshPolygon.vertices poly) = 3 ->
              node_references (MeshPolygon.vertices poly)
              = node_references (firstn 3 (MeshPolygon.vertices poly))))
    /\ (forall (scene : Scene.t) (before after : list Object.t) (obj : Object.t),
          wf_scene scene = true ->
          mode_set_accepts (Scene.objects scene) = true ->
          Scene.objects scene = before ++ obj :: after ->
          Object.data obj = MeshID mesh ->
          scene_vertices before = [] ->
          exists (extracted : Extracted) (scene' : Scene.t),
            extract_mesh_data scene = Ok (extracted, scene')
            /\ forall (i : nat) (v : MeshVertex.t),
                nth_error (Mesh.vertices mesh) i = Some v ->
                PyStr.int (PyStr.str (i + 1)) = Ok (Z.of_nat (i + 1))
                /\ Dict.get Nat.eqb (i + 1) (nodes extracted) = Some (node_of_vertex v)).
Proof.
  intros mesh. split; [apply create_plates_from_mesh_data_eq | ]. split.
  - intros i poly Hi. split.
    + apply (dict_In_get String.eqb String.eqb_eq).
      * apply create_plates_from_mesh_data_NoDup.
      * rewrite create_plates_from_mesh_data_eq.
        apply (enumerate_nth 0) in Hi. apply nth_error_In in Hi.
        apply (in_map (fun ip => (PyStr.str (fst ip + 1),
                                  default_plate
                                    (node_references (MeshPolygon.vertices (snd ip))))))
          in Hi.
        exact Hi.
    + intros Hlen. rewrite <- Hlen. now rewrite firstn_all.
  - intros scene before after obj Hwf Hpoll Hobjs Hdata Hbefore.
    destruct (extract_mesh_data_eq scene Hwf Hpoll) as [active' Heq].
    eexists. eexists. split; [exact Heq | ]. cbn [nodes].
    intros i v Hi. split; [apply int_str | ].
    pose proof (@node_get (Scene.objects scene) before after obj mesh i v Hobjs Hdata Hi)
      as Hget.
    rewrite Hbefore in Hget. exact Hget.
Qed.

Lemma plates_of_polygons_witness :
  wf_scene (triangle_scene None) = true
  /\ mode_set_accepts (Scene.objects (triangle_scene None)) = true
  /\ exists (extracted : Extracted) (scene' : Scene.t),
      extract_mesh_data (triangle_scene None) = Ok (extracted, scene')
      /\ Dict.get String.eqb "1" (create_plates_from_mesh_data triangle_mesh)
         = Some (default_plate "1,2,3")
      /\ Dict.get Nat.eqb 3 (nodes extracted) = Some (Node.make 0 0 1).
Proof.
  split; [reflexivity | ]. split; [reflexivity | ].
  destruct (plates_of_polygons triangle_mesh) as (_ & Hplate & Hrefs).
  destruct (Hrefs (triangle_scene None) [] []
                  (Object.make "MESH" (MeshID triangle_mesh) true)
                  eq_refl eq_refl eq_refl eq_refl eq_refl)
    as (extracted & scene' & Heq & Hnodes).
  exists extracted, scene'. split; [exact Heq | ]. split.
  - exact (proj1 (Hplate 0 (MeshPolygon.make [0; 1; 2]) eq_refl)).
  - exact (proj2 (Hnodes 2 (vertex 2 0 1 0) eq_refl)).
Defined.

(** C8 as first stated fails in two ways.  On a quadrilateral the plate
    of the polygon over vertices 0, 1, 2, 3 lists four nodes, not the
    first three.  And in a scene of two mesh objects the plates are
    those of the last one, with references that count from the start of
    its own mesh: the first plate of the house lists "1,2,3", but the
    nodes 1, 2, 3 are the vertices of the triangle before it; the third
    corner of that plate, vertex 2 of the house at (0, 0, 1), is node 6,
    and node 3 is the triangle's vertex at (0, 1, 0). *)
Lemma plate_references_mismatch :
  (wf_mesh quad_mesh = true
   /\ exists plate : Plate.t,
       Dict.get String.eqb "1" (create_plates_from_mesh_data quad_mesh) = Some plate
       /\ Plate.nodes plate = "1,2,3,4"
       /\ Plate.nodes plate <> node_references (firstn 3 [0; 1; 2; 3]))
  /\ (wf_scene two_mesh_scene = true
      /\ mode_set_accepts (Scene.objects two_mesh_scene) = true
      /\ exists (extracted : Extracted) (scene' : Scene.t) (plate : Plate.t),
          extract_mesh_data two_mesh_scene = Ok (extracted, scene')
          /\ context_mesh scene' = Ok house_mesh
          /\ nth_error (Mesh.polygons house_mesh) 0 = Some (MeshPolygon.make [0; 1; 2])
          /\ Dict.get String.eqb "1" (create_plates_from_mesh_data house_mesh) = Some plate
          /\ Plate.nodes plate = "1,2,3"
          /\ nth_error (Mesh.vertices house_mesh) 2 = Some (vertex 2 0 0 1)
          /\ Dict.get Nat.eqb 6 (nodes extracted) = Some (Node.make 0 1 0)
          /\ Dict.get Nat.eqb 3 (nodes extracted) = Some (Node.make 0 0 1)
          /\ Node.make 0 0 1 <> node_of_vertex (vertex 2 0 0 1)).
Proof.
  split.
  - split; [reflexivity | ].
    exists (default_plate "1,2,3,4").
    split; [reflexivity | ]. split; [reflexivity | ]. discriminate.
  - split; [reflexivity | ]. split; [reflexivity | ].
    eexists. eexists. exists (default_plate "1,2,3").
    split; [vm_compute; reflexivity | ].
    do 7 (split; [reflexivity | ]).
    intros H. apply (f_equal (fun node => (Node.y node =? 0)%float)) in H.
    vm_compute in H. discriminate H.
Qed.

(** C1: the scene of one mesh with the vertices (0,0,0), (1,0,0),
    (0,1,0), the edge 0-1 and the triangle 0,1,2 gives three nodes with
    y and z swapped, one member from node 1 to node 2, a support at each
    of the three nodes, one plate over nodes "1,2,3", and one area load
    of magnitude 0.15 in direction "Y". *)
Theorem triangle_scene_model :
  forall (pow_error : float -> comparison) (math_atan2 : float -> float -> float)
         (active : option nat),
    exists model : Model,
      script pow_error math_atan2 (triangle_scene active) = Ok model
      /\ model_nodes model
         = [(1, {| Node.x := 0; Node.y := 0; Node.z := 0 |});
            (2, {| Node.x := 1; Node.y := 0; Node.z := 0 |});
            (3, {| Node.x := 0; Node.y := 0; Node.z := 1 |})]
      /\ (exists member : Member.t,
             model_members model = [(1, member)]
             /\ Member.node_A member = 1
             /\ Member.node_B member = 2
             /\ Member.type member = "normal_continuous"
             /\ Member.section_id member = 1%Z)
      /\ (exists support1 support2 support3 : Support.t,
             model_supports model = [(1, support1); (2, support2); (3, support3)]
             /\ map Support.node [support1; support2; support3] = [1; 2; 3]
             /\ map Support.restraint_code [support1; support2; support3]
                = ["FFFFFF"; "FFFFFF"; "FFFFFF"]
             /\ map Support.direction_code [support1; support2; support3]
                = ["BBBBBB"; "BBBBBB"; "BBBBBB"]
             /\ map Support.type [support1; support2; support3]
                = ["node"; "node"; "node"])
      /\ (exists plate : Plate.t,
             model_plates model = [("1", plate)]
             /\ Plate.nodes plate = "1,2,3"
             /\ Plate.thickness plate = 0.39370078740157477%float
             /\ Plate.material_id plate = 3%Z)
      /\ exists load : AreaLoad.t,
          model_area_loads model = [("1", load)]
          /\ AreaLoad.nodes load = "1,2,3"
          /\ AreaLoad.direction load = "Y"
          /\ AreaLoad.mag load = PyFlt 0.15.
Proof.
  intros pow_error math_atan2 active. eexists. split; [vm_compute; reflexivity | ].
  cbn [model_nodes model_members model_supports model_plates model_area_loads].
  split; [reflexivity | ].
  split; [eexists; repeat split; reflexivity | ].
  split; [eexists; eexists; eexists; repeat split; reflexivity | ].
  split; [eexists; repeat split; reflexivity | ].
  eexists. repeat split; reflexivity.
Qed.

(** * Further properties of the code *)

(** ** Which exceptions the normal computation can raise *)

Lemma calculate_normal_raises (pow_error : float -> comparison)
      (v1 v2 v3 : Vector.t) (e : exn) :
  calculate_normal pow_error [v1; v2; v3] = Raise e ->
  e = OverflowError \/ e = ZeroDivisionError.
Proof.
  unfold calculate_normal, PyFloat.pow2, PyFloat.math_sqrt, PyFloat.truediv, Vector.initM.
  destruct (cross_product v1 v2 v3) as [a b c].
  cbn [Vector.getitem Vector.x Vector.y Vector.z].
  destruct (PyFloat.overflows pow_error a); [intros [= <-]; now left | ].
  destruct (PyFloat.overflows pow_error b); [intros [= <-]; now left | ].
  destruct (PyFloat.overflows pow_error c); [intros [= <-]; now left | ].
  cbn [bind]. rewrite sum_of_squares_not_negative by exact I. cbn [bind].
  destruct (sqrt _ =? 0)%float; [intros [= <-]; now right | discriminate].
Qed.

(** X1: [calculate_normal] raises [ValueError] exactly on a list that does
    not have three vertices; on three vertices it can only raise
    [OverflowError] (a square overflows) or [ZeroDivisionError] (the
    length is zero): the argument of [math.sqrt] is never negative. *)
Theorem calculate_normal_exceptions :
  forall (pow_error : float -> comparison) (vertices : list Vector.t),
    (calculate_normal pow_error vertices = Raise ValueError
     <-> List.length vertices <> 3)
    /\ forall e : exn,
        calculate_normal pow_error vertices = Raise e ->
        (List.length vertices <> 3 /\ e = ValueError)
        \/ (List.length vertices = 3 /\ (e = OverflowError \/ e = ZeroDivisionError)).
Proof.
  intros pow_error vertices.
  destruct vertices as [ | v1 [ | v2 [ | v3 [ | v4 more]]]];
    try (split; [split; [intros _; simpl; lia | reflexivity]
                | simpl; intros e [= <-]; left; split; [lia | reflexivity]]).
  split.
  - split; [ | simpl; lia]. intros H.
    apply calculate_normal_raises in H. destruct H; discriminate.
  - intros e H. right. split; [reflexivity | ].
    now apply calculate_normal_raises with pow_error v1 v2 v3.
Qed.

Lemma normalized_normal_raises (pow_error : float -> comparison)
      (normal : Vector.t) (e : exn) :
  normalized_normal pow_error normal = Raise e ->
  e = OverflowError \/ e = ZeroDivisionError.
Proof.
  unfold normalized_normal, PyFloat.pow2, PyFloat.math_sqrt, PyFloat.truediv, Vector.initM.
  destruct normal as [a b c]. cbn [Vector.getitem Vector.x Vector.y Vector.z].
  destruct (PyFloat.overflows pow_error a); [intros [= <-]; now left | ].
  destruct (PyFloat.overflows pow_error b); [intros [= <-]; now left | ].
  destruct (PyFloat.overflows pow_error c); [intros [= <-]; now left | ].
  cbn [bind]. rewrite squares_not_negative. cbn [bind].
  destruct (sqrt _ =? 0)%float; [intros [= <-]; now right | discriminate].
Qed.

Lemma determine_load_direction_raises (pow_error : float -> comparison) (math_atan2 : float -> float -> float)
      (normal : Vector.t) (e : exn) :
  determine_load_direction pow_error math_atan2 normal = Raise e ->
  normalized_normal pow_error normal = Raise e.
Proof.
  unfold determine_load_direction.
  destruct (normalized_normal pow_error normal) as [unit | e']; cbn [bind];
    [ | now intros [= <-]].
  set (ang := angle math_atan2 unit).
  destruct ((-45 <=? ang) && (ang <? 45))%float; [discriminate | ].
  destruct ((45 <=? ang) && (ang <? 135))%float; [discriminate | ].
  destruct ((-135 <=? ang) && (ang <? -45))%float; discriminate.
Qed.

(** X2: [determine_load_direction] never raises a [ValueError] from
    [math.sqrt]; it raises [ZeroDivisionError] when the float length of
    its argument is zero, [OverflowError] when a square overflows, and
    nothing else. *)
Theorem determine_load_direction_exceptions :
  forall (pow_error : float -> comparison) (math_atan2 : float -> float -> float) (normal : Vector.t) (e : exn),
    determine_load_direction pow_error math_atan2 normal = Raise e ->
    e = OverflowError \/ e = ZeroDivisionError.
Proof.
  intros pow_error math_atan2 normal e H.
  apply determine_load_direction_raises in H.
  now apply normalized_normal_raises with pow_error normal.
Qed.

Lemma determine_load_direction_exceptions_witness :
  ZeroDivisionError = OverflowError \/ ZeroDivisionError = ZeroDivisionError.
Proof.
  apply (@determine_load_direction_exceptions correctly_rounded axis_atan2 (Vector.make 0 0 0)
           ZeroDivisionError).
  reflexivity.
Defined.

(** ** From a polygon to its plate and back to its corners *)

Lemma str_no_comma (n : nat) : has_char "," (PyStr.str n) = false.
Proof.
  unfold PyStr.str. induction (Nat.to_uint n) as [ | d IH | d IH | d IH | d IH | d IH
                                                  | d IH | d IH | d IH | d IH | d IH];
    simpl; trivial.
Qed.

Lemma split_no_sep (c : ascii) (s : string) :
  has_char c s = false -> PyStr.split c s = [s].
Proof.
  induction s as [ | a s IH]; simpl; [reflexivity | ].
  intros H. apply orb_false_iff in H. destruct H as [Ha Hs].
  rewrite Ha, (IH Hs). reflexivity.
Qed.

Lemma split_app_sep (c : ascii) (w r : string) :
  has_char c w = false ->
  PyStr.split c (w ++ String c r)%string = w :: PyStr.split c r.
Proof.
  induction w as [ | a w IH]; simpl.
  - intros _. now rewrite Ascii.eqb_refl.
  - intros H. apply orb_false_iff in H. destruct H as [Ha Hw].
    rewrite Ha, (IH Hw). reflexivity.
Qed.

(** [",".join(l).split(",") == l] for a non-empty list of strings without
    commas. *)
Lemma split_join (l : list string) :
  l <> [] ->
  Forall (fun w => has_char "," w = false) l ->
  PyStr.split "," (PyStr.join "," l) = l.
Proof.
  induction l as [ | w l IH]; [congruence | ].
  intros _ Hall. inversion Hall as [ | ? ? Hw Hl]; subst.
  destruct l as [ | w' l].
  - simpl. now apply split_no_sep.
  - change (PyStr.join "," (w :: w' :: l))
      with (w ++ String "," (PyStr.join "," (w' :: l)))%string.
    rewrite split_app_sep by exact Hw.
    rewrite IH; [reflexivity | discriminate | exact Hl].
Qed.

Lemma split_node_references (indices : list nat) :
  indices <> [] ->
  PyStr.split "," (node_references indices) = map (fun i => PyStr.str (i + 1)) indices.
Proof.
  intros Hne. unfold node_references. apply split_join.
  - destruct indices; [congruence | discriminate].
  - apply Forall_forall. intros w Hw. apply in_map_iff in Hw.
    destruct Hw as [i [<- _]]. apply str_no_comma.
Qed.

Lemma getitem_reference {A : Type} (l : list A) (i : nat) (a : A) :
  nth_error l i = Some a ->
  PySeq.getitem l (Z.of_nat (i + 1) - 1) = Ok a.
Proof.
  intros H. unfold PySeq.getitem.
  replace (Z.of_nat (i + 1) - 1)%Z with (Z.of_nat i) by lia.
  destruct (Z.ltb_spec (Z.of_nat i) 0); [lia | ].
  destruct (Z.ltb_spec (Z.of_nat i) 0); [lia | ].
  now rewrite Nat2Z.id, H.
Qed.

Lemma plate_vertices_references (mesh : Mesh.t) (indices : list nat) :
  forallb (in_range mesh) indices = true ->
  plate_vertices mesh (map (fun i => PyStr.str (i + 1)) indices)
  = Ok (polygon_corners mesh (MeshPolygon.make indices)).
Proof.
  unfold plate_vertices, polygon_corners. cbn [MeshPolygon.vertices].
  induction indices as [ | i indices IH]; [reflexivity | ].
  cbn [forallb map mapM flat_map]. intros H. apply andb_prop in H. destruct H as [Hi H].
  unfold in_range in Hi. apply Nat.ltb_lt in Hi.
  destruct (nth_error (Mesh.vertices mesh) i) as [v | ] eqn:Hv;
    [ | apply nth_error_None in Hv; lia].
  rewrite int_str. cbn [bind]. rewrite (@getitem_reference _ _ i v Hv). cbn [bind].
  rewrite (IH H). reflexivity.
Qed.

Lemma mapM_map {A B C : Type} (g : A -> B) (f : B -> result C) (l : list A) :
  mapM f (map g l) = mapM (fun x => f (g x)) l.
Proof.
  induction l as [ | x l IH]; simpl; [reflexivity | ]. now rewrite IH.
Qed.

Lemma mapM_ext_in {A B : Type} (f g : A -> result B) (l : list A) :
  (forall x, In x l -> f x = g x) -> mapM f l = mapM g l.
Proof.
  induction l as [ | x l IH]; simpl; [reflexivity | ].
  intros H. rewrite (H x) by now left. rewrite IH; [reflexivity | ].
  intros y Hy. apply H. now right.
Qed.

Lemma mapM_nth {A B : Type} (f : A -> result B) (l : list A) (ys : list B)
      (i : nat) (x : A) :
  mapM f l = Ok ys ->
  nth_error l i = Some x ->
  exists y, f x = Ok y /\ nth_error ys i = Some y.
Proof.
  revert ys i. induction l as [ | x' l IH]; intros ys i; simpl.
  - now destruct i.
  - destruct (f x') as [y' | ] eqn:Hx'; simpl; [ | discriminate].
    destruct (mapM f l) as [ys' | ]; simpl; [ | discriminate].
    intros [= <-]. destruct i as [ | i]; simpl.
    + intros [= <-]. now exists y'.
    + intros Hi. now apply (IH ys' i).
Qed.

Lemma mapM_raises {A B : Type} (f : A -> result B) (l : list A) (e : exn) :
  mapM f l = Raise e -> exists x, In x l /\ f x = Raise e.
Proof.
  induction l as [ | x l IH]; simpl; [discriminate | ].
  destruct (f x) as [y | e'] eqn:Hx; simpl.
  - destruct (mapM f l) as [ys | e'']; simpl; [discriminate | ].
    intros [= <-]. destruct (IH eq_refl) as [x' [Hin Hx']].
    exists x'. split; [now right | exact Hx'].
  - intros [= <-]. exists x. split; [now left | exact Hx].
Qed.

Lemma wf_mesh_polygon (mesh : Mesh.t) (poly : MeshPolygon.t) :
  wf_mesh mesh = true ->
  In poly (Mesh.polygons mesh) ->
  3 <= List.length (MeshPolygon.vertices poly)
  /\ forallb (in_range mesh) (MeshPolygon.vertices poly) = true.
Proof.
  unfold wf_mesh. intros H Hin. apply andb_prop in H. destruct H as [_ H].
  rewrite forallb_forall in H. apply H in Hin.
  apply andb_prop in Hin. destruct Hin as [Hlen Hrange].
  apply Nat.leb_le in Hlen. tauto.
Qed.

(** The record of a polygon's plate, from the corners of the polygon. *)
Lemma area_load_of_polygon (pow_error : float -> comparison) (math_atan2 : float -> float -> float)
      (mesh : Mesh.t) (poly : MeshPolygon.t) :
  MeshPolygon.vertices poly <> [] ->
  forallb (in_range mesh) (MeshPolygon.vertices poly) = true ->
  area_load pow_error math_atan2 mesh (default_plate (node_references (MeshPolygon.vertices poly)))
  = (load <- plate_load pow_error math_atan2 (plate_normal pow_error (polygon_corners mesh poly)) ;;
     Ok (area_load_record (node_references (MeshPolygon.vertices poly))
                          (node_references (firstn 2 (MeshPolygon.vertices poly)))
                          load)).
Proof.
  destruct poly as [indices]. cbn [MeshPolygon.vertices]. intros Hne Hrange.
  unfold area_load. cbn [Plate.nodes default_plate].
  rewrite (split_node_references Hne), (plate_vertices_references mesh indices Hrange).
  cbn [bind].
  destruct (plate_load pow_error math_atan2 (plate_normal _ _)) as [[mag direction] | e];
    [ | reflexivity].
  cbn [bind]. unfold area_load_record, node_references. cbn [fst snd].
  now rewrite firstn_map.
Qed.

(** The loop of [add_loads_to_plates] on the plates of the mesh itself:
    every vertex lookup succeeds, and only the classifier can raise. *)
Lemma pipeline_loads_eq (pow_error : float -> comparison) (math_atan2 : float -> float -> float) (mesh : Mesh.t) :
  wf_mesh mesh = true ->
  add_loads_to_plates pow_error math_atan2 (create_plates_from_mesh_data mesh) mesh
  = mapM (fun ip =>
            load <- plate_load pow_error math_atan2
                      (plate_normal pow_error (polygon_corners mesh (snd ip))) ;;
            Ok (PyStr.str (fst ip + 1),
                area_load_record
                  (node_references (MeshPolygon.vertices (snd ip)))
                  (node_references (firstn 2 (MeshPolygon.vertices (snd ip))))
                  load))
         (PySeq.enumerate 0 (Mesh.polygons mesh)).
Proof.
  intros Hwf. unfold add_loads_to_plates.
  rewrite add_loads_loop_eq
    by (cbn [Dict.empty Dict.keys map app]; apply create_plates_from_mesh_data_NoDup).
  unfold Dict.empty. cbn [app].
  replace (area_load_items pow_error math_atan2 mesh (create_plates_from_mesh_data mesh))
    with (mapM (fun ip =>
            load <- plate_load pow_error math_atan2
                      (plate_normal pow_error (polygon_corners mesh (snd ip))) ;;
            Ok (PyStr.str (fst ip + 1),
                area_load_record
                  (node_references (MeshPolygon.vertices (snd ip)))
                  (node_references (firstn 2 (MeshPolygon.vertices (snd ip))))
                  load))
         (PySeq.enumerate 0 (Mesh.polygons mesh))).
  - now destruct (mapM _ _).
  - unfold area_load_items. rewrite create_plates_from_mesh_data_eq, mapM_map.
    apply mapM_ext_in. intros [i poly] Hin. cbn [fst snd].
    assert (Hpoly : In poly (Mesh.polygons mesh)).
    { unfold PySeq.enumerate in Hin. now apply in_combine_r in Hin. }
    destruct (wf_mesh_polygon mesh poly Hwf Hpoly) as [Hlen Hrange].
    rewrite area_load_of_polygon;
      [ | destruct (MeshPolygon.vertices poly); [simpl in Hlen; lia | discriminate]
        | exact Hrange].
    now destruct (plate_load pow_error math_atan2 _).
Qed.

Lemma create_plates_eq (specs : list PlateSpec.t) :
  create_plates specs
  = map (fun ix => (PyStr.str (fst ix + 1), plate_of_spec (snd ix)))
        (PySeq.enumerate 0 specs).
Proof.
  unfold create_plates. now rewrite create_plates_loop_eq by (intros k []).
Qed.

Lemma create_plates_keys (specs : list PlateSpec.t) :
  Dict.keys (create_plates specs) = map PyStr.str (seq 1 (List.length specs)).
Proof.
  rewrite create_plates_eq. unfold Dict.keys. rewrite map_map. cbn [fst].
  rewrite <- (map_map fst (fun i => PyStr.str (i + 1))).
  change (map fst (PySeq.enumerate 0 specs)) with (Dict.keys (PySeq.enumerate 0 specs)).
  rewrite enumerate_keys, <- seq_shift, map_map.
  apply map_ext. intros i. now rewrite Nat.add_1_r.
Qed.

Lemma create_plates_NoDup (specs : list PlateSpec.t) :
  NoDup (Dict.keys (create_plates specs)).
Proof.
  rewrite create_plates_keys.
  apply Injective_map_NoDup; [ | apply seq_NoDup].
  intros n m. apply str_inj.
Qed.

Lemma NoDup_unique (l : list string) : NoDup l -> Dict.unique String.eqb l = true.
Proof.
  induction l as [ | k l IH]; simpl; [reflexivity | ].
  intros H. inversion H as [ | ? ? Hnotin Hnd]; subst.
  rewrite (IH Hnd), andb_true_r. apply negb_true_iff.
  destruct (Dict.mem String.eqb k l) eqn:E; [ | reflexivity].
  apply (dict_mem_In String.eqb String.eqb_eq) in E. contradiction.
Qed.

(** ** Plates from specifications *)

(** X3: [create_plates] numbers the specifications from 1 in their order:
    the plate of the [i]-th specification is found under the key
    [str(i + 1)], keys absent from a specification take their defaults, and
    a key that is no such number is missing from the dictionary. *)
Theorem create_plates_lookup :
  forall specs : list PlateSpec.t,
    Dict.len (create_plates specs) = List.length specs
    /\ Dict.keys (create_plates specs) = map PyStr.str (seq 1 (List.length specs))
    /\ (forall (i : nat) (spec : PlateSpec.t),
          nth_error specs i = Some spec ->
          Dict.getitem String.eqb (PyStr.str (i + 1)) (create_plates specs)
          = Ok (plate_of_spec spec))
    /\ (forall key : string,
          (forall i : nat, i < List.length specs -> key <> PyStr.str (i + 1)) ->
          Dict.getitem String.eqb key (create_plates specs) = Raise KeyError).
Proof.
  intros specs. split; [ | split; [ | split]].
  - unfold Dict.len. rewrite <- (length_map fst).
    change (map fst (create_plates specs)) with (Dict.keys (create_plates specs)).
    now rewrite create_plates_keys, length_map, length_seq.
  - apply create_plates_keys.
  - intros i spec Hi. unfold Dict.getitem.
    rewrite (dict_In_get String.eqb String.eqb_eq (PyStr.str (i + 1)) (plate_of_spec spec));
      [reflexivity | apply create_plates_NoDup | ].
    rewrite create_plates_eq.
    apply (enumerate_nth 0) in Hi. apply nth_error_In in Hi.
    apply (in_map (fun ix => (PyStr.str (fst ix + 1), plate_of_spec (snd ix)))) in Hi.
    exact Hi.
  - intros key Hkey. unfold Dict.getitem.
    rewrite (proj2 (dict_get_None String.eqb String.eqb_eq key (create_plates specs)));
      [reflexivity | ].
    rewrite create_plates_keys, in_map_iff. intros [n [<- Hn]].
    apply in_seq in Hn. apply (Hkey (n - 1)); [lia | ].
    f_equal. lia.
Qed.

(** ** What a load record can be *)

Lemma determine_load_direction_X_or_Z (pow_error : float -> comparison) (math_atan2 : float -> float -> float)
      (normal : Vector.t) (direction : string) :
  determine_load_direction pow_error math_atan2 normal = Ok direction ->
  direction = "X" \/ direction = "Z".
Proof.
  unfold determine_load_direction.
  destruct (normalized_normal pow_error normal) as [unit | e]; cbn [bind]; [ | discriminate].
  set (ang := angle math_atan2 unit).
  destruct ((-45 <=? ang) && (ang <? 45))%float; [intros [= <-]; now left | ].
  destruct ((45 <=? ang) && (ang <? 135))%float; [intros [= <-]; now right | ].
  destruct ((-135 <=? ang) && (ang <? -45))%float; intros [= <-]; [now right | now left].
Qed.

Lemma plate_load_in_classifier_loads (pow_error : float -> comparison) (math_atan2 : float -> float -> float)
      (normal : option Vector.t) (load : pynum * string) :
  plate_load pow_error math_atan2 normal = Ok load -> In load classifier_loads.
Proof.
  unfold plate_load, classifier_loads. destruct normal as [normal | ].
  - destruct (0.5 <? abs normal.[2])%float.
    + intros [= <-]. simpl. tauto.
    + destruct (determine_load_direction pow_error math_atan2 normal) as [direction | e] eqn:E;
        cbn [bind]; [ | discriminate].
      intros [= <-].
      destruct (determine_load_direction_X_or_Z _ _ _ E) as [-> | ->]; simpl; tauto.
  - intros [= <-]. simpl. tauto.
Qed.

Lemma area_load_shape (pow_error : float -> comparison) (math_atan2 : float -> float -> float) (mesh : Mesh.t)
      (plate_info : Plate.t) (record : AreaLoad.t) :
  area_load pow_error math_atan2 mesh plate_info = Ok record ->
  exists (vertices : list Vector.t) (load : pynum * string),
    plate_vertices mesh (PyStr.split "," (Plate.nodes plate_info)) = Ok vertices
    /\ plate_load pow_error math_atan2 (plate_normal pow_error vertices) = Ok load
    /\ record = area_load_record
                  (Plate.nodes plate_info)
                  (PyStr.join "," (firstn 2 (PyStr.split "," (Plate.nodes plate_info))))
                  load.
Proof.
  unfold area_load.
  destruct (plate_vertices mesh _) as [vertices | e] eqn:Hv; cbn [bind];
    [ | discriminate].
  destruct (plate_load pow_error math_atan2 (plate_normal pow_error vertices)) as [[mag direction] | e]
    eqn:Hl; cbn [bind]; [ | discriminate].
  intros [= <-]. exists vertices, (mag, direction).
  split; [reflexivity | ]. split; [exact Hl | reflexivity].
Qed.

(** X4: when [add_loads_to_plates] returns, the area loads have the keys
    of the plates, in the same order, and the record of a plate copies
    its node list, names its first two entries as column direction, and
    carries one of the four loads (100, "Z"), (0.15, "Y"), (0.08, "X"),
    (0.08, "Z"). *)
Theorem area_loads_follow_plates :
  forall (pow_error : float -> comparison) (math_atan2 : float -> float -> float) (plates : PlateDict) (mesh : Mesh.t)
         (area_loads : AreaLoadDict),
    Dict.wf String.eqb plates = true ->
    add_loads_to_plates pow_error math_atan2 plates mesh = Ok area_loads ->
    Dict.keys area_loads = Dict.keys plates
    /\ forall (plate_id : string) (plate_info : Plate.t),
        Dict.get String.eqb plate_id plates = Some plate_info ->
        exists record : AreaLoad.t,
          Dict.get String.eqb plate_id area_loads = Some record
          /\ AreaLoad.type record = "one_way"
          /\ AreaLoad.nodes record = Plate.nodes plate_info
          /\ AreaLoad.column_direction record
             = PyStr.join "," (firstn 2 (PyStr.split "," (Plate.nodes plate_info)))
          /\ In (AreaLoad.mag record, AreaLoad.direction record) classifier_loads.
Proof.
  intros pow_error math_atan2 plates mesh area_loads Hwf Hloads.
  rewrite (add_loads_to_plates_eq pow_error math_atan2 mesh plates Hwf) in Hloads.
  pose proof (area_load_items_keys _ _ _ _ Hloads) as Hkeys.
  split; [exact Hkeys | ].
  intros plate_id plate_info Hget.
  apply (dict_get_In String.eqb String.eqb_eq) in Hget.
  apply In_nth_error in Hget. destruct Hget as [i Hi].
  destruct (mapM_nth _ _ _ Hloads Hi) as [[k record] [Hrec Hnth]].
  cbn [fst snd] in Hrec.
  destruct (area_load pow_error math_atan2 mesh plate_info) as [record' | e] eqn:Harea;
    cbn [bind] in Hrec; [ | discriminate].
  injection Hrec as <- <-.
  exists record'. split.
  - apply (dict_In_get String.eqb String.eqb_eq).
    + rewrite Hkeys. now apply (dict_unique_NoDup String.eqb String.eqb_eq).
    + now apply nth_error_In with i.
  - destruct (area_load_shape _ _ _ _ Harea) as (vertices & load & _ & Hload & ->).
    cbn [area_load_record AreaLoad.type AreaLoad.nodes AreaLoad.column_direction
           AreaLoad.mag AreaLoad.direction].
    repeat split. rewrite <- surjective_pairing.
    now apply plate_load_in_classifier_loads with pow_error math_atan2 (plate_normal pow_error vertices).
Qed.

Lemma area_loads_follow_plates_witness :
  Dict.keys [("1", area_load_record "1,2,3" "1,2" (PyFlt 0.15%float, "Y"))]
  = Dict.keys [("1", default_plate "1,2,3")]
  /\ forall (plate_id : string) (plate_info : Plate.t),
      Dict.get String.eqb plate_id [("1", default_plate "1,2,3")] = Some plate_info ->
      exists record : AreaLoad.t,
        Dict.get String.eqb plate_id
                 [("1", area_load_record "1,2,3" "1,2" (PyFlt 0.15%float, "Y"))]
        = Some record
        /\ AreaLoad.type record = "one_way"
        /\ AreaLoad.nodes record = Plate.nodes plate_info
        /\ AreaLoad.column_direction record
           = PyStr.join "," (firstn 2 (PyStr.split "," (Plate.nodes plate_info)))
        /\ In (AreaLoad.mag record, AreaLoad.direction record) classifier_loads.
Proof.
  apply (@area_loads_follow_plates correctly_rounded axis_atan2 [("1", default_plate "1,2,3")]
           triangle_mesh); reflexivity.
Defined.

(** X5: in a record that [add_loads_to_plates] writes, the magnitude 100
    marks exactly the plates whose normal computation raised: a plate
    with a normal never gets it. *)
Theorem fallback_marks_failed_normal :
  forall (pow_error : float -> comparison) (math_atan2 : float -> float -> float) (mesh : Mesh.t)
         (plate_info : Plate.t) (vertices : list Vector.t) (record : AreaLoad.t),
    plate_vertices mesh (PyStr.split "," (Plate.nodes plate_info)) = Ok vertices ->
    area_load pow_error math_atan2 mesh plate_info = Ok record ->
    (AreaLoad.mag record = PyInt 100
     <-> exists e : exn, calculate_normal pow_error (firstn 3 vertices) = Raise e).
Proof.
  intros pow_error math_atan2 mesh plate_info vertices record Hv Harea.
  destruct (area_load_shape _ _ _ _ Harea) as (vertices' & load & Hv' & Hload & ->).
  rewrite Hv in Hv'. injection Hv' as <-.
  cbn [area_load_record AreaLoad.mag].
  unfold plate_load, plate_normal in Hload.
  destruct (calculate_normal pow_error (firstn 3 vertices)) as [normal | e].
  - split; [ | intros [e He]; discriminate].
    destruct (0.5 <? abs normal.[2])%float.
    + injection Hload as <-. discriminate.
    + destruct (determine_load_direction pow_error math_atan2 normal); cbn [bind] in Hload;
        [ | discriminate].
      injection Hload as <-. discriminate.
  - injection Hload as <-. split; [intros _; now exists e | reflexivity].
Qed.

Lemma fallback_marks_failed_normal_witness :
  AreaLoad.mag (fallback_load sliver_plate) = PyInt 100
  <-> exists e : exn,
      calculate_normal correctly_rounded
        (firstn 3 [Vector.make 0 0 0; Vector.make 1 0 0; Vector.make 2 0 0]) = Raise e.
Proof.
  apply (@fallback_marks_failed_normal correctly_rounded axis_atan2 house_mesh sliver_plate
           [Vector.make 0 0 0; Vector.make 1 0 0; Vector.make 2 0 0]
           (fallback_load sliver_plate)); reflexivity.
Defined.

(** X6: only the first three vertices of a plate enter its load: two
    plates whose vertex lists resolve and agree on the first three
    coordinates get the same magnitude and direction, or raise alike. *)
Theorem load_from_first_three_vertices :
  forall (pow_error : float -> comparison) (math_atan2 : float -> float -> float) (mesh mesh' : Mesh.t)
         (plate_info plate_info' : Plate.t) (vertices vertices' : list Vector.t),
    plate_vertices mesh (PyStr.split "," (Plate.nodes plate_info)) = Ok vertices ->
    plate_vertices mesh' (PyStr.split "," (Plate.nodes plate_info')) = Ok vertices' ->
    firstn 3 vertices = firstn 3 vertices' ->
    fmap (fun record => (AreaLoad.mag record, AreaLoad.direction record))
         (area_load pow_error math_atan2 mesh plate_info)
    = fmap (fun record => (AreaLoad.mag record, AreaLoad.direction record))
           (area_load pow_error math_atan2 mesh' plate_info').
Proof.
  intros pow_error math_atan2 mesh mesh' plate_info plate_info' vertices vertices' Hv Hv' Hfirst.
  unfold area_load. rewrite Hv, Hv'. cbn [bind].
  unfold plate_normal. rewrite Hfirst.
  destruct (plate_load pow_error math_atan2 _) as [[mag direction] | e]; reflexivity.
Qed.

Lemma load_from_first_three_vertices_witness :
  fmap (fun record => (AreaLoad.mag record, AreaLoad.direction record))
       (area_load correctly_rounded axis_atan2 quad_mesh (default_plate "1,2,3,4"))
  = fmap (fun record => (AreaLoad.mag record, AreaLoad.direction record))
         (area_load correctly_rounded axis_atan2 quad_mesh (default_plate "1,2,3")).
Proof.
  apply (@load_from_first_three_vertices correctly_rounded axis_atan2 quad_mesh quad_mesh
           (default_plate "1,2,3,4") (default_plate "1,2,3")
           [Vector.make 0 0 0; Vector.make 1 0 0; Vector.make 1 1 0; Vector.make 0 1 0]
           [Vector.make 0 0 0; Vector.make 1 0 0; Vector.make 1 1 0]);
    reflexivity.
Defined.

(** ** Errors of the vertex lookup *)

Lemma plate_vertices_raises (mesh : Mesh.t) (nodes_indices : list string) (e : exn) :
  plate_vertices mesh nodes_indices = Raise e -> e = ValueError \/ e = IndexError.
Proof.
  unfold plate_vertices. intros H. apply mapM_raises in H.
  destruct H as [idx [_ H]]. revert H.
  assert (Hint : forall e', PyStr.int idx = Raise e' -> e' = ValueError).
  { unfold PyStr.int, PyStr.digits. intros e'.
    destruct idx as [ | a idx]; simpl; [now intros [= <-] | ].
    repeat match goal with
           | |- context [match ?x with _ => _ end] => destruct x; simpl
           end; try discriminate; now intros [= <-]. }
  destruct (PyStr.int idx) as [k | e'] eqn:Hk; cbn [bind].
  - unfold PySeq.getitem.
    repeat match goal with
           | |- context [if ?c then _ else _] => destruct c
           | |- context [match nth_error ?l ?n with _ => _ end] =>
               destruct (nth_error l n)
           end; cbn [bind]; try discriminate; intros [= <-]; now right.
  - intros [= <-]. left. now apply Hint.
Qed.



(** X8: a specification without the key ["nodes"] gets the empty node
    list from [create_plates], and [add_loads_to_plates] then raises
    [ValueError] on it ([int('')]), once the plates before it are done. *)
Theorem missing_nodes_key_aborts :
  forall (pow_error : float -> comparison) (math_atan2 : float -> float -> float) (mesh : Mesh.t)
         (before after : list PlateSpec.t) (spec : PlateSpec.t)
         (loads : list (string * AreaLoad.t)),
    PlateSpec.nodes spec = None ->
    area_load_items pow_error math_atan2 mesh (create_plates before) = Ok loads ->
    Dict.get String.eqb (PyStr.str (List.length before + 1))
             (create_plates (before ++ spec :: after))
    = Some (plate_of_spec spec)
    /\ Plate.nodes (plate_of_spec spec) = ""
    /\ add_loads_to_plates pow_error math_atan2 (create_plates (before ++ spec :: after)) mesh
       = Raise ValueError.
Proof.
  intros pow_error math_atan2 mesh before after spec loads Hnodes Hbefore.
  assert (Hnth : nth_error (before ++ spec :: after) (List.length before) = Some spec).
  { rewrite nth_error_app2 by lia. now rewrite Nat.sub_diag. }
  split; [ | split].
  - apply (dict_In_get String.eqb String.eqb_eq); [apply create_plates_NoDup | ].
    rewrite create_plates_eq.
    apply (enumerate_nth 0) in Hnth. apply nth_error_In in Hnth.
    apply (in_map (fun ix => (PyStr.str (fst ix + 1), plate_of_spec (snd ix)))) in Hnth.
    exact Hnth.
  - unfold plate_of_spec. cbn [Plate.nodes]. now rewrite Hnodes.
  - rewrite add_loads_to_plates_eq by (apply NoDup_unique, create_plates_NoDup).
    rewrite create_plates_eq, enumerate_app, map_app. cbn [Nat.add].
    rewrite <- create_plates_eq.
    unfold area_load_items in *. rewrite mapM_app, Hbefore. cbn [bind].
    unfold PySeq.enumerate. cbn [List.length seq combine map mapM fst snd].
    unfold area_load at 1. unfold plate_of_spec at 1. cbn [Plate.nodes].
    rewrite Hnodes. reflexivity.
Qed.

Lemma missing_nodes_key_aborts_witness :
  Dict.get String.eqb (PyStr.str (List.length [plate_spec_of_polygon (MeshPolygon.make [0; 1; 2])] + 1))
           (create_plates
              ([plate_spec_of_polygon (MeshPolygon.make [0; 1; 2])]
               ++ PlateSpec.make None None None None None None None None
                                 None None None None None None None None :: []))
  = Some (plate_of_spec
            (PlateSpec.make None None None None None None None None
                            None None None None None None None None))
  /\ Plate.nodes (plate_of_spec
                    (PlateSpec.make None None None None None None None None
                                    None None None None None None None None)) = ""
  /\ add_loads_to_plates correctly_rounded axis_atan2
       (create_plates
          ([plate_spec_of_polygon (MeshPolygon.make [0; 1; 2])]
           ++ PlateSpec.make None None None None None None None None
                             None None None None None None None None :: []))
       triangle_mesh
     = Raise ValueError.
Proof.
  apply (@missing_nodes_key_aborts correctly_rounded axis_atan2 triangle_mesh
           [plate_spec_of_polygon (MeshPolygon.make [0; 1; 2])] []
           (PlateSpec.make None None None None None None None None
                           None None None None None None None None)
           [("1", area_load_record "1,2,3" "1,2" (PyFlt 0.15%float, "Y"))]);
    reflexivity.
Defined.

(** ** The plates of a mesh, given back to [add_loads_to_plates] *)

Lemma polygon_corners_length (mesh : Mesh.t) (poly : MeshPolygon.t) :
  forallb (in_range mesh) (MeshPolygon.vertices poly) = true ->
  List.length (polygon_corners mesh poly) = List.length (MeshPolygon.vertices poly).
Proof.
  unfold polygon_corners.
  induction (MeshPolygon.vertices poly) as [ | i indices IH]; [reflexivity | ].
  cbn [forallb flat_map]. intros H. apply andb_prop in H. destruct H as [Hi H].
  unfold in_range in Hi. apply Nat.ltb_lt in Hi.
  destruct (nth_error (Mesh.vertices mesh) i) eqn:Hv;
    [ | apply nth_error_None in Hv; lia].
  rewrite length_app, (IH H). reflexivity.
Qed.

(** X9: the node list that [create_plates_from_mesh_data] writes for a
    polygon is read back by [add_loads_to_plates] as the polygon's own
    corners: splitting at the commas, [int] and the index [- 1] undo
    [str], [+ 1] and the join, and no lookup fails. *)
Theorem plate_resolves_to_polygon_corners :
  forall (mesh : Mesh.t) (i : nat) (poly : MeshPolygon.t),
    wf_mesh mesh = true ->
    nth_error (Mesh.polygons mesh) i = Some poly ->
    exists plate_info : Plate.t,
      Dict.get String.eqb (PyStr.str (i + 1)) (create_plates_from_mesh_data mesh)
      = Some plate_info
      /\ PyStr.split "," (Plate.nodes plate_info)
         = map (fun v => PyStr.str (v + 1)) (MeshPolygon.vertices poly)
      /\ plate_vertices mesh (PyStr.split "," (Plate.nodes plate_info))
         = Ok (polygon_corners mesh poly)
      /\ List.length (polygon_corners mesh poly)
         = List.length (MeshPolygon.vertices poly).
Proof.
  intros mesh i poly Hwf Hi.
  destruct (wf_mesh_polygon mesh poly Hwf (nth_error_In _ _ Hi)) as [Hlen Hrange].
  assert (Hne : MeshPolygon.vertices poly <> [])
    by (destruct (MeshPolygon.vertices poly); [simpl in Hlen; lia | discriminate]).
  exists (default_plate (node_references (MeshPolygon.vertices poly))).
  split; [ | split; [ | split]].
  - apply (dict_In_get String.eqb String.eqb_eq);
      [apply create_plates_from_mesh_data_NoDup | ].
    rewrite create_plates_from_mesh_data_eq.
    apply (enumerate_nth 0) in Hi. apply nth_error_In in Hi.
    apply (in_map (fun ip => (PyStr.str (fst ip + 1),
                              default_plate
                                (node_references (MeshPolygon.vertices (snd ip))))))
      in Hi.
    exact Hi.
  - cbn [Plate.nodes default_plate]. now apply split_node_references.
  - cbn [Plate.nodes default_plate]. rewrite (split_node_references Hne).
    destruct poly as [indices]. now apply plate_vertices_references.
  - now apply polygon_corners_length.
Qed.

Lemma plate_resolves_to_polygon_corners_witness :
  exists plate_info : Plate.t,
    Dict.get String.eqb (PyStr.str (1 + 1)) (create_plates_from_mesh_data house_mesh)
    = Some plate_info
    /\ PyStr.split "," (Plate.nodes plate_info)
       = map (fun v => PyStr.str (v + 1)) (MeshPolygon.vertices (MeshPolygon.make [0; 1; 5]))
    /\ plate_vertices house_mesh (PyStr.split "," (Plate.nodes plate_info))
       = Ok (polygon_corners house_mesh (MeshPolygon.make [0; 1; 5]))
    /\ List.length (polygon_corners house_mesh (MeshPolygon.make [0; 1; 5]))
       = List.length (MeshPolygon.vertices (MeshPolygon.make [0; 1; 5])).
Proof.
  apply (@plate_resolves_to_polygon_corners house_mesh 1 (MeshPolygon.make [0; 1; 5]));
    reflexivity.
Defined.

(** X10: on the plates of the mesh itself, when [add_loads_to_plates]
    returns, the load of the [i]-th polygon is the one its own corners
    select, under the key [str(i + 1)], with the polygon's references as
    node list and the first two of them as column direction. *)
Theorem loads_of_mesh_plates :
  forall (pow_error : float -> comparison) (math_atan2 : float -> float -> float) (mesh : Mesh.t)
         (area_loads : AreaLoadDict),
    wf_mesh mesh = true ->
    add_loads_to_plates pow_error math_atan2 (create_plates_from_mesh_data mesh) mesh
    = Ok area_loads ->
    Dict.keys area_loads = map PyStr.str (seq 1 (List.length (Mesh.polygons mesh)))
    /\ forall (i : nat) (poly : MeshPolygon.t),
        nth_error (Mesh.polygons mesh) i = Some poly ->
        exists load : pynum * string,
          plate_load pow_error math_atan2 (plate_normal pow_error (polygon_corners mesh poly)) = Ok load
          /\ Dict.get String.eqb (PyStr.str (i + 1)) area_loads
             = Some (area_load_record
                       (node_references (MeshPolygon.vertices poly))
                       (node_references (firstn 2 (MeshPolygon.vertices poly)))
                       load).
Proof.
  intros pow_error math_atan2 mesh area_loads Hwf Hloads.
  assert (Hkeys : Dict.keys area_loads
                  = map PyStr.str (seq 1 (List.length (Mesh.polygons mesh)))).
  { rewrite <- create_plates_from_mesh_data_keys.
    apply (area_load_items_keys pow_error math_atan2 mesh).
    rewrite <- add_loads_to_plates_eq; [exact Hloads | ].
    apply NoDup_unique, create_plates_from_mesh_data_NoDup. }
  split; [exact Hkeys | ].
  intros i poly Hi. rewrite (pipeline_loads_eq pow_error math_atan2 mesh Hwf) in Hloads.
  apply (enumerate_nth 0) in Hi.
  destruct (mapM_nth _ _ _ Hloads Hi) as [[k record] [Hrec Hnth]].
  cbn [fst snd Nat.add] in Hrec.
  destruct (plate_load pow_error math_atan2 (plate_normal pow_error (polygon_corners mesh poly)))
    as [load | e]; cbn [bind] in Hrec; [ | discriminate].
  injection Hrec as <- <-. exists load. split; [reflexivity | ].
  apply (dict_In_get String.eqb String.eqb_eq).
  - rewrite Hkeys. apply Injective_map_NoDup; [ | apply seq_NoDup].
    intros n m. apply str_inj.
  - now apply nth_error_In with i.
Qed.

Lemma loads_of_mesh_plates_witness :
  Dict.keys [("1", area_load_record "1,2,3" "1,2" (PyFlt 0.15%float, "Y"))]
  = map PyStr.str (seq 1 (List.length (Mesh.polygons triangle_mesh)))
  /\ forall (i : nat) (poly : MeshPolygon.t),
      nth_error (Mesh.polygons triangle_mesh) i = Some poly ->
      exists load : pynum * string,
        plate_load correctly_rounded axis_atan2 (plate_normal correctly_rounded (polygon_corners triangle_mesh poly)) = Ok load
        /\ Dict.get String.eqb (PyStr.str (i + 1))
                    [("1", area_load_record "1,2,3" "1,2" (PyFlt 0.15%float, "Y"))]
           = Some (area_load_record
                     (node_references (MeshPolygon.vertices poly))
                     (node_references (firstn 2 (MeshPolygon.vertices poly)))
                     load).
Proof.
  apply (@loads_of_mesh_plates correctly_rounded axis_atan2 triangle_mesh
           [("1", area_load_record "1,2,3" "1,2" (PyFlt 0.15%float, "Y"))]);
    reflexivity.
Defined.

(** X11: on the plates of the mesh itself [add_loads_to_plates] never
    raises from a lookup ([ValueError], [IndexError]): the only exceptions
    that escape it come from [determine_load_direction], namely
    [ZeroDivisionError] and [OverflowError]. *)
Theorem mesh_plates_exceptions :
  forall (pow_error : float -> comparison) (math_atan2 : float -> float -> float) (mesh : Mesh.t) (e : exn),
    wf_mesh mesh = true ->
    add_loads_to_plates pow_error math_atan2 (create_plates_from_mesh_data mesh) mesh = Raise e ->
    e = OverflowError \/ e = ZeroDivisionError.
Proof.
  intros pow_error math_atan2 mesh e Hwf Hraise.
  rewrite (pipeline_loads_eq pow_error math_atan2 mesh Hwf) in Hraise.
  apply mapM_raises in Hraise. destruct Hraise as [[i poly] [_ Hraise]].
  cbn [fst snd] in Hraise.
  unfold plate_load in Hraise.
  destruct (plate_normal pow_error (polygon_corners mesh poly)) as [normal | ];
    cbn [bind] in Hraise; [ | discriminate].
  destruct (0.5 <? abs normal.[2])%float; cbn [bind] in Hraise; [discriminate | ].
  destruct (determine_load_direction pow_error math_atan2 normal) as [direction | e'] eqn:E;
    cbn [bind] in Hraise; [discriminate | ].
  injection Hraise as <-.
  apply determine_load_direction_raises in E.
  now apply normalized_normal_raises with pow_error normal.
Qed.

Lemma mesh_plates_exceptions_witness :
  ZeroDivisionError = OverflowError \/ ZeroDivisionError = ZeroDivisionError.
Proof.
  apply (@mesh_plates_exceptions correctly_rounded axis_atan2
           (Mesh.make [vertex 0 0 0 0; vertex 1 (-1.1e77) 1.1e77 0; vertex 2 0 0 1.1e77]
                      [] [MeshPolygon.make [0; 1; 2]])
           ZeroDivisionError); reflexivity.
Defined.

(** ** More on topology extraction *)

Lemma ground_supports_In (start k : nat) (vertices : list MeshVertex.t) (s : Support.t) :
  In (k, s) (ground_supports start vertices) ->
  s = ground_support k
  /\ exists (j : nat) (v : MeshVertex.t),
      k = start + j /\ nth_error vertices j = Some v /\ isGroundSupport v = true.
Proof.
  revert start. induction vertices as [ | w vertices IH]; intros start; simpl; [tauto | ].
  rewrite in_app_iff. intros [H | H].
  - destruct (isGroundSupport w) eqn:Hw; simpl in H; [ | tauto].
    destruct H as [[= <- <-] | []]. split; [reflexivity | ].
    exists 0, w. rewrite Nat.add_0_r. now repeat split.
  - apply IH in H. destruct H as [-> (j & v & -> & Hj & Hv)].
    split; [reflexivity | ]. exists (S j), v. repeat split; [lia | exact Hj | exact Hv].
Qed.

Lemma ground_supports_length (start : nat) (vertices : list MeshVertex.t) :
  List.length (ground_supports start vertices) <= List.length vertices.
Proof.
  revert start. induction vertices as [ | w vertices IH]; intros start; simpl; [lia | ].
  rewrite length_app. specialize (IH (S start)).
  destruct (isGroundSupport w); simpl; lia.
Qed.

(** X12: every support that [extract_mesh_data] writes names the node
    of its own key and carries the fixed codes and stiffnesses, the key
    is a node id, and that node has output [y] equal to 0 (the source
    elevation); there are no more supports than nodes. *)
Theorem supports_are_ground_nodes :
  forall scene : Scene.t,
    wf_scene scene = true ->
    mode_set_accepts (Scene.objects scene) = true ->
    exists (extracted : Extracted) (scene' : Scene.t),
      extract_mesh_data scene = Ok (extracted, scene')
      /\ Dict.len (supports extracted) <= Dict.len (nodes extracted)
      /\ forall (node_id : nat) (support : Support.t),
          Dict.get Nat.eqb node_id (supports extracted) = Some support ->
          support = {| Support.type := "node";
                       Support.direction_code := "BBBBBB";
                       Support.tx := 0%Z; Support.ty := 0%Z; Support.tz := 0%Z;
                       Support.rx := 0%Z; Support.ry := 0%Z; Support.rz := 0%Z;
                       Support.node := node_id;
                       Support.restraint_code := "FFFFFF" |}
          /\ exists node : Node.t,
              Dict.get Nat.eqb node_id (nodes extracted) = Some node
              /\ (Node.y node =? 0)%float = true.
Proof.
  intros scene Hwf Hpoll. destruct (extract_mesh_data_eq scene Hwf Hpoll) as [active' Heq].
  eexists. eexists. split; [exact Heq | ]. cbn [nodes supports]. split.
  - rewrite enumerate_length, length_map. apply ground_supports_length.
  - intros node_id support Hget.
    apply (dict_get_In Nat.eqb Nat.eqb_eq) in Hget.
    apply ground_supports_In in Hget. destruct Hget as [-> (j & v & -> & Hj & Hv)].
    split; [reflexivity | ].
    exists (node_of_vertex v). split.
    + now rewrite enumerate_get, nth_error_map, Hj.
    + exact Hv.
Qed.

Lemma supports_are_ground_nodes_witness :
  wf_scene two_mesh_scene = true
  /\ mode_set_accepts (Scene.objects two_mesh_scene) = true
  /\ exists (extracted : Extracted) (scene' : Scene.t),
      extract_mesh_data two_mesh_scene = Ok (extracted, scene')
      /\ Dict.len (supports extracted) <= Dict.len (nodes extracted).
Proof.
  split; [reflexivity | ]. split; [reflexivity | ].
  destruct (supports_are_ground_nodes two_mesh_scene eq_refl eq_refl)
    as (extracted & scene' & Heq & Hlen & _).
  exists extracted, scene'. split; assumption.
Defined.

Lemma wf_object_edges (obj : Object.t) (edge : MeshEdge.t) :
  wf_object obj = true ->
  In edge (object_edges obj) ->
  fst (MeshEdge.vertices edge) < List.length (object_vertices obj)
  /\ snd (MeshEdge.vertices edge) < List.length (object_vertices obj).
Proof.
  unfold wf_object, object_edges, object_vertices.
  destruct (Object.data obj) as [mesh | ]; [ | intros _ []].
  intros H Hin. apply andb_prop in H. destruct H as [_ H].
  unfold wf_mesh in H. apply andb_prop in H. destruct H as [H _].
  apply andb_prop in H. destruct H as [_ H].
  rewrite forallb_forall in H. apply H in Hin.
  apply andb_prop in Hin. destruct Hin as [Ha Hb].
  unfold in_range in Ha, Hb. apply Nat.ltb_lt in Ha, Hb. tauto.
Qed.

Lemma scene_members_In (offset : nat) (objects : list Object.t) (member : Member.t) :
  forallb wf_object objects = true ->
  In member (scene_members offset objects) ->
  exists a b : nat,
    member = edge_member a b
    /\ offset < a <= offset + List.length (scene_vertices objects)
    /\ offset < b <= offset + List.length (scene_vertices objects).
Proof.
  revert offset. induction objects as [ | obj objects IH]; intros offset; simpl; [tauto | ].
  intros Hwf. apply andb_prop in Hwf. destruct Hwf as [Hobj Hwf].
  rewrite in_app_iff, length_app. intros [H | H].
  - apply in_map_iff in H. destruct H as [edge [<- Hin]].
    destruct (wf_object_edges obj edge Hobj Hin) as [Ha Hb].
    eexists. eexists. split; [reflexivity | ]. lia.
  - destruct (IH _ Hwf H) as (a & b & -> & Ha & Hb).
    exists a, b. split; [reflexivity | ]. lia.
Qed.

(** X13: every member that [extract_mesh_data] writes joins two node
    ids that exist, and all its other fields are the constants of lines
    229-242. *)
Theorem members_join_nodes :
  forall scene : Scene.t,
    wf_scene scene = true ->
    mode_set_accepts (Scene.objects scene) = true ->
    exists (extracted : Extracted) (scene' : Scene.t),
      extract_mesh_data scene = Ok (extracted, scene')
      /\ forall (member_id : nat) (member : Member.t),
          Dict.get Nat.eqb member_id (members extracted) = Some member ->
          member = {| Member.type := "normal_continuous";
                      Member.cable_length := None;
                      Member.node_A := Member.node_A member;
                      Member.node_B := Member.node_B member;
                      Member.section_id := 1%Z;
                      Member.rotation_angle := 0%Z;
                      Member.fixity_A := "FFFFFF";
                      Member.fixity_B := "FFFFFF";
                      Member.offset_Ax := "0"; Member.offset_Ay := "0";
                      Member.offset_Az := "0";
                      Member.offset_Bx := "0"; Member.offset_By := "0";
                      Member.offset_Bz := "0";
                      Member.stiffness_A_Ry := 0%Z; Member.stiffness_A_Rz := 0%Z;
                      Member.stiffness_B_Ry := 0%Z; Member.stiffness_B_Rz := 0%Z;
                      Member.mirror := "no";
                      Member.disable_non_linear_effects := "no" |}
          /\ 1 <= Member.node_A member <= Dict.len (nodes extracted)
          /\ 1 <= Member.node_B member <= Dict.len (nodes extracted)
          /\ (exists node : Node.t,
                 Dict.get Nat.eqb (Member.node_A member) (nodes extracted) = Some node)
          /\ (exists node : Node.t,
                 Dict.get Nat.eqb (Member.node_B member) (nodes extracted) = Some node).
Proof.
  intros scene Hwf Hpoll. destruct (extract_mesh_data_eq scene Hwf Hpoll) as [active' Heq].
  eexists. eexists. split; [exact Heq | ]. cbn [nodes members].
  intros member_id member Hget.
  apply (dict_get_In Nat.eqb Nat.eqb_eq) in Hget.
  unfold PySeq.enumerate in Hget. apply in_combine_r in Hget.
  destruct (scene_members_In 0 _ _ Hwf Hget) as (a & b & -> & Ha & Hb).
  cbn [Member.node_A Member.node_B edge_member]. split; [reflexivity | ].
  rewrite enumerate_length, length_map.
  split; [lia | ]. split; [lia | ].
  assert (Hnode : forall k, 0 < k <= 0 + List.length (scene_vertices (Scene.objects scene)) ->
                            exists node,
                              Dict.get Nat.eqb k
                                (PySeq.enumerate 1
                                   (map node_of_vertex (scene_vertices (Scene.objects scene))))
                              = Some node).
  { intros k Hk. replace k with (1 + (k - 1)) by lia.
    rewrite enumerate_get, nth_error_map.
    destruct (nth_error (scene_vertices (Scene.objects scene)) (k - 1)) as [v | ] eqn:Hv;
      [now exists (node_of_vertex v) | apply nth_error_None in Hv; lia]. }
  split; now apply Hnode.
Qed.

Lemma members_join_nodes_witness :
  wf_scene two_mesh_scene = true
  /\ mode_set_accepts (Scene.objects two_mesh_scene) = true
  /\ exists (extracted : Extracted) (scene' : Scene.t),
      extract_mesh_data two_mesh_scene = Ok (extracted, scene')
      /\ forall (member_id : nat) (member : Member.t),
          Dict.get Nat.eqb member_id (members extracted) = Some member ->
          1 <= Member.node_A member <= Dict.len (nodes extracted)
          /\ 1 <= Member.node_B member <= Dict.len (nodes extracted).
Proof.
  split; [reflexivity | ]. split; [reflexivity | ].
  destruct (members_join_nodes two_mesh_scene eq_refl eq_refl)
    as (extracted & scene' & Heq & Hmem).
  exists extracted, scene'. split; [exact Heq | ].
  intros member_id member Hget.
  destruct (Hmem member_id member Hget) as (_ & HA & HB & _).
  split; assumption.
Defined.

Lemma extract_objects_app (l l' : list Object.t) :
  forall (i : nat) (active : option nat) (acc : Extracted),
    extract_objects (l ++ l') i active acc
    = (r <- extract_objects l i active acc ;;
       extract_objects l' (i + List.length l) (snd r) (fst r)).
Proof.
  induction l as [ | obj l IH]; intros i active acc.
  - cbn [app extract_objects bind List.length fst snd]. now rewrite Nat.add_0_r.
  - rewrite <- app_comm_cons. cbn [extract_objects List.length].
    destruct (String.eqb (Object.type obj) "MESH").
    + destruct (Object.mode_set_poll obj); [ | reflexivity].
      destruct (Object.data obj) as [mesh | ]; [ | reflexivity].
      destruct (map_vertices _ _ _ _) as [[vertex_map nodes'] supports'].
      destruct (define_members _ _ _) as [members' | e]; cbn [bind]; [ | reflexivity].
      rewrite IH. now replace (i + 1 + List.length l) with (i + S (List.length l)) by lia.
    + rewrite IH. now replace (i + 1 + List.length l) with (i + S (List.length l)) by lia.
Qed.

Lemma extract_objects_active (objects : list Object.t) :
  forall (i : nat) (active active' : option nat) (acc extracted : Extracted),
    extract_objects objects i active acc = Ok (extracted, active') ->
    active' = last_active objects i active.
Proof.
  induction objects as [ | obj objects IH]; intros i active active' acc extracted.
  - cbn [extract_objects last_active]. now intros [= _ <-].
  - cbn [extract_objects last_active]. unfold is_mesh_object.
    destruct (String.eqb (Object.type obj) "MESH").
    + destruct (Object.mode_set_poll obj); [ | discriminate].
      destruct (Object.data obj) as [mesh | ]; [ | discriminate].
      destruct (map_vertices _ _ _ _) as [[vertex_map nodes'] supports'].
      destruct (define_members _ _ _) as [members' | e]; cbn [bind]; [ | discriminate].
      now apply IH.
    + now apply IH.
Qed.

Lemma extract_objects_position (objects : list Object.t) :
  forall (i i' : nat) (active active' : option nat) (acc : Extracted),
    fmap fst (extract_objects objects i active acc)
    = fmap fst (extract_objects objects i' active' acc).
Proof.
  induction objects as [ | obj objects IH]; intros i i' active active' acc.
  - reflexivity.
  - cbn [extract_objects].
    destruct (String.eqb (Object.type obj) "MESH").
    + destruct (Object.mode_set_poll obj); [ | reflexivity].
      destruct (Object.data obj) as [mesh | ]; [ | reflexivity].
      destruct (map_vertices _ _ _ _) as [[vertex_map nodes'] supports'].
      destruct (define_members _ _ _) as [members' | e]; cbn [bind]; [ | reflexivity].
      apply IH.
    + apply IH.
Qed.

(** X14: objects that are not of type ["MESH"] add nothing: with or
    without such an object in the scene, [extract_mesh_data] returns the
    same nodes, members and supports, or raises the same exception. *)
Theorem other_objects_are_skipped :
  forall (before after : list Object.t) (other : Object.t) (active active' : option nat),
    is_mesh_object other = false ->
    fmap fst (extract_mesh_data (Scene.make (before ++ other :: after) active))
    = fmap fst (extract_mesh_data (Scene.make (before ++ after) active')).
Proof.
  intros before after other active active' Hother.
  unfold extract_mesh_data. cbn [Scene.objects Scene.active].
  set (acc := {| nodes := Dict.empty nat Node.t;
                 members := Dict.empty nat Member.t;
                 supports := Dict.empty nat Support.t |}).
  assert (Hfst' : forall objects objects' a,
             fmap fst (r <- extract_objects objects 0 a acc ;;
                       (let '(extracted, active0) := r in
                        Ok (extracted, Scene.make objects' active0)))
             = fmap fst (extract_objects objects 0 a acc)).
  { intros objects objects' a.
    now destruct (extract_objects objects 0 a acc) as [[ex a0] | e]. }
  rewrite !Hfst'. rewrite !extract_objects_app.
  pose proof (extract_objects_position before 0 0 active active' acc) as Hpos.
  destruct (extract_objects before 0 active acc) as [[ex a0] | e],
           (extract_objects before 0 active' acc) as [[ex' a0'] | e'];
    cbn [fmap fst] in Hpos; try discriminate; injection Hpos as <-;
    cbn [bind fst snd]; [ | reflexivity].
  cbn [extract_objects]. unfold is_mesh_object in Hother. rewrite Hother.
  apply extract_objects_position.
Qed.

Lemma other_objects_are_skipped_witness :
  fmap fst (extract_mesh_data
              (Scene.make ([Object.make "MESH" (MeshID triangle_mesh) true] ++ camera ::
                           [Object.make "MESH" (MeshID house_mesh) true]) None))
  = fmap fst (extract_mesh_data
                (Scene.make ([Object.make "MESH" (MeshID triangle_mesh) true] ++
                             [Object.make "MESH" (MeshID house_mesh) true]) (Some 1))).
Proof.
  apply (@other_objects_are_skipped [Object.make "MESH" (MeshID triangle_mesh) true]
           [Object.make "MESH" (MeshID house_mesh) true] camera None (Some 1)).
  reflexivity.
Defined.

Lemma vertex_map_getitem_missing (offset n i : nat) :
  n <= i ->
  Dict.getitem Nat.eqb i (PySeq.enumerate 0 (seq (offset + 1) n)) = Raise KeyError.
Proof.
  intros Hi. unfold Dict.getitem. rewrite (enumerate_get 0 i).
  now rewrite (proj2 (nth_error_None _ _)) by (now rewrite length_seq).
Qed.

Lemma define_members_dangling (edges1 : list MeshEdge.t) :
  forall (edge : MeshEdge.t) (edges2 : list MeshEdge.t) (offset n : nat)
         (done : list Member.t),
    forallb (fun edge => (fst (MeshEdge.vertices edge) <? n)
                         && (snd (MeshEdge.vertices edge) <? n)) edges1 = true ->
    (fst (MeshEdge.vertices edge) <? n) && (snd (MeshEdge.vertices edge) <? n) = false ->
    define_members (edges1 ++ edge :: edges2)
                   (PySeq.enumerate 0 (seq (offset + 1) n)) (PySeq.enumerate 1 done)
    = Raise KeyError.
Proof.
  induction edges1 as [ | edge1 edges1 IH]; intros edge edges2 offset n done Hwf Hedge.
  - rewrite app_nil_l. cbn [define_members].
    destruct (Nat.ltb_spec (fst (MeshEdge.vertices edge)) n) as [Ha | Ha].
    + rewrite (vertex_map_getitem offset Ha). cbn [bind].
      destruct (Nat.ltb_spec (snd (MeshEdge.vertices edge)) n) as [Hb | Hb];
        [discriminate | ].
      now rewrite (vertex_map_getitem_missing offset Hb).
    + now rewrite (vertex_map_getitem_missing offset Ha).
  - cbn [forallb] in Hwf. apply andb_prop in Hwf. destruct Hwf as [Hedge1 Hwf].
    apply andb_prop in Hedge1. destruct Hedge1 as [Ha Hb].
    apply Nat.ltb_lt in Ha, Hb.
    rewrite <- app_comm_cons. cbn [define_members].
    rewrite (vertex_map_getitem offset Ha). cbn [bind].
    rewrite (vertex_map_getitem offset Hb). cbn [bind].
    rewrite enumerate_length.
    replace (List.length done + 1) with (1 + List.length done) by lia.
    rewrite enumerate_set_next. now apply IH.
Qed.

(** The loop over the objects up to a given one, on objects as the host
    supplies them and which the operator of line 201 accepts. *)
Lemma extract_objects_before (before rest : list Object.t) (active : option nat) :
  forallb wf_object before = true ->
  mode_set_accepts before = true ->
  exists active' : option nat,
    extract_objects (before ++ rest) 0 active
      {| nodes := Dict.empty nat Node.t;
         members := Dict.empty nat Member.t;
         supports := Dict.empty nat Support.t |}
    = extract_objects rest (List.length before) active'
        {| nodes := PySeq.enumerate 1 (map node_of_vertex (scene_vertices before));
           members := PySeq.enumerate 1 (scene_members 0 before);
           supports := ground_supports 1 (scene_vertices before) |}.
Proof.
  intros Hwf Hpoll. rewrite extract_objects_app.
  destruct (extract_objects_eq before 0 active [] [] Hwf Hpoll) as [active' Heq].
  cbn [map ground_supports PySeq.enumerate List.length seq combine] in Heq.
  rewrite !app_nil_l in Heq.
  unfold Dict.empty. rewrite Heq. cbn [bind fst snd]. now exists active'.
Qed.

(** X15: on a mesh object that the operator of line 201 accepts, after
    objects that it accepts too, an edge that refers to a vertex index
    the mesh does not have makes [vertex_map[...]] raise [KeyError];
    nothing catches it, so [extract_mesh_data] and the script raise it
    and no model is built, whatever the objects after it and the other
    edges are. *)
Theorem dangling_edge_raises :
  forall (pow_error : float -> comparison) (math_atan2 : float -> float -> float)
         (scene : Scene.t) (before after : list Object.t) (obj : Object.t)
         (mesh : Mesh.t) (edges1 edges2 : list MeshEdge.t) (edge : MeshEdge.t),
    forallb wf_object before = true ->
    mode_set_accepts before = true ->
    Scene.objects scene = before ++ obj :: after ->
    Object.type obj = "MESH" ->
    Object.mode_set_poll obj = true ->
    Object.data obj = MeshID mesh ->
    forallb (fun iv => MeshVertex.index (snd iv) =? fst iv)
            (PySeq.enumerate 0 (Mesh.vertices mesh)) = true ->
    Mesh.edges mesh = edges1 ++ edge :: edges2 ->
    forallb (fun edge => in_range mesh (fst (MeshEdge.vertices edge))
                         && in_range mesh (snd (MeshEdge.vertices edge))) edges1 = true ->
    in_range mesh (fst (MeshEdge.vertices edge))
    && in_range mesh (snd (MeshEdge.vertices edge)) = false ->
    extract_mesh_data scene = Raise KeyError
    /\ script pow_error math_atan2 scene = Raise KeyError.
Proof.
  intros pow_error math_atan2 scene before after obj mesh edges1 edges2 edge
         Hbefore Hpoll Hobjs Htype Hobj_poll Hdata Hidx Hedges Hwf1 Hedge.
  assert (Hextract : extract_mesh_data scene = Raise KeyError).
  { unfold extract_mesh_data. rewrite Hobjs.
    destruct (extract_objects_before before (obj :: after) (Scene.active scene)
                Hbefore Hpoll) as [active' Heq].
    rewrite Heq. cbn [extract_objects].
    rewrite Htype, Hobj_poll, Hdata.
    cbn [String.eqb Ascii.eqb Bool.eqb nodes members supports].
    apply wf_indices in Hidx.
    change (Dict.empty nat nat)
      with (PySeq.enumerate 0 (seq (List.length (scene_vertices before) + 1) 0)).
    rewrite (map_vertices_eq _ 0 (List.length (scene_vertices before))
               (scene_vertices before) Hidx) by lia.
    cbn [Nat.add]. rewrite Hedges.
    unfold in_range in Hwf1, Hedge.
    now rewrite (define_members_dangling edges1 edge edges2 _ _ _ Hwf1 Hedge). }
  split; [exact Hextract | ]. unfold script. now rewrite Hextract.
Qed.

Lemma dangling_edge_raises_witness :
  extract_mesh_data
    (Scene.make [camera; Object.make "MESH" (MeshID dangling_mesh) true] None)
  = Raise KeyError
  /\ script correctly_rounded axis_atan2
       (Scene.make [camera; Object.make "MESH" (MeshID dangling_mesh) true] None)
     = Raise KeyError.
Proof.
  apply (@dangling_edge_raises correctly_rounded axis_atan2
           (Scene.make [camera; Object.make "MESH" (MeshID dangling_mesh) true] None)
           [camera] [] (Object.make "MESH" (MeshID dangling_mesh) true) dangling_mesh
           [MeshEdge.make (0, 1)] [] (MeshEdge.make (1, 2)));
    reflexivity.
Defined.

(** X20: the operator call of line 201 is not guarded: the first mesh
    object that [bpy.ops.object.mode_set] rejects (a hidden object, or
    one of a linked library) makes [extract_mesh_data] and the script
    raise [RuntimeError], whatever its mesh is and whatever follows it;
    an object of another type is never handed to the operator. *)
Theorem rejected_mesh_object_raises :
  forall (pow_error : float -> comparison) (math_atan2 : float -> float -> float)
         (scene : Scene.t) (before after : list Object.t) (obj : Object.t),
    forallb wf_object before = true ->
    mode_set_accepts before = true ->
    Scene.objects scene = before ++ obj :: after ->
    is_mesh_object obj = true ->
    Object.mode_set_poll obj = false ->
    extract_mesh_data scene = Raise RuntimeError
    /\ script pow_error math_atan2 scene = Raise RuntimeError.
Proof.
  intros pow_error math_atan2 scene before after obj Hbefore Hpoll Hobjs Htype Hobj_poll.
  assert (Hextract : extract_mesh_data scene = Raise RuntimeError).
  { unfold extract_mesh_data. rewrite Hobjs.
    destruct (extract_objects_before before (obj :: after) (Scene.active scene)
                Hbefore Hpoll) as [active' Heq].
    rewrite Heq. cbn [extract_objects].
    unfold is_mesh_object in Htype. now rewrite Htype, Hobj_poll. }
  split; [exact Hextract | ]. unfold script. now rewrite Hextract.
Qed.

Lemma rejected_mesh_object_raises_witness :
  extract_mesh_data hidden_scene = Raise RuntimeError
  /\ script correctly_rounded axis_atan2 hidden_scene = Raise RuntimeError.
Proof.
  apply (@rejected_mesh_object_raises correctly_rounded axis_atan2 hidden_scene
           [camera] [] (Object.make "MESH" (MeshID triangle_mesh) false));
    reflexivity.
Defined.

(** ** The script as a whole *)

Lemma last_active_app (l l' : list Object.t) :
  forall (i : nat) (active : option nat),
    last_active (l ++ l') i active
    = last_active l' (i + List.length l) (last_active l i active).
Proof.
  induction l as [ | obj l IH]; intros i active.
  - rewrite app_nil_l. cbn [last_active List.length]. now rewrite Nat.add_0_r.
  - rewrite <- app_comm_cons. cbn [last_active List.length]. rewrite IH.
    now replace (i + 1 + List.length l) with (i + S (List.length l)) by lia.
Qed.

Lemma last_active_no_mesh (l : list Object.t) :
  forall (i : nat) (active : option nat),
    forallb (fun obj => negb (is_mesh_object obj)) l = true ->
    last_active l i active = active.
Proof.
  induction l as [ | obj l IH]; intros i active; [reflexivity | ].
  cbn [forallb last_active]. intros H. apply andb_prop in H. destruct H as [Hobj H].
  apply negb_true_iff in Hobj. rewrite Hobj. now apply IH.
Qed.

Lemma extract_objects_no_mesh (l : list Object.t) :
  forall (i : nat) (active : option nat) (acc : Extracted),
    forallb (fun obj => negb (is_mesh_object obj)) l = true ->
    extract_objects l i active acc = Ok (acc, active).
Proof.
  induction l as [ | obj l IH]; intros i active acc; [reflexivity | ].
  cbn [forallb extract_objects]. intros H. apply andb_prop in H. destruct H as [Hobj H].
  apply negb_true_iff in Hobj. unfold is_mesh_object in Hobj. rewrite Hobj.
  now apply IH.
Qed.

(** X16: on a scene whose mesh objects the operator of line 201
    accepts, the script builds its plates and area loads from the last
    mesh object of the scene alone, whichever object was active at the
    start: the polygons of the mesh objects before it give no plate,
    while their vertices and edges are among the nodes and members. *)
Theorem script_uses_last_mesh :
  forall (pow_error : float -> comparison) (math_atan2 : float -> float -> float)
         (scene : Scene.t) (before after : list Object.t) (obj : Object.t)
         (mesh : Mesh.t),
    wf_scene scene = true ->
    mode_set_accepts (Scene.objects scene) = true ->
    Scene.objects scene = before ++ obj :: after ->
    Object.data obj = MeshID mesh ->
    forallb (fun other => negb (is_mesh_object other)) after = true ->
    script pow_error math_atan2 scene
    = (area_loads <- add_loads_to_plates pow_error math_atan2
                       (create_plates_from_mesh_data mesh) mesh ;;
       Ok {| model_nodes :=
               PySeq.enumerate 1 (map node_of_vertex (scene_vertices (Scene.objects scene)));
             model_members := PySeq.enumerate 1 (scene_members 0 (Scene.objects scene));
             model_supports := ground_supports 1 (scene_vertices (Scene.objects scene));
             model_plates := create_plates_from_mesh_data mesh;
             model_area_loads := area_loads |}).
Proof.
  intros pow_error math_atan2 scene before after obj mesh Hwf Hpoll Hobjs Hdata Hafter.
  destruct (wf_scene_mesh scene before after obj Hwf Hobjs Hdata) as [Hobj _].
  unfold script, extract_mesh_data.
  destruct (extract_objects_eq (Scene.objects scene) 0 (Scene.active scene) [] []
              Hwf Hpoll)
    as [active' Heq].
  pose proof (extract_objects_active _ _ _ _ Heq) as Hactive.
  cbn [map ground_supports PySeq.enumerate List.length seq combine] in Heq.
  rewrite !app_nil_l in Heq.
  unfold Dict.empty at 1 2 3. rewrite Heq. cbn [bind].
  rewrite Hobjs, last_active_app in Hactive. cbn [last_active] in Hactive.
  rewrite Hobj, (last_active_no_mesh after _ _ Hafter) in Hactive.
  subst active'. unfold context_mesh. cbn [Scene.active Scene.objects Nat.add].
  rewrite Hobjs at 1. rewrite nth_error_app2 by lia.
  rewrite Nat.sub_diag. cbn [nth_error]. rewrite Hdata. cbn [bind nodes members supports].
  reflexivity.
Qed.

Lemma script_uses_last_mesh_witness :
  script correctly_rounded axis_atan2 two_mesh_scene
  = (area_loads <- add_loads_to_plates correctly_rounded axis_atan2
                     (create_plates_from_mesh_data house_mesh) house_mesh ;;
     Ok {| model_nodes :=
             PySeq.enumerate 1
               (map node_of_vertex (scene_vertices (Scene.objects two_mesh_scene)));
           model_members := PySeq.enumerate 1 (scene_members 0 (Scene.objects two_mesh_scene));
           model_supports := ground_supports 1 (scene_vertices (Scene.objects two_mesh_scene));
           model_plates := create_plates_from_mesh_data house_mesh;
           model_area_loads := area_loads |}).
Proof.
  apply (@script_uses_last_mesh correctly_rounded axis_atan2 two_mesh_scene
           [Object.make "MESH" (MeshID triangle_mesh) true; camera] []
           (Object.make "MESH" (MeshID house_mesh) true) house_mesh);
    reflexivity.
Defined.

(** X17: on a scene without a mesh object [extract_mesh_data] returns
    three empty dictionaries and leaves the active object as it was, and
    the script then raises [AttributeError] at [bpy.context.object.data]
    or at [mesh.polygons]: no document is built. *)
Theorem script_without_mesh :
  forall (pow_error : float -> comparison) (math_atan2 : float -> float -> float)
         (scene : Scene.t),
    wf_scene scene = true ->
    forallb (fun other => negb (is_mesh_object other)) (Scene.objects scene) = true ->
    extract_mesh_data scene
    = Ok ({| nodes := Dict.empty nat Node.t;
             members := Dict.empty nat Member.t;
             supports := Dict.empty nat Support.t |}, scene)
    /\ script pow_error math_atan2 scene = Raise AttributeError.
Proof.
  intros pow_error math_atan2 scene Hwf Hnone.
  assert (Hextract : extract_mesh_data scene
                     = Ok ({| nodes := Dict.empty nat Node.t;
                              members := Dict.empty nat Member.t;
                              supports := Dict.empty nat Support.t |}, scene)).
  { unfold extract_mesh_data. rewrite (extract_objects_no_mesh _ _ _ _ Hnone).
    cbn [bind]. now destruct scene. }
  split; [exact Hextract | ].
  unfold script. rewrite Hextract. cbn [bind]. unfold context_mesh.
  destruct (Scene.active scene) as [i | ]; [ | reflexivity].
  destruct (nth_error (Scene.objects scene) i) as [obj | ] eqn:Hi; [ | reflexivity].
  apply nth_error_In in Hi.
  unfold wf_scene in Hwf. rewrite forallb_forall in Hwf, Hnone.
  specialize (Hwf obj Hi). specialize (Hnone obj Hi).
  unfold wf_object in Hwf. unfold is_mesh_object in Hnone.
  destruct (Object.data obj); [ | reflexivity].
  apply andb_prop in Hwf. destruct Hwf as [Hwf _]. rewrite Hwf in Hnone. discriminate.
Qed.

Lemma script_without_mesh_witness :
  extract_mesh_data (Scene.make [camera] (Some 0))
  = Ok ({| nodes := Dict.empty nat Node.t;
           members := Dict.empty nat Member.t;
           supports := Dict.empty nat Support.t |}, Scene.make [camera] (Some 0))
  /\ script correctly_rounded axis_atan2 (Scene.make [camera] (Some 0))
     = Raise AttributeError.
Proof.
  apply (@script_without_mesh correctly_rounded axis_atan2 (Scene.make [camera] (Some 0)));
    reflexivity.
Defined.

(** X19: a plate names its nodes by the vertex's position in its own
    mesh ([i + 1]), while the node of that vertex has the id that counts
    the vertices of the mesh objects before it as well: the node found
    under the plate's reference is the [i]-th vertex of the whole scene,
    which is the polygon's own vertex only when no mesh vertex precedes
    the mesh. *)
Theorem plate_references_count_from_scene_start :
  forall (scene : Scene.t) (before after : list Object.t) (obj : Object.t)
         (mesh : Mesh.t) (p i : nat) (poly : MeshPolygon.t) (v : MeshVertex.t),
    wf_scene scene = true ->
    mode_set_accepts (Scene.objects scene) = true ->
    Scene.objects scene = before ++ obj :: after ->
    Object.data obj = MeshID mesh ->
    nth_error (Mesh.polygons mesh) p = Some poly ->
    In i (MeshPolygon.vertices poly) ->
    nth_error (Mesh.vertices mesh) i = Some v ->
    exists (extracted : Extracted) (scene' : Scene.t) (plate_info : Plate.t),
      extract_mesh_data scene = Ok (extracted, scene')
      /\ Dict.get String.eqb (PyStr.str (p + 1)) (create_plates_from_mesh_data mesh)
         = Some plate_info
      /\ In (PyStr.str (i + 1)) (PyStr.split "," (Plate.nodes plate_info))
      /\ Dict.get Nat.eqb (List.length (scene_vertices before) + i + 1) (nodes extracted)
         = Some (node_of_vertex v)
      /\ Dict.get Nat.eqb (i + 1) (nodes extracted)
         = option_map node_of_vertex (nth_error (scene_vertices (Scene.objects scene)) i).
Proof.
  intros scene before after obj mesh p i poly v Hwf Hpoll Hobjs Hdata Hp Hi Hv.
  destruct (extract_mesh_data_eq scene Hwf Hpoll) as [active' Heq].
  destruct (wf_scene_mesh scene before after obj Hwf Hobjs Hdata) as [_ Hmesh].
  destruct (wf_mesh_polygon mesh poly Hmesh (nth_error_In _ _ Hp)) as [Hlen Hrange].
  eexists. eexists. exists (default_plate (node_references (MeshPolygon.vertices poly))).
  split; [exact Heq | ]. cbn [nodes]. split; [ | split; [ | split]].
  - apply (dict_In_get String.eqb String.eqb_eq);
      [apply create_plates_from_mesh_data_NoDup | ].
    rewrite create_plates_from_mesh_data_eq.
    apply (enumerate_nth 0) in Hp. apply nth_error_In in Hp.
    apply (in_map (fun ip => (PyStr.str (fst ip + 1),
                              default_plate
                                (node_references (MeshPolygon.vertices (snd ip))))))
      in Hp.
    exact Hp.
  - cbn [Plate.nodes default_plate]. rewrite split_node_references.
    + apply (in_map (fun k => PyStr.str (k + 1))). exact Hi.
    + destruct (MeshPolygon.vertices poly); [simpl in Hlen; lia | discriminate].
  - eapply node_get; eassumption.
  - replace (i + 1) with (1 + i) by lia.
    now rewrite enumerate_get, nth_error_map.
Qed.

Lemma plate_references_count_from_scene_start_witness :
  exists (extracted : Extracted) (scene' : Scene.t) (plate_info : Plate.t),
    extract_mesh_data two_mesh_scene = Ok (extracted, scene')
    /\ Dict.get String.eqb (PyStr.str (2 + 1)) (create_plates_from_mesh_data house_mesh)
       = Some plate_info
    /\ In (PyStr.str (4 + 1)) (PyStr.split "," (Plate.nodes plate_info))
    /\ Dict.get Nat.eqb
         (List.length (scene_vertices [Object.make "MESH" (MeshID triangle_mesh) true; camera])
          + 4 + 1) (nodes extracted)
       = Some (node_of_vertex (vertex 4 0 1 1))
    /\ Dict.get Nat.eqb (4 + 1) (nodes extracted)
       = option_map node_of_vertex
           (nth_error (scene_vertices (Scene.objects two_mesh_scene)) 4).
Proof.
  apply (@plate_references_count_from_scene_start two_mesh_scene
           [Object.make "MESH" (MeshID triangle_mesh) true; camera] []
           (Object.make "MESH" (MeshID house_mesh) true) house_mesh
           2 4 (MeshPolygon.make [2; 3; 4]) (vertex 4 0 1 1));
    first [reflexivity | simpl; tauto].
Defined.
